(** * Deskdrop EDA: the dataset loader and its aggregation queries

    A shallow embedding of [streamlit-apps/deskdrop_eda.py]: the function
    [load_data] and the two read-only queries of the script that the
    specification states properties of (duplicate titles, author
    frequency), followed by the other views that the script computes from
    the table with the same library calls (text columns, articles of the
    first authors, date-time frequencies).  The script is a thin layer
    over a dataframe library, so the development first fixes a model of
    the library calls the script makes ([read_csv], [to_datetime],
    [duplicated], [groupby().size()], [sort_values], arithmetic on
    series, [isin], the accessor [dt], [np.histogram]) and then
    transcribes the script on top of it. *)

From Stdlib Require Import ZArith QArith Floats Ascii String Sorted.
From stdpp Require Import base option list gmap strings pretty.

Local Open Scope Z_scope.

(** ** Exceptions and results *)

(** The exceptions that can leave the calls made by the script. *)
Inductive Exception : Set :=
| FileNotFoundError
| NotADirectoryError
| IsADirectoryError
| OSError
| EmptyDataError
| ParserError
| ValueError
| KeyError
| TypeError
| OutOfBoundsDatetime.

(** A call either returns a value or raises. *)
Inductive result (A : Type) : Type :=
| Ok (a : A)
| Raise (e : Exception).
Arguments Ok {A} a.
Arguments Raise {A} e.

Definition bind {A B} (r : result A) (k : A -> result B) : result B :=
  match r with
  | Ok a => k a
  | Raise e => Raise e
  end.

Notation "x <- r ;;; k" := (bind r (fun x => k))
  (at level 100, r at next level, right associativity, only parsing).

Definition is_ok {A} (r : result A) : bool :=
  match r with Ok _ => true | Raise _ => false end.

(** [traverse f l] applies [f] from left to right and raises at the first
    element on which [f] raises. *)
Fixpoint traverse {A B} (f : A -> result B) (l : list A) : result (list B) :=
  match l with
  | [] => Ok []
  | a :: l' => b <- f a;;; bs <- traverse f l';;; Ok (b :: bs)
  end.

(** ** The tokenizer of [read_csv]

    The reader splits the bytes of the file into records of fields with
    the state machine of the library's tokenizer, in its default
    configuration: comma as delimiter, the double quote as quote
    character, doubled quotes inside quoted fields, blank lines skipped,
    line ends LF, CR or CRLF. *)

Module Tokenizer.

Definition LF : ascii := "010"%char.
Definition CR : ascii := "013"%char.
Definition TAB : ascii := "009"%char.
Definition SPACE : ascii := " "%char.
Definition delimiter : ascii := ","%char.
Definition quotechar : ascii := "034"%char.

Definition is_whitespace (c : ascii) : bool :=
  Ascii.eqb c SPACE || Ascii.eqb c TAB.

Inductive ParserState : Set :=
| START_RECORD
| START_FIELD
| IN_FIELD
| IN_QUOTED_FIELD
| QUOTE_IN_QUOTED_FIELD
| EAT_CRNL
| EAT_CRNL_NOP
| WHITESPACE_LINE.

(** The tokenizer's buffers.  [stream] holds the bytes of the field being
    read, [words] the fields of the record being read, [lines] the
    finished records; all three newest first. *)
Record parser_t : Type := mkParser {
  state : ParserState;
  stream : list ascii;
  words : list string;
  lines : list (list string)
}.

Definition parser_new : parser_t := mkParser START_RECORD [] [] [].

Definition set_state (s : ParserState) (p : parser_t) : parser_t :=
  mkParser s (stream p) (words p) (lines p).

Definition push_char (c : ascii) (p : parser_t) : parser_t :=
  mkParser (state p) (c :: stream p) (words p) (lines p).

Definition end_field (p : parser_t) : parser_t :=
  mkParser (state p) []
           (string_of_list_ascii (rev (stream p)) :: words p) (lines p).

(** A skipped line leaves nothing behind. *)
Definition drop_line (s : ParserState) (p : parser_t) : parser_t :=
  mkParser s [] [] (lines p).

(** [end_line] closes a record.  From the third line on, a record with
    more fields than the line before it is an error; a record with fewer
    fields than the line before it is padded with empty fields. *)
Definition end_line (s : ParserState) (p : parser_t) : result parser_t :=
  let fields := length (words p) in
  match lines p with
  | [] => Ok (mkParser s [] [] [rev (words p)])
  | prev :: older =>
      let ex_fields := length prev in
      if bool_decide (older ≠ []) && (ex_fields <? fields)%nat then Raise ParserError
      else Ok (mkParser s [] []
                 ((rev (words p) ++ replicate (ex_fields - fields) EmptyString)
                    :: lines p))
  end.

Definition step_in_field (p : parser_t) (c : ascii) : result parser_t :=
  if Ascii.eqb c LF then end_line START_RECORD (end_field p)
  else if Ascii.eqb c CR then Ok (set_state EAT_CRNL (end_field p))
  else if Ascii.eqb c delimiter then Ok (set_state START_FIELD (end_field p))
  else Ok (push_char c p).

Definition step_start_field (p : parser_t) (c : ascii) : result parser_t :=
  if Ascii.eqb c LF then end_line START_RECORD (end_field p)
  else if Ascii.eqb c CR then Ok (set_state EAT_CRNL (end_field p))
  else if Ascii.eqb c quotechar then Ok (set_state IN_QUOTED_FIELD p)
  else if Ascii.eqb c delimiter then Ok (set_state START_FIELD (end_field p))
  else Ok (set_state IN_FIELD (push_char c p)).

(** At the start of a record an empty line is skipped, and a line that
    starts with blanks is held back until it is known whether anything
    else follows on it. *)
Definition step_start_record (p : parser_t) (c : ascii) : result parser_t :=
  if Ascii.eqb c LF then Ok p
  else if Ascii.eqb c CR then Ok (set_state EAT_CRNL_NOP p)
  else if is_whitespace c then Ok (set_state WHITESPACE_LINE (push_char c p))
  else step_start_field p c.

(** [lines_done limit p]: the requested number of lines has been read. *)
Definition lines_done (limit : option nat) (p : parser_t) : bool :=
  match limit with
  | None => false
  | Some n => (n <=? length (lines p))%nat
  end.

Definition step (limit : option nat) (p : parser_t) (c : ascii) : result parser_t :=
  match state p with
  | START_RECORD => step_start_record p c
  | START_FIELD => step_start_field p c
  | IN_FIELD => step_in_field p c
  | IN_QUOTED_FIELD =>
      if Ascii.eqb c quotechar then Ok (set_state QUOTE_IN_QUOTED_FIELD p)
      else Ok (push_char c p)
  | QUOTE_IN_QUOTED_FIELD =>
      if Ascii.eqb c quotechar then Ok (set_state IN_QUOTED_FIELD (push_char c p))
      else if Ascii.eqb c delimiter then Ok (set_state START_FIELD (end_field p))
      else if Ascii.eqb c LF then end_line START_RECORD (end_field p)
      else if Ascii.eqb c CR then Ok (set_state EAT_CRNL (end_field p))
      else Ok (set_state IN_FIELD (push_char c p))
  | WHITESPACE_LINE =>
      (* the blanks held back are in [stream]; a line of blanks only is
         skipped, otherwise they are the beginning of the first field *)
      if Ascii.eqb c LF then Ok (drop_line START_RECORD p)
      else if Ascii.eqb c CR then Ok (drop_line EAT_CRNL_NOP p)
      else if is_whitespace c then Ok (push_char c p)
      else step_in_field (set_state IN_FIELD p) c
  | EAT_CRNL =>
      if Ascii.eqb c LF then end_line START_RECORD p
      else
        (* first byte of the next record: close the line and read it again *)
        p' <- end_line START_RECORD p;;;
        if lines_done limit p' then Ok p' else step_start_record p' c
  | EAT_CRNL_NOP =>
      if Ascii.eqb c LF || Ascii.eqb c delimiter then Ok (set_state START_RECORD p)
      else step_start_record (set_state START_RECORD p) c
  end.

(** End of input closes the record being read; inside a quoted field it is
    an error. *)
Definition handle_eof (p : parser_t) : result parser_t :=
  match state p with
  | START_RECORD | WHITESPACE_LINE | EAT_CRNL_NOP => Ok (drop_line START_RECORD p)
  | IN_QUOTED_FIELD => Raise ParserError
  | IN_FIELD | START_FIELD | QUOTE_IN_QUOTED_FIELD =>
      end_line START_RECORD (end_field p)
  | EAT_CRNL => end_line START_RECORD p
  end.

(** Reads bytes until [limit] lines are complete or the input ends. *)
Fixpoint tokenize_helper (limit : option nat) (p : parser_t) (buf : list ascii)
  : result parser_t :=
  if lines_done limit p then Ok p
  else match buf with
       | [] => handle_eof p
       | c :: buf' => p' <- step limit p c;;; tokenize_helper limit p' buf'
       end.

(** The records of a file, oldest first. *)
Definition tokenize (limit : option nat) (data : string) : result (list (list string)) :=
  p <- tokenize_helper limit parser_new (list_ascii_of_string data);;;
  Ok (rev (lines p)).

End Tokenizer.


(** ** Values and columns *)

(** A cell of a table as the script sees it. *)
Inductive Value : Type :=
| VInt (z : Z)
| VFloat (f : float)
| VBool (b : bool)
| VStr (s : string)
| VNaN
| VTimestamp (ns : Z)
| VNaT.

Definition INT64_MIN : Z := - 2 ^ 63.
Definition INT64_MAX : Z := 2 ^ 63 - 1.
Definition UINT64_MAX : Z := 2 ^ 64 - 1.

(** The missing-time marker of [datetime64]: the smallest 64-bit integer. *)
Definition NPY_NAT : Z := INT64_MIN.

(** Two's complement wrap-around of 64-bit integer arithmetic. *)
Definition wrap_int64 (z : Z) : Z := (z + 2 ^ 63) mod 2 ^ 64 - 2 ^ 63.

(** A column, by dtype.  [Category] holds its label set and one code per
    row, [-1] for a missing value; [Datetime64] holds nanoseconds since
    the epoch, [NPY_NAT] for a missing time. *)
Inductive Column : Type :=
| Int64 (l : list Z)
| UInt64 (l : list Z)
| Float64 (l : list float)
| Bool (l : list bool)
| Object (l : list Value)
| Category (categories : list string) (codes : list Z)
| Datetime64 (l : list Z).

Definition is_nan (f : float) : bool := negb (PrimFloat.eqb f f).

Definition value_of_float (f : float) : Value :=
  if is_nan f then VNaN else VFloat f.

Definition value_of_code (categories : list string) (code : Z) : Value :=
  if code <? 0 then VNaN
  else match categories !! Z.to_nat code with
       | Some s => VStr s
       | None => VNaN
       end.

Definition value_of_datetime (ns : Z) : Value :=
  if ns =? NPY_NAT then VNaT else VTimestamp ns.

(** The cells of a column, one per row. *)
Definition values (c : Column) : list Value :=
  match c with
  | Int64 l => VInt <$> l
  | UInt64 l => VInt <$> l
  | Float64 l => value_of_float <$> l
  | Bool l => VBool <$> l
  | Object l => l
  | Category cats codes => value_of_code cats <$> codes
  | Datetime64 l => value_of_datetime <$> l
  end.

Definition column_length (c : Column) : nat :=
  match c with
  | Int64 l | UInt64 l | Datetime64 l => length l
  | Float64 l => length l
  | Bool l => length l
  | Object l => length l
  | Category _ codes => length codes
  end.

(** A missing cell. *)
Definition isna (v : Value) : bool :=
  match v with
  | VNaN | VNaT => true
  | VFloat f => is_nan f
  | _ => false
  end.

(** Equality of cells as the library's hash tables test it: floats by
    IEEE equality, missing values equal to each other. *)
Definition value_eqb (a b : Value) : bool :=
  match a, b with
  | VInt x, VInt y => x =? y
  | VFloat x, VFloat y => PrimFloat.eqb x y
  | VBool x, VBool y => Bool.eqb x y
  | VStr x, VStr y => String.eqb x y
  | VNaN, VNaN => true
  | VTimestamp x, VTimestamp y => x =? y
  | VNaT, VNaT => true
  | _, _ => false
  end.

(** ** Reading cells *)

(** The strings the reader takes for a missing value. *)
Definition na_values : list string :=
  [ ""; "#N/A"; "#N/A N/A"; "#NA"; "-1.#IND"; "-1.#QNAN"; "-NaN"; "-nan";
    "1.#IND"; "1.#QNAN"; "<NA>"; "N/A"; "NA"; "NULL"; "NaN"; "n/a"; "nan";
    "null" ]%string.

Definition is_na (s : string) : bool := bool_decide (s ∈ na_values).

Definition digit_of (c : ascii) : option Z := Z.of_nat <$> Ascii.is_nat c.

Fixpoint skip_spaces (s : list ascii) : list ascii :=
  match s with
  | c :: s' => if Ascii.is_space c then skip_spaces s' else s
  | [] => []
  end.

(** Reads a run of decimal digits; returns the number read so far and the
    rest of the input. *)
Fixpoint read_digits (acc : Z) (s : list ascii) : Z * list ascii :=
  match s with
  | c :: s' =>
      match digit_of c with
      | Some d => read_digits (10 * acc + d) s'
      | None => (acc, s)
      end
  | [] => (acc, [])
  end.

(** An integer literal: blanks, an optional sign, at least one digit,
    blanks.  [None] when the cell is not of that form. *)
Definition str_to_int (s : string) : option Z :=
  let s1 := skip_spaces (list_ascii_of_string s) in
  let '(neg, s2) :=
    match s1 with
    | "-"%char :: r => (true, r)
    | "+"%char :: r => (false, r)
    | _ => (false, s1)
    end in
  match s2 with
  | c :: _ =>
      if bool_decide (is_Some (digit_of c)) then
        let '(n, rest) := read_digits 0 s2 in
        match skip_spaces rest with
        | [] => Some (if neg then - n else n)
        | _ :: _ => None
        end
      else None
  | [] => None
  end.

(** The ways in which the tokenizer fails to read a cell as an integer. *)
Inductive IntError : Set :=
| ERROR_NO_DIGITS
| ERROR_OVERFLOW
| ERROR_INVALID_CHARS.

Inductive Conversion (A : Type) : Type :=
| Converted (a : A)
| Failed (error : IntError).
Arguments Converted {A} a.
Arguments Failed {A} error.

Definition in_int64 (z : Z) : bool := (INT64_MIN <=? z) && (z <=? INT64_MAX).
Definition in_uint64 (z : Z) : bool := (0 <=? z) && (z <=? UINT64_MAX).

(** A cell as an integer of 64 bits.  The digits are read one by one, so
    that a number out of range is found before what follows it is looked
    at. *)
Definition str_to_int64 (s : string) : Conversion Z :=
  let s1 := skip_spaces (list_ascii_of_string s) in
  let '(neg, s2) :=
    match s1 with
    | "-"%char :: r => (true, r)
    | "+"%char :: r => (false, r)
    | _ => (false, s1)
    end in
  match s2 with
  | c :: _ =>
      if bool_decide (is_Some (digit_of c)) then
        let '(n, rest) := read_digits 0 s2 in
        let number := if neg then - n else n in
        if in_int64 number then
          match skip_spaces rest with
          | [] => Converted number
          | _ :: _ => Failed ERROR_INVALID_CHARS
          end
        else Failed ERROR_OVERFLOW
      else Failed ERROR_NO_DIGITS
  | [] => Failed ERROR_NO_DIGITS
  end.

(** What the reading of a column as unsigned integers has met: a minus
    sign, a number above the signed range, a missing cell. *)
Record uint_state : Set := mkUintState {
  seen_sint : bool;
  seen_uint : bool;
  seen_null : bool
}.

Definition uint_state_init : uint_state := mkUintState false false false.

Definition uint64_conflict (state : uint_state) : bool :=
  seen_uint state && (seen_sint state || seen_null state).

(** A cell as an unsigned integer of 64 bits.  A cell that starts with a
    minus sign is noted in the state and not read any further. *)
Definition str_to_uint64 (state : uint_state) (s : string) : Conversion (Z * uint_state) :=
  let s1 := skip_spaces (list_ascii_of_string s) in
  let '(neg, s2) :=
    match s1 with
    | "-"%char :: r => (true, r)
    | "+"%char :: r => (false, r)
    | _ => (false, s1)
    end in
  if neg then Converted (0, mkUintState true (seen_uint state) (seen_null state))
  else
    match s2 with
    | c :: _ =>
        if bool_decide (is_Some (digit_of c)) then
          let '(n, rest) := read_digits 0 s2 in
          if UINT64_MAX <? n then Failed ERROR_OVERFLOW
          else match skip_spaces rest with
               | [] => Converted (n, mkUintState (seen_sint state)
                                       (seen_uint state || (INT64_MAX <? n))
                                       (seen_null state))
               | _ :: _ => Failed ERROR_INVALID_CHARS
               end
        else Failed ERROR_NO_DIGITS
    | [] => Failed ERROR_NO_DIGITS
    end.

(** Upper case of a letter of ASCII. *)
Definition toupper (c : ascii) : ascii :=
  let n := nat_of_ascii c in
  if (97 <=? n)%nat && (n <=? 122)%nat then ascii_of_nat (n - 32) else c.

Definition uppercase (s : string) : string :=
  string_of_list_ascii (toupper <$> list_ascii_of_string s).

(** The tokenizer's reading of a truth value, in any mix of cases. *)
Definition to_boolean (s : string) : option bool :=
  if String.eqb (uppercase s) "TRUE" then Some true
  else if String.eqb (uppercase s) "FALSE" then Some false
  else None.

(** A cell as a truth value: the spellings the reader is set up with,
    then the tokenizer's own. *)
Definition str_to_bool (s : string) : option bool :=
  if bool_decide (s ∈ ["True"; "TRUE"; "true"]%string) then Some true
  else if bool_decide (s ∈ ["False"; "FALSE"; "false"]%string) then Some false
  else to_boolean s.

(** The strings that denote a missing time when a time is read from text. *)
Definition nat_strings : list string :=
  [ "NaT"; "nat"; "NAT"; "nan"; "NaN"; "NAN" ]%string.

(** Conversion of an integer to the nearest binary64 number. *)
Definition float_of_Z (z : Z) : float :=
  SF2Prim (binary_normalize prec emax z 0 false).

(** ** Sorting *)

Section Sort.
Context {A : Type} (leb : A -> A -> bool).

Fixpoint insert_sorted (x : A) (l : list A) : list A :=
  match l with
  | [] => [x]
  | y :: l' => if leb x y then x :: l else y :: insert_sorted x l'
  end.

(** Insertion sort; elements that compare equal keep their order. *)
Definition isort (l : list A) : list A := foldr insert_sorted [] l.
End Sort.

(** ** Type conversion of a column of cells *)

(** The dtypes a caller can ask for in the [dtype] mapping. *)
Inductive Dtype : Set :=
| DtCategory
| DtObject.

(** The distinct elements of a list, in order of first appearance. *)
Fixpoint unique {A} (eqb : A -> A -> bool) (l : list A) : list A :=
  match l with
  | [] => []
  | x :: l' => x :: filter (fun y => negb (eqb x y)) (unique eqb l')
  end.

Fixpoint index_of (s : string) (l : list string) : option nat :=
  match l with
  | [] => None
  | x :: l' => if String.eqb s x then Some 0%nat else S <$> index_of s l'
  end.

Definition string_cell (s : string) : Value :=
  if is_na s then VNaN else VStr s.

(** dtype [category]: the labels are the distinct cells that are not
    missing, sorted; each row holds the position of its label. *)
Definition categorical_convert (cells : list string) : Column :=
  let present := filter (fun s => negb (is_na s)) cells in
  let categories := isort String.leb (unique String.eqb present) in
  Category categories
    ((fun s => if is_na s then -1
               else from_option Z.of_nat (-1) (index_of s categories)) <$> cells).

(** ** Tables *)

(** A column together with its row labels. *)
Record Series : Type := mkSeries {
  s_index : list Value;
  s_values : Column
}.

(** A table: row labels and named columns, in column order. *)
Record DataFrame : Type := mkDataFrame {
  index : list Value;
  columns : list (string * Column)
}.

(** The row labels [0, 1, ..., n-1] of a freshly read table. *)
Definition RangeIndex (n : nat) : list Value := (fun i => VInt (Z.of_nat i)) <$> seq 0 n.

Fixpoint lookup_column (name : string) (cols : list (string * Column)) : option Column :=
  match cols with
  | [] => None
  | (k, c) :: cols' => if String.eqb name k then Some c else lookup_column name cols'
  end.

(** [df[name]] *)
Definition getitem (df : DataFrame) (name : string) : result Series :=
  match lookup_column name (columns df) with
  | Some c => Ok (mkSeries (index df) c)
  | None => Raise KeyError
  end.

Fixpoint replace_column (name : string) (c : Column) (cols : list (string * Column))
  : list (string * Column) :=
  match cols with
  | [] => [(name, c)]
  | (k, c') :: cols' =>
      if String.eqb name k then (k, c) :: cols'
      else (k, c') :: replace_column name c cols'
  end.

(** [df[name] = s] for a series [s] with the row labels of [df]: the
    column is replaced where it stands, or added as the last column. *)
Definition setitem (df : DataFrame) (name : string) (s : Series) : DataFrame :=
  mkDataFrame (index df) (replace_column name (s_values s) (columns df)).

(** [df[names]] *)
Definition getitem_list (df : DataFrame) (names : list string) : result DataFrame :=
  cols <- traverse (fun name =>
                      match lookup_column name (columns df) with
                      | Some c => Ok (name, c)
                      | None => Raise KeyError
                      end) names;;;
  Ok (mkDataFrame (index df) cols).

(** The elements of [l] at the positions where [mask] is true. *)
Fixpoint select {A} (mask : list bool) (l : list A) : list A :=
  match mask, l with
  | b :: mask', x :: l' => if b then x :: select mask' l' else select mask' l'
  | _, _ => []
  end.

Definition select_column (mask : list bool) (c : Column) : Column :=
  match c with
  | Int64 l => Int64 (select mask l)
  | UInt64 l => UInt64 (select mask l)
  | Float64 l => Float64 (select mask l)
  | Bool l => Bool (select mask l)
  | Object l => Object (select mask l)
  | Category cats codes => Category cats (select mask codes)
  | Datetime64 l => Datetime64 (select mask l)
  end.

(** [df[mask]] for a boolean series [mask] with the row labels of [df]. *)
Definition getitem_mask (df : DataFrame) (mask : list bool) : DataFrame :=
  mkDataFrame (select mask (index df))
              ((fun kc => (kc.1, select_column mask kc.2)) <$> columns df).

(** Row [i] of a table: one cell per column. *)
Definition row (df : DataFrame) (i : nat) : list (option Value) :=
  (fun kc => values kc.2 !! i) <$> columns df.

(** The rows of a table with their labels, top to bottom. *)
Definition rows (df : DataFrame) : list (Value * list (option Value)) :=
  imap (fun i label => (label, row df i)) (index df).

(** ** The library calls of [load_data] *)

Section Loader.

(** Four routines of the runtime are taken as parameters: the tokenizer's
    conversion of a decimal literal to a binary64 number, Python's
    [float] of a text ([None] where it raises [ValueError]), with which
    [to_datetime] reads a cell of text, and the conversions of a binary64
    and of an unsigned 64-bit count of seconds to nanoseconds, whose
    rounding and range checks differ between releases of the library.  So
    is the treatment of a categorical column by [to_datetime] with a
    unit: later releases convert its cells one by one, earlier ones
    reject the column.  Nothing is assumed about them. *)
Variable strtod : string -> option float.
Variable python_float : string -> option float.
Variable float_epoch_to_ns : float -> result Z.
Variable uint64_epoch_to_ns : Z -> result Z.
Variable unit_converts_categorical : bool.

(** *** Type inference *)

(** The cells of a column as integers of 64 bits, the missing ones as
    [None].  The cells are read in order: the first cell that cannot be
    read decides how the reading fails. *)
Fixpoint try_int64 (cells : list string) : Conversion (list (option Z)) :=
  match cells with
  | [] => Converted []
  | s :: cells' =>
      if is_na s then
        match try_int64 cells' with
        | Converted l => Converted (None :: l)
        | Failed e => Failed e
        end
      else
        match str_to_int64 s with
        | Converted z =>
            match try_int64 cells' with
            | Converted l => Converted (Some z :: l)
            | Failed e => Failed e
            end
        | Failed e => Failed e
        end
  end.

(** The cells of a column as unsigned integers of 64 bits, a missing cell
    as 0, with what has been met on the way. *)
Fixpoint try_uint64 (state : uint_state) (cells : list string)
  : Conversion (list Z * uint_state) :=
  match cells with
  | [] => Converted ([], state)
  | s :: cells' =>
      if is_na s then
        match try_uint64 (mkUintState (seen_sint state) (seen_uint state) true) cells' with
        | Converted (l, state') => Converted (0 :: l, state')
        | Failed e => Failed e
        end
      else
        match str_to_uint64 state s with
        | Converted (z, state1) =>
            match try_uint64 state1 cells' with
            | Converted (l, state') => Converted (z :: l, state')
            | Failed e => Failed e
            end
        | Failed e => Failed e
        end
  end.

Definition try_float (cells : list string) : option (list float) :=
  mapM (fun s => if is_na s then Some nan else strtod s) cells.

Definition try_bool (cells : list string) : option (list (option bool)) :=
  mapM (fun s => if is_na s then Some None else Some <$> str_to_bool s) cells.

(** An integer column with missing cells is stored as binary64, the
    missing cells (and the integer that marks them) as NaN. *)
Definition upcast_int (o : option Z) : float :=
  match o with
  | Some z => if z =? INT64_MIN then nan else float_of_Z z
  | None => nan
  end.

Definition upcast_bool (o : option bool) : Value :=
  match o with
  | Some b => VBool b
  | None => VNaN
  end.

(** A column read as integers; [None] when its cells are not integers and
    the next dtype is to be tried.  Signed integers of 64 bits come
    first; a column with missing cells is then stored as binary64.  When
    a number is out of the signed range the column is read again as
    unsigned integers.  If that meets both a number above the signed
    range and a minus sign or a missing cell, the column is left as the
    text it is, missing-value markers included; if it meets a minus sign
    only, or a number beyond the unsigned range, the column is text with
    its missing cells. *)
Definition convert_integers (cells : list string) : option Column :=
  match try_int64 cells with
  | Converted ints =>
      Some (if bool_decide (None ∈ ints) then Float64 (upcast_int <$> ints)
            else Int64 (omap id ints))
  | Failed ERROR_OVERFLOW =>
      match try_uint64 uint_state_init cells with
      | Converted (l, state) =>
          if uint64_conflict state then Some (Object (VStr <$> cells))
          else if seen_sint state then Some (Object (string_cell <$> cells))
          else Some (UInt64 l)
      | Failed ERROR_OVERFLOW => Some (Object (string_cell <$> cells))
      | Failed _ => None
      end
  | Failed _ => None
  end.

(** The dtype of a column for which the caller asked none: integers,
    else binary64 numbers, else booleans, else text. *)
Definition infer_column (cells : list string) : Column :=
  match convert_integers cells with
  | Some c => c
  | None =>
      match try_float cells with
      | Some floats => Float64 floats
      | None =>
          match try_bool cells with
          | Some bools =>
              if bool_decide (None ∈ bools) then Object (upcast_bool <$> bools)
              else Bool (omap id bools)
          | None => Object (string_cell <$> cells)
          end
      end
  end.

Definition convert_column (dt : option Dtype) (cells : list string) : Column :=
  match dt with
  | Some DtCategory => categorical_convert cells
  | Some DtObject => Object (string_cell <$> cells)
  | None => infer_column cells
  end.

(** A column of a table without rows. *)
Definition empty_column (dt : option Dtype) : Column :=
  match dt with
  | Some DtCategory => Category [] []
  | _ => Object []
  end.

(** A cell that denotes a number, and a cell that denotes a missing
    value or a missing time. *)
Definition numeric_cell (s : string) : bool :=
  bool_decide (is_Some (str_to_int s)) || bool_decide (is_Some (strtod s))
  || bool_decide (is_Some (python_float s)).

Definition missing_cell (s : string) : bool :=
  is_na s || bool_decide (s ∈ nat_strings).

(** *** [read_csv] *)

(** The files on disk: a tree of directories and regular files, the
    working directory of the process (the names that lead to it from the
    root), and the limits on the length of a name and of a path.  The
    text of a regular file is what reading the file gives.  Symbolic
    links, devices and permissions are outside this development: every
    entry is a directory or a regular file that the process may read. *)
#[warnings="-register-all"]
Inductive Node : Type :=
| RegularFile (data : string)
| Directory (entries : list (string * Node)).

Record FileSystem : Type := mkFileSystem {
  root : Node;
  cwd : list string;
  NAME_MAX : nat;
  PATH_MAX : nat
}.

Definition NUL : ascii := "000"%char.
Definition SLASH : ascii := "/"%char.

(** The names between the slashes of a path. *)
Fixpoint split_path (name : list ascii) (path : list ascii) : list string :=
  match path with
  | [] => [string_of_list_ascii (rev name)]
  | c :: path' =>
      if Ascii.eqb c SLASH then string_of_list_ascii (rev name) :: split_path [] path'
      else split_path (c :: name) path'
  end.

Definition components (path : string) : list string :=
  split_path [] (list_ascii_of_string path).

Definition absolute (path : string) : bool :=
  match path with
  | String c _ => Ascii.eqb c SLASH
  | EmptyString => false
  end.

Fixpoint lookup_entry (name : string) (entries : list (string * Node)) : option Node :=
  match entries with
  | [] => None
  | (k, node) :: entries' => if String.eqb name k then Some node else lookup_entry name entries'
  end.

(** The walk of the operating system along the names of a path, from the
    node [cur] whose ancestors are [parents], nearest first.  A name is
    looked up in a directory only; the empty name and [.] stay where they
    are, [..] goes to the parent (the root is its own parent). *)
Fixpoint walk (name_max : nat) (cur : Node) (parents : list Node) (names : list string)
  : result (Node * list Node) :=
  match names with
  | [] => Ok (cur, parents)
  | name :: names' =>
      match cur with
      | RegularFile _ => Raise NotADirectoryError
      | Directory entries =>
          if String.eqb name "" || String.eqb name "." then walk name_max cur parents names'
          else if String.eqb name ".." then
            match parents with
            | [] => walk name_max cur [] names'
            | parent :: parents' => walk name_max parent parents' names'
            end
          else if (name_max <? String.length name)%nat then Raise OSError
          else match lookup_entry name entries with
               | None => Raise FileNotFoundError
               | Some node => walk name_max node (cur :: parents) names'
               end
      end
  end.

(** The names walked for a path: those of the working directory first,
    unless the path starts at the root. *)
Definition path_names (fs : FileSystem) (path : string) : list string :=
  (if absolute path then [] else cwd fs) ++ components path.

(** [open(path)] followed by reading the file to its end.  Python rejects
    a path with a NUL character before the operating system sees it; the
    operating system rejects the empty path and a path that is too long
    before it walks the names. *)
Definition open (fs : FileSystem) (path : string) : result string :=
  if bool_decide (NUL ∈ list_ascii_of_string path) then Raise ValueError
  else if String.eqb path "" then Raise FileNotFoundError
  else if (PATH_MAX fs <=? String.length path)%nat then Raise OSError
  else
    found <- walk (NAME_MAX fs) (root fs) [] (path_names fs path);;;
    match found.1 with
    | RegularFile data => Ok data
    | Directory _ => Raise IsADirectoryError
    end.

(** [nrows], if given, has to be an integer that is not negative. *)
Definition validate_integer (nrows : option Z) : result (option nat) :=
  match nrows with
  | None => Ok None
  | Some n => if n <? 0 then Raise ValueError else Ok (Some (Z.to_nat n))
  end.

(** The header and the first record are read when the reader is created,
    the records up to the row limit afterwards. *)
Definition line_limit (nrows : option nat) : option nat :=
  (fun n => Nat.max 2 (S n)) <$> nrows.

Definition take_rows {A} (nrows : option nat) (recs : list A) : list A :=
  match nrows with
  | None => recs
  | Some n => take n recs
  end.

Definition dtype_of (dtype : option (gmap string Dtype)) (name : string) : option Dtype :=
  dt ← dtype; dt !! name.

(** Column [j] of the records: missing trailing fields read as empty. *)
Definition field (j : nat) (rec : list string) : string := default EmptyString (rec !! j).

Definition make_columns (dtype : option (gmap string Dtype)) (names : list string)
  (recs : list (list string)) : list (string * Column) :=
  imap (fun j name =>
          (name, match recs with
                 | [] => empty_column (dtype_of dtype name)
                 | _ => convert_column (dtype_of dtype name) (field j <$> recs)
                 end)) names.

(** The tokenizing stage of [read_csv]: the fields of the header and the
    records read.  A file whose first data record has more fields than
    the header (for which the library turns the leading fields into row
    labels) is outside this development and is rejected. *)
Definition read_records (fs : FileSystem) (path : string) (nrows : option Z)
  : result (list string * list (list string)) :=
  data <- open fs path;;;
  head <- Tokenizer.tokenize (Some 2%nat) data;;;
  match head with
  | [] => Raise EmptyDataError
  | header :: first =>
      if bool_decide (Exists (fun rec => length header < length rec)%nat first)
      then Raise ParserError
      else
        n <- validate_integer nrows;;;
        recs <- Tokenizer.tokenize (line_limit n) data;;;
        Ok (header, take_rows n (tail recs))
  end.

(** *** The names of the columns

    The names of the columns are the fields of the header, made distinct:
    an empty field in position [i] is named [Unnamed: i], and a name that
    has been given already is renamed [name.1], [name.2], ... *)

Definition unnamed (i : nat) : string := "Unnamed: " +:+ pretty i.

Definition name_columns (header : list string) : list string :=
  imap (fun i name => if String.eqb name "" then unnamed i else name) header.

(** The columns that have a name are renamed before those that have
    none. *)
Definition col_loop_order (header : list string) : list nat :=
  let unnamed_col_indices :=
    filter (fun i => header !! i = Some EmptyString) (seq 0 (length header)) in
  filter (fun i => i ∉ unnamed_col_indices) (seq 0 (length header)) ++ unnamed_col_indices.

(** The loop that looks for a name that is free, [old_col.cur_count] with
    the first count for which that name is not in the header; [counts]
    holds, for the names given so far, the next count to try.  The loop
    ends within two rounds more than the header has fields
    ([next_name_ends] below), which is the [fuel] that it is given. *)
Fixpoint next_name (fuel : nat) (this_header : list string) (counts : gmap string nat)
  (old_col col : string) (cur_count : nat) : string * nat * gmap string nat :=
  match fuel with
  | O => (col, cur_count, counts)
  | S fuel' =>
      if (0 <? cur_count)%nat then
        let counts' := <[old_col := S cur_count]> counts in
        let col' := old_col +:+ "." +:+ pretty cur_count in
        if bool_decide (col' ∈ this_header)
        then next_name fuel' this_header counts' old_col col' (S cur_count)
        else next_name fuel' this_header counts' old_col col'
                       (default 0%nat (counts' !! col'))
      else (col, cur_count, counts)
  end.

(** One round of the renaming, for the column in position [i]: the
    header, the counts, and the columns renamed so far with the names
    they had. *)
Definition rename_column
  (st : list string * gmap string nat * list (string * string)) (i : nat)
  : list string * gmap string nat * list (string * string) :=
  let '(this_header, counts, renamed) := st in
  match this_header !! i with
  | None => st
  | Some old_col =>
      let cur_count := default 0%nat (counts !! old_col) in
      let '(col, cur_count', counts') :=
        next_name (S (S (length this_header))) this_header counts old_col old_col cur_count in
      (<[i := col]> this_header, <[col := S cur_count']> counts',
       if (0 <? cur_count)%nat then renamed ++ [(old_col, col)] else renamed)
  end.

Definition get_header (header : list string) : list string * list (string * string) :=
  let '(this_header, _, renamed) :=
    foldl rename_column (name_columns header, ∅, []) (col_loop_order header) in
  (this_header, renamed).

Definition column_names (header : list string) : list string := (get_header header).1.

(** A dtype requested for a name holds for the columns renamed from that
    name too, unless one is requested for the new name. *)
Definition update_dtype (dtype : gmap string Dtype) (r : string * string)
  : gmap string Dtype :=
  match dtype !! r.1, dtype !! r.2 with
  | Some dt, None => <[r.2 := dt]> dtype
  | _, _ => dtype
  end.

Definition column_dtypes (header : list string) (dtype : option (gmap string Dtype))
  : option (gmap string Dtype) :=
  (fun d => foldl update_dtype d (get_header header).2) <$> dtype.

(** [pd.read_csv(path, nrows=nrows, dtype=dtype)] *)
Definition read_csv (fs : FileSystem) (path : string) (nrows : option Z)
  (dtype : option (gmap string Dtype)) : result DataFrame :=
  parsed <- read_records fs path nrows;;;
  let '(header, recs) := parsed in
  Ok (mkDataFrame (RangeIndex (length recs))
        (make_columns (column_dtypes header dtype) (column_names header) recs)).

(** *** [to_datetime] *)

Definition SECOND_NS : Z := 1000000000.

(** The range of a time in nanoseconds. *)
Definition Timestamp_min : Z := INT64_MIN + 1.
Definition Timestamp_max : Z := INT64_MAX.

(** Seconds since the epoch, as a 64-bit integer, to nanoseconds.  The
    missing-time marker stays the missing-time marker. *)
Definition int64_epoch_to_ns (s : Z) : result Z :=
  if s =? NPY_NAT then Ok NPY_NAT
  else
    let ns := s * SECOND_NS in
    if (ns <? Timestamp_min) || (Timestamp_max <? ns) then Raise OutOfBoundsDatetime
    else Ok ns.

Definition float64_epoch_to_ns (f : float) : result Z :=
  if is_nan f then Ok NPY_NAT else float_epoch_to_ns f.

(** Seconds since the epoch held in an arbitrary cell.  A cell of text is
    the missing time if it is empty or one of the missing-time markers;
    else it is read with Python's [float]. *)
Definition object_epoch_to_ns (v : Value) : result Z :=
  match v with
  | VNaN | VNaT => Ok NPY_NAT
  | VInt z => int64_epoch_to_ns z
  | VFloat f => float64_epoch_to_ns f
  | VStr s =>
      if bool_decide (s = EmptyString ∨ s ∈ nat_strings) then Ok NPY_NAT
      else match python_float s with
           | Some f => float_epoch_to_ns f
           | None => Raise ValueError
           end
  | VBool _ | VTimestamp _ => Raise ValueError
  end.

(** [pd.to_datetime(s, unit="s")] for a series [s]. *)
Definition to_datetime (s : Series) : result Series :=
  l <- match s_values s with
       | Int64 l => traverse int64_epoch_to_ns l
       | UInt64 l => traverse uint64_epoch_to_ns l
       | Float64 l => traverse float64_epoch_to_ns l
       | Datetime64 l => Ok l
       | (Bool _ | Object _) as c => traverse object_epoch_to_ns (values c)
       | Category _ _ as c =>
           if unit_converts_categorical then traverse object_epoch_to_ns (values c)
           else Raise TypeError
       end;;;
  Ok (mkSeries (s_index s) (Datetime64 l)).

(** ** [load_data] *)

(** Truth value of an optional string: [None] and the empty string are
    false. *)
Definition truthy (s : option string) : bool :=
  match s with
  | None => false
  | Some s => negb (String.eqb s EmptyString)
  end.

Definition load_data (fs : FileSystem) (path : string) (nrows : option Z)
  (date_col : option string) (dtypes : option (gmap string Dtype)) : result DataFrame :=
  data <- read_csv fs path nrows dtypes;;;
  match date_col with
  | Some col =>
      if truthy date_col then
        s <- getitem data col;;;
        dt <- to_datetime s;;;
        Ok (setitem data col dt)
      else Ok data
  | None => Ok data
  end.


(** ** The library calls of the queries *)

(** *** [duplicated] *)

Fixpoint table_get (v : Value) (table : list (Value * nat)) : option nat :=
  match table with
  | [] => None
  | (k, i) :: table' => if value_eqb v k then Some i else table_get v table'
  end.

(** One pass over the cells with a table from each cell seen to the row
    it was first seen in: a cell seen again marks that row and its own. *)
Fixpoint duplicated_loop (table : list (Value * nat)) (out : list bool) (i : nat)
  (vals : list Value) : list bool :=
  match vals with
  | [] => out
  | v :: vals' =>
      match table_get v table with
      | Some j => duplicated_loop table (<[i:=true]> (<[j:=true]> out)) (S i) vals'
      | None => duplicated_loop ((v, i) :: table) out (S i) vals'
      end
  end.

(** [s.duplicated(keep=False)] *)
Definition duplicated (s : Series) : list bool :=
  let vals := values (s_values s) in
  duplicated_loop [] (replicate (length vals) false) 0 vals.

(** *** [groupby(...).size()] and [sort_values] *)

Definition kind_rank (v : Value) : Z :=
  match v with
  | VBool _ => 0
  | VInt _ => 1
  | VFloat _ => 2
  | VTimestamp _ => 3
  | VStr _ => 4
  | VNaN => 5
  | VNaT => 6
  end.

(** The order in which cells are sorted: numbers by value, text by
    bytes; cells of different kinds by kind. *)
Definition value_leb (a b : Value) : bool :=
  match a, b with
  | VInt x, VInt y => x <=? y
  | VFloat x, VFloat y => PrimFloat.leb x y
  | VBool x, VBool y => implb x y
  | VStr x, VStr y => String.leb x y
  | VTimestamp x, VTimestamp y => x <=? y
  | _, _ => kind_rank a <=? kind_rank b
  end.

Definition count_value (v : Value) (l : list Value) : nat :=
  length (filter (fun w => value_eqb v w) l).

(** The group keys of a column: its labels if it is categorical, else its
    distinct cells that are not missing, sorted. *)
Definition group_keys (c : Column) : list Value :=
  match c with
  | Category cats _ => VStr <$> cats
  | _ => isort value_leb (unique value_eqb (filter (fun v => negb (isna v)) (values c)))
  end.

(** [df.groupby([key]).size()]: one row per group key, labelled with the
    key, holding the number of rows with that key. *)
Definition groupby_size (df : DataFrame) (key : string) : result Series :=
  s <- getitem df key;;;
  let keys := group_keys (s_values s) in
  Ok (mkSeries keys
        (Int64 ((fun k => Z.of_nat (count_value k (values (s_values s)))) <$> keys))).

(** The positions of the cells in descending order, missing cells last;
    cells that compare equal keep their order, as they do in the
    library's sort of a short column.  (For a column of more than 16
    cells the library's default sort may place equal cells in another
    order; the properties below are about the order of cells that
    differ.) *)
Definition argsort_descending (vals : list Value) : list nat :=
  let cells := imap (fun i v => (i, v)) vals in
  let present := filter (fun iv => negb (isna iv.2)) cells in
  let missing := filter (fun iv => isna iv.2) cells in
  fst <$> (isort (fun x y => value_leb y.2 x.2) present ++ missing).

(** The elements of [l] at the positions [idx], in that order. *)
Definition take_at {A} (idx : list nat) (l : list A) : list A :=
  omap (fun i => l !! i) idx.

Definition take_column (idx : list nat) (c : Column) : Column :=
  match c with
  | Int64 l => Int64 (take_at idx l)
  | UInt64 l => UInt64 (take_at idx l)
  | Float64 l => Float64 (take_at idx l)
  | Bool l => Bool (take_at idx l)
  | Object l => Object (take_at idx l)
  | Category cats codes => Category cats (take_at idx codes)
  | Datetime64 l => Datetime64 (take_at idx l)
  end.

(** [s.sort_values(ascending=False)] *)
Definition sort_values_descending (s : Series) : Series :=
  let idx := argsort_descending (values (s_values s)) in
  mkSeries (take_at idx (s_index s)) (take_column idx (s_values s)).

(** [s.to_frame(name=name)] *)
Definition to_frame (s : Series) (name : string) : DataFrame :=
  mkDataFrame (s_index s) [(name, s_values s)].

(** *** Arithmetic on series *)

(** [s.sum()] of a numeric series; 64-bit integers wrap around. *)
Definition sum (s : Series) : result Value :=
  match s_values s with
  | Int64 l => Ok (VInt (wrap_int64 (foldl Z.add 0 l)))
  | Float64 l => Ok (VFloat (foldl PrimFloat.add 0%float (filter (fun f => negb (is_nan f)) l)))
  | _ => Raise TypeError
  end.

Definition floats_of_column (c : Column) : result (list float) :=
  match c with
  | Int64 l => Ok (float_of_Z <$> l)
  | Float64 l => Ok l
  | _ => Raise TypeError
  end.

Definition float_of_scalar (v : Value) : result float :=
  match v with
  | VInt z => Ok (float_of_Z z)
  | VFloat f => Ok f
  | _ => Raise TypeError
  end.

(** [s / v]: true division, in binary64 also for integers. *)
Definition truediv (s : Series) (v : Value) : result Series :=
  l <- floats_of_column (s_values s);;;
  d <- float_of_scalar v;;;
  Ok (mkSeries (s_index s) (Float64 ((fun x => PrimFloat.div x d) <$> l))).

(** [s * v] for a binary64 series [s]. *)
Definition mul (s : Series) (v : Value) : result Series :=
  match s_values s with
  | Float64 l =>
      m <- float_of_scalar v;;;
      Ok (mkSeries (s_index s) (Float64 ((fun x => PrimFloat.mul x m) <$> l)))
  | _ => Raise TypeError
  end.

(** *** The fields of a time

    A time is a number of nanoseconds since the epoch.  Its calendar
    fields are read off the way the library's C routines do: the days
    since the epoch are split into a year and a day of the year by cycles
    of 400, 100 and 4 years counted from the year 2000, the day of the
    year into a month and a day with the table of the lengths of the
    months, and the day of the week is computed from year, month and
    day.  Divisions are those of C, which round towards zero. *)

Definition NS_PER_HOUR : Z := 3600 * SECOND_NS.
Definition NS_PER_DAY : Z := 24 * NS_PER_HOUR.

(** The year, and the day of the year counted from 0, of a number of
    days since the epoch. *)
Definition days_to_yearsdays (days_ : Z) : Z * Z :=
  let days_per_400years := 400 * 365 + 100 - 4 + 1 in
  let days := days_ - (365 * 30 + 7) in
  let '(year, days) :=
    if 0 <=? days then
      (400 * (days ÷ days_per_400years), Z.rem days days_per_400years)
    else
      let year := 400 * ((days - (days_per_400years - 1)) ÷ days_per_400years) in
      let days := Z.rem days days_per_400years in
      (year, if days <? 0 then days + days_per_400years else days) in
  let '(year, days) :=
    if 366 <=? days then
      let year := year + 100 * ((days - 1) ÷ (100 * 365 + 25 - 1)) in
      let days := Z.rem (days - 1) (100 * 365 + 25 - 1) in
      if 365 <=? days then
        let year := year + 4 * ((days + 1) ÷ (4 * 365 + 1)) in
        let days := Z.rem (days + 1) (4 * 365 + 1) in
        if 366 <=? days then (year + (days - 1) ÷ 365, Z.rem (days - 1) 365)
        else (year, days)
      else (year, days)
    else (year, days) in
  (year + 2000, days).

Definition is_leapyear (year : Z) : bool :=
  (Z.land year 3 =? 0) && (negb (Z.rem year 100 =? 0) || (Z.rem year 400 =? 0)).

Definition days_per_month_table (leap : bool) : list Z :=
  if leap then [31; 29; 31; 30; 31; 30; 31; 31; 30; 31; 30; 31]
  else [31; 28; 31; 30; 31; 30; 31; 31; 30; 31; 30; 31].

(** The loop over the lengths of the months: month [i + 1] is the first
    one that the day of the year falls into.  The loop always ends within
    the table (see [date_field_range] for the months it yields); what
    stands after it is never returned. *)
Fixpoint month_loop (month_lengths : list Z) (i : Z) (days : Z) : Z * Z :=
  match month_lengths with
  | [] => (0, 0)
  | len :: rest =>
      if days <? len then (i + 1, days + 1) else month_loop rest (i + 1) (days - len)
  end.

(** Year, month and day of a number of days since the epoch. *)
Definition set_datetimestruct_days (days : Z) : Z * Z * Z :=
  let '(year, yearday) := days_to_yearsdays days in
  let '(month, day) := month_loop (days_per_month_table (is_leapyear year)) 0 yearday in
  (year, month, day).

Definition sakamoto_arr : list Z := [0; 3; 2; 5; 0; 3; 5; 1; 4; 6; 2; 4].

(** The day of the week of a date, Monday being 0. *)
Definition dayofweek (y m d : Z) : Z :=
  let y := if m <? 3 then y - 1 else y in
  let day := Z.rem (y + y ÷ 4 - y ÷ 100 + y ÷ 400
                    + default 0 (sakamoto_arr !! Z.to_nat (m - 1)) + d) 7 in
  Z.rem (day + 6) 7.

(** The fields that the script asks for. *)
Inductive DateField : Set :=
| Month
| Hour
| Weekday.

Definition get_date_field (field : DateField) (ns : Z) : Z :=
  let '(year, month, day) := set_datetimestruct_days (ns / NS_PER_DAY) in
  match field with
  | Month => month
  | Hour => (ns mod NS_PER_DAY) / NS_PER_HOUR
  | Weekday => dayofweek year month day
  end.

(** [s.dt.month], [s.dt.hour] and [s.dt.weekday] for a column [s] of
    times, the only columns that have the accessor [dt] (the script
    applies it to [timestamp], which [load_data] has converted): 64-bit
    integers, or, if a time is missing, binary64 numbers with NaN for the
    missing times. *)
Definition dt_field (field : DateField) (times : list Z) : list Z + list float :=
  if bool_decide (NPY_NAT ∈ times)
  then inr ((fun ns => if ns =? NPY_NAT then nan else float_of_Z (get_date_field field ns))
              <$> times)
  else inl (get_date_field field <$> times).

(** *** [np.histogram]

    The histogram of a column of numbers over a given number of bins of
    equal width between the least and the greatest of the numbers.  The
    edges of the bins are binary64 numbers, and so is the arithmetic that
    finds the bin of a number. *)

Definition is_finite (f : float) : bool :=
  match Prim2SF f with
  | S754_zero _ | S754_finite _ _ _ => true
  | _ => false
  end.

(** Conversion of a binary64 number to a 64-bit integer: the fraction is
    dropped; a number that has no 64-bit integer gives the smallest
    one. *)
Definition float_to_int64 (f : float) : Z :=
  match Prim2SF f with
  | S754_zero _ => 0
  | S754_finite s m e =>
      let a := if 0 <=? e then Z.shiftl (Z.pos m) e else Z.shiftr (Z.pos m) (- e) in
      let z := if s then - a else a in
      if in_int64 z then z else INT64_MIN
  | _ => INT64_MIN
  end.

(** [np.linspace(start, stop, num)] *)
Definition linspace (start stop : float) (num : nat) : list float :=
  let div := (num - 1)%nat in
  let delta := (stop - start)%float in
  let y := (fun i => float_of_Z (Z.of_nat i)) <$> seq 0 num in
  let y :=
    if (0 <? div)%nat then
      let step := (delta / float_of_Z (Z.of_nat div))%float in
      if (step =? 0)%float
      then (fun v => v / float_of_Z (Z.of_nat div) * delta)%float <$> y
      else (fun v => v * step)%float <$> y
    else (fun v => v * delta)%float <$> y in
  let y := (fun v => v + start)%float <$> y in
  if (1 <? num)%nat then <[(num - 1)%nat := stop]> y else y.

(** The bin of [x] among [n_equal_bins] bins of equal width: an estimate
    from the distance to the first edge, moved by one bin where the
    estimate lies on the wrong side of an edge.  The last bin includes
    its right edge. *)
Definition bin_index (bin_edges : list float) (first_edge norm : float)
  (n_equal_bins : Z) (x : float) : Z :=
  let edge (i : Z) : float := default nan (bin_edges !! Z.to_nat i) in
  let f_index := ((x - first_edge) * norm)%float in
  let i := float_to_int64 f_index in
  let i := if i =? n_equal_bins then i - 1 else i in
  let i := if (x <? edge i)%float then i - 1 else i in
  let i := if (edge (i + 1)%Z <=? x)%float && negb (i =? n_equal_bins - 1)
           then i + 1 else i in
  i.

(** [np.bincount(indices, minlength=n)] added to [n] zeros: the number of
    occurrences of each of [0, ..., n-1]; an index outside of them is an
    error. *)
Definition bincount (indices : list Z) (n : nat) : result (list Z) :=
  if forallb (fun i => (0 <=? i) && (i <? Z.of_nat n)) indices
  then Ok ((fun b => Z.of_nat (length (filter (fun i => i = Z.of_nat b) indices)))
             <$> seq 0 n)
  else Raise ValueError.

(** The outer edges and the scaling factor for integers of which [first]
    is the least and [last] the greatest: a single value gets a range of
    width one around it. *)
Definition uniform_bins_int (first last : Z) (bins : nat) : float * float * float :=
  if first =? last then
    let first_edge := (float_of_Z first - 0.5)%float in
    let last_edge := (float_of_Z last + 0.5)%float in
    (first_edge, last_edge, (float_of_Z (Z.of_nat bins) / (last_edge - first_edge))%float)
  else
    (float_of_Z first, float_of_Z last,
     (float_of_Z (Z.of_nat bins) / float_of_Z (last - first))%float).

Definition uniform_bins_float (first last : float) (bins : nat) : float * float * float :=
  let '(first_edge, last_edge) :=
    if (first =? last)%float then ((first - 0.5)%float, (last + 0.5)%float)
    else (first, last) in
  (first_edge, last_edge, (float_of_Z (Z.of_nat bins) / (last_edge - first_edge))%float).

(** [np.histogram(a, bins=bins)[0]] for 64-bit integers.  Without numbers
    the range is from 0 to 1.  Every number lies between the least and
    the greatest, so that none is left out of the count; the library goes
    through the numbers in blocks and adds up the counts of the blocks,
    which gives the counts of all numbers. *)
Definition histogram_int (a : list Z) (bins : nat) : result (list Z) :=
  let '(first, last) :=
    match a with
    | [] => (0, 1)
    | x :: a' => (foldl Z.min x a', foldl Z.max x a')
    end in
  let '(first_edge, last_edge, norm) := uniform_bins_int first last bins in
  let bin_edges := linspace first_edge last_edge (S bins) in
  bincount (bin_index bin_edges first_edge norm (Z.of_nat bins) <$> (float_of_Z <$> a)) bins.

(** [np.histogram(a, bins=bins)[0]] for binary64 numbers: the range has
    to be finite, which it is not as soon as one of the numbers is NaN or
    infinite. *)
Definition histogram_float (a : list float) (bins : nat) : result (list Z) :=
  if forallb is_finite a then
    let '(first, last) :=
      match a with
      | [] => (0%float, 1%float)
      | x :: a' =>
          (foldl (fun m y => if (y <? m)%float then y else m) x a',
           foldl (fun m y => if (m <? y)%float then y else m) x a')
      end in
    let '(first_edge, last_edge, norm) := uniform_bins_float first last bins in
    let bin_edges := linspace first_edge last_edge (S bins) in
    let keep := filter (fun x => (first_edge <=? x)%float && (x <=? last_edge)%float) a in
    bincount (bin_index bin_edges first_edge norm (Z.of_nat bins) <$> keep) bins
  else Raise ValueError.

Definition histogram (a : list Z + list float) (bins : nat) : result (list Z) :=
  match a with
  | inl a => histogram_int a bins
  | inr a => histogram_float a bins
  end.

(** *** [isin] *)

(** [s.isin(values)]: for each cell, whether it is one of [vals]. *)
Definition isin (s : Series) (vals : list Value) : list bool :=
  (fun v => existsb (value_eqb v) vals) <$> values (s_values s).

(** ** The queries of the script *)

(** The table shown under "Duplicates". *)
Definition duplicates (articles_df : DataFrame) : result DataFrame :=
  shown <- getitem_list articles_df
             [ "timestamp"; "eventType"; "contentId"; "contentType";
               "authorPersonId"; "url"; "title" ]%string;;;
  title <- getitem articles_df "title";;;
  Ok (getitem_mask shown (duplicated title)).

(** The table shown under "Most Common Authors". *)
Definition author_freq (articles_df : DataFrame) : result DataFrame :=
  sizes <- groupby_size articles_df "authorPersonId";;;
  let author_freq := sort_values_descending sizes in
  let author_freq := to_frame author_freq "num_articles" in
  num_articles <- getitem author_freq "num_articles";;;
  total <- sum num_articles;;;
  quotient <- truediv num_articles total;;;
  percent <- mul quotient (VInt 100);;;
  Ok (setitem author_freq "percent" percent).

(** The table shown under "Text Columns". *)
Definition text_columns (articles_df : DataFrame) : result DataFrame :=
  getitem_list articles_df [ "authorCountry"; "lang"; "url"; "title"; "text" ]%string.

(** The table shown beside the author frequencies: the articles of the
    first two authors of [author_freq]. *)
Definition top_authors (articles_df author_freq : DataFrame) : result DataFrame :=
  authors <- getitem articles_df "authorPersonId";;;
  Ok (getitem_mask articles_df (isin authors (take 2 (index author_freq)))).

(** The number of bins the script asks for, for each field. *)
Definition bins_of (field : DateField) : nat :=
  match field with
  | Month => 12
  | Hour => 24
  | Weekday => 7
  end.

(** One entry of [date_select_map]: the histogram of a field of the
    times of [timestamp]. *)
Definition date_hist (field : DateField) (times : list Z) : result (list Z) :=
  histogram (dt_field field times) (bins_of field).

(** The table of the charts under "Datetime Frequency", from the times of
    [timestamp]; the three histograms are computed before one is
    chosen. *)
Definition date_select_map (times : list Z) : result (list (string * list Z)) :=
  month <- date_hist Month times;;;
  hour <- date_hist Hour times;;;
  weekday <- date_hist Weekday times;;;
  Ok [ ("Month", month); ("Hour", hour); ("Day of Week", weekday) ]%string.

(** ** Notions used to state the properties *)

(** A time is valid when it is not the missing time and lies in the range
    of a time in nanoseconds. *)
Definition valid_datetime (v : Value) : Prop :=
  match v with
  | VTimestamp ns => Timestamp_min <= ns <= Timestamp_max
  | _ => False
  end.

(** Seconds since the epoch of a time (rounded down). *)
Definition epoch_seconds (v : Value) : option Z :=
  match v with
  | VTimestamp ns => Some (ns / SECOND_NS)
  | _ => None
  end.

(** The times of a column are valid and give back the seconds they were
    made from. *)
Definition round_trips (secs : list Z) (c : Column) : Prop :=
  Forall2 (fun s v => valid_datetime v /\ epoch_seconds v = Some s) secs (values c).

(** The range of seconds since the epoch that a time in nanoseconds can
    hold. *)
Definition in_datetime_range (s : Z) : Prop := -9223372036 <= s <= 9223372036.





(** A text file from its lines, each ended by a line feed. *)
Definition unlines (l : list string) : string :=
  foldr (fun line rest => line +:+ String Tokenizer.LF rest) EmptyString l.

(** The position in [mask] of its true entry number [i]. *)
Fixpoint nth_true (mask : list bool) (i : nat) : nat :=
  match mask with
  | [] => 0
  | true :: mask' => match i with 0 => 0 | S i' => S (nth_true mask' i') end
  | false :: mask' => S (nth_true mask' i)
  end%nat.

(** Binary64 numbers up to the sign of zero. *)
Definition SFcanon (x : spec_float) : spec_float :=
  match x with
  | S754_zero _ => S754_zero false
  | _ => x
  end.

(** The labels of a categorical column are distinct. *)
Definition valid_column (c : Column) : Prop :=
  match c with
  | Category cats _ => NoDup cats
  | _ => True
  end.

(** [keys] are group keys for the cells [vals]: no key is missing, no two
    keys are equal, and every cell that is not missing has its key. *)
Definition keys_of (keys vals : list Value) : Prop :=
  (forall k, k ∈ keys -> isna k = false) /\
  (forall k, k ∈ keys -> length (filter (fun k' => value_eqb k' k) keys) = 1%nat) /\
  (forall v, v ∈ vals -> isna v = false -> exists k, k ∈ keys /\ value_eqb k v = true).

(** A share of a total in percent, in exact arithmetic. *)
Definition exact_percent (n total : Z) : Q := (n # Z.to_pos total) * 100.

(** *** Well-formed delimited files

    A well-formed file is what a writer of delimited text produces from a
    rectangular table: the fields of a record separated by the delimiter,
    the records ended by the line end of the writer (a line feed, a
    carriage return followed by a line feed, or a carriage return; the
    last record possibly not ended), a field written as it stands or
    between quotes with its quotes doubled. *)

Inductive LineEnd : Set :=
| LineFeed
| CarriageReturnLineFeed
| CarriageReturn.

Definition line_end (eol : LineEnd) : list ascii :=
  match eol with
  | LineFeed => [Tokenizer.LF]
  | CarriageReturnLineFeed => [Tokenizer.CR; Tokenizer.LF]
  | CarriageReturn => [Tokenizer.CR]
  end.

Definition special (c : ascii) : bool :=
  Ascii.eqb c Tokenizer.LF || Ascii.eqb c Tokenizer.CR
  || Ascii.eqb c Tokenizer.quotechar || Ascii.eqb c Tokenizer.delimiter.

(** Text that can be written without quotes. *)
Definition plain (s : string) : bool :=
  forallb (fun c => negb (special c)) (list_ascii_of_string s).

Definition blank (s : string) : bool :=
  forallb Tokenizer.is_whitespace (list_ascii_of_string s).

Fixpoint escape (cs : list ascii) : list ascii :=
  match cs with
  | [] => []
  | c :: cs' =>
      if Ascii.eqb c Tokenizer.quotechar
      then Tokenizer.quotechar :: Tokenizer.quotechar :: escape cs'
      else c :: escape cs'
  end.

(** A field to write: whether it goes between quotes, and its text. *)
Definition write_field (f : bool * string) : list ascii :=
  if f.1 then Tokenizer.quotechar :: escape (list_ascii_of_string f.2) ++ [Tokenizer.quotechar]
  else list_ascii_of_string f.2.

Fixpoint write_record (rec : list (bool * string)) : list ascii :=
  match rec with
  | [] => []
  | f :: rec' =>
      match rec' with
      | [] => write_field f
      | _ => write_field f ++ Tokenizer.delimiter :: write_record rec'
      end
  end.

Fixpoint write_records (eol : LineEnd) (recs : list (list (bool * string)))
  (final_newline : bool) : list ascii :=
  match recs with
  | [] => []
  | rec :: recs' =>
      match recs' with
      | [] => write_record rec ++ (if final_newline then line_end eol else [])
      | _ => write_record rec ++ line_end eol ++ write_records eol recs' final_newline
      end
  end.

Definition write_csv (eol : LineEnd) (recs : list (list (bool * string)))
  (final_newline : bool) : string :=
  string_of_list_ascii (write_records eol recs final_newline).

(** A record of [width] fields whose unquoted fields are plain and whose
    line is not blank. *)
Definition well_formed_record (width : nat) (rec : list (bool * string)) : Prop :=
  length rec = width /\
  Forall (fun f => f.1 = false -> plain f.2 = true) rec /\
  (forall s, rec = [(false, s)] -> blank s = false).

(** A header and data rows of the same, positive, width. *)
Definition well_formed (header : list (bool * string)) (rows : list (list (bool * string)))
  : Prop :=
  (0 < length header)%nat /\
  Forall (well_formed_record (length header)) (header :: rows).

(** [feeds limit p buf p']: reading [buf] takes the tokenizer from [p] to
    [p'], whatever follows. *)
Definition feeds (limit : option nat) (p : Tokenizer.parser_t) (buf : list ascii)
  (p' : Tokenizer.parser_t) : Prop :=
  forall rest,
    Tokenizer.tokenize_helper limit p (buf ++ rest) = Tokenizer.tokenize_helper limit p' rest.

(** The state of the tokenizer after blanks at the start of a line and
    the plain text [cs]. *)
Fixpoint after_blanks (cs : list ascii) : Tokenizer.ParserState :=
  match cs with
  | [] => Tokenizer.WHITESPACE_LINE
  | c :: cs' => if Tokenizer.is_whitespace c then after_blanks cs' else Tokenizer.IN_FIELD
  end.

(** The states in which the first field of a line can be left. *)
Definition holding (s : Tokenizer.ParserState) : Prop :=
  s = Tokenizer.START_RECORD \/ s = Tokenizer.WHITESPACE_LINE \/
  s = Tokenizer.START_FIELD \/ s = Tokenizer.IN_FIELD \/
  s = Tokenizer.QUOTE_IN_QUOTED_FIELD.

(** The states in which a field can end. *)
Definition endable (s : Tokenizer.ParserState) : Prop :=
  s = Tokenizer.START_FIELD \/ s = Tokenizer.IN_FIELD \/ s = Tokenizer.QUOTE_IN_QUOTED_FIELD.

(** The number of records read from a file of [total] records when
    [have] records have been read before. *)
Definition read_count (limit : option nat) (have total : nat) : nat :=
  match limit with
  | None => total
  | Some n => Nat.min (n - have) total
  end.

(** The texts of the fields of written records. *)
Definition texts (recs : list (list (bool * string))) : list (list string) :=
  (fun rec : list (bool * string) => rec.*2) <$> recs.

(** The least and the greatest value of a field. *)
Definition field_min (field : DateField) : Z :=
  match field with
  | Month => 1
  | Hour | Weekday => 0
  end.

Definition field_max (field : DateField) : Z :=
  match field with
  | Month => 12
  | Hour => 23
  | Weekday => 6
  end.

(** A time that is not the missing time. *)
Definition in_timestamp_range (ns : Z) : Prop := Timestamp_min <= ns <= Timestamp_max.

(** The bin that [histogram_int] counts [x] in when [first] is the least
    and [last] the greatest of the numbers. *)
Definition bin_of_int (bins : nat) (first last x : Z) : Z :=
  let '(first_edge, last_edge, norm) := uniform_bins_int first last bins in
  bin_index (linspace first_edge last_edge (S bins)) first_edge norm (Z.of_nat bins)
            (float_of_Z x).

(** [P] holds on the [2 ^ depth] integers from [lo] on. *)
Fixpoint check_range (P : Z -> bool) (depth : nat) (lo : Z) : bool :=
  match depth with
  | O => P lo
  | S d => check_range P d lo && check_range P d (lo + 2 ^ Z.of_nat d)
  end.

(** [P] holds for all [first <= x <= last] between [lo] and [hi]. *)
Definition check_triples (P : Z -> Z -> Z -> bool) (lo hi : Z) : bool :=
  forallb (fun first =>
     forallb (fun last =>
        forallb (fun x => P first last x) (seqZ first (last - first + 1)))
       (seqZ first (hi - first + 1)))
    (seqZ lo (hi - lo + 1)).

(** Every label of a categorical column is the label of some row. *)
Definition observed (c : Column) : Prop :=
  match c with
  | Category cats _ => forall s, s ∈ cats -> VStr s ∈ values c
  | _ => True
  end.

(** Every column of the table has one cell per row label. *)
Definition rectangular (df : DataFrame) : Prop :=
  Forall (fun kc => column_length kc.2 = length (index df)) (columns df).

(** ** Examples *)

(** A small file of the shape of [data/shared_articles.csv]: six events,
    three of them shared by one author, two by a second, one by a third. *)
Definition example_header : list (bool * string) :=
  [ (false, "timestamp"); (false, "eventType"); (false, "contentId");
    (false, "authorPersonId"); (false, "contentType"); (false, "url");
    (false, "title"); (false, "lang") ]%string.

Definition example_rows : list (list (bool * string)) :=
  [ [ (false, "1459193988"); (false, "CONTENT SHARED"); (false, "-4110354420726924665");
      (false, "4340306774493623681"); (false, "HTML"); (false, "http://example.org/a");
      (false, "Ethereum"); (false, "en") ];
    [ (false, "1459194146"); (false, "CONTENT SHARED"); (false, "-7292285110016212249");
      (false, "4340306774493623681"); (false, "HTML"); (false, "http://example.org/b");
      (false, "Bitcoin"); (false, "en") ];
    [ (false, "1459194474"); (false, "CONTENT SHARED"); (false, "-6151852268067518688");
      (false, "4340306774493623681"); (false, "HTML"); (false, "http://example.org/c");
      (false, "Ethereum"); (false, "pt") ];
    [ (false, "1459194497"); (false, "CONTENT SHARED"); (false, "2448026894306402386");
      (false, "3609194402293569455"); (false, "HTML"); (false, "http://example.org/d");
      (false, "Google"); (false, "en") ];
    [ (false, "1459194522"); (false, "CONTENT REMOVED"); (false, "-2826566343807132236");
      (false, "3609194402293569455"); (false, "HTML"); (false, "http://example.org/e");
      (false, "IBM"); (false, "pt") ];
    [ (false, "1459194557"); (false, "CONTENT SHARED"); (false, "-2148899391355011268");
      (false, "-1443636648652872475"); (false, "VIDEO"); (false, "http://example.org/f");
      (true, "Hello, world"); (false, "en") ] ]%string.

Definition example_path : string := "data/shared_articles.csv".

(** The working directory of the script, with the file under [data]. *)
Definition example_fs : FileSystem :=
  mkFileSystem
    (Directory
       [ ("home",
          Directory
            [ ("deskdrop",
               Directory
                 [ ("data",
                    Directory
                      [ ("shared_articles.csv",
                         RegularFile (write_csv LineFeed (example_header :: example_rows) true)) ]);
                   ("README.md", RegularFile "Deskdrop") ]) ]) ]%string)
    ["home"; "deskdrop"]%string 255 4096.

(** A working directory that holds the one file [events.csv]. *)
Definition events_fs (data : string) : FileSystem :=
  mkFileSystem (Directory [("events.csv"%string, RegularFile data)]) [] 255 4096.

(** [ARTICLES_DTYPES] *)
Definition ARTICLES_DTYPES : gmap string Dtype :=
  {[ "contentType" := DtCategory; "lang" := DtCategory ]}%string.

(** A runtime whose floating-point routines accept nothing, for the
    examples, none of which has a column of that kind. *)
Definition strtod_none : string -> option float := fun _ => None.
Definition python_float_none : string -> option float := fun _ => None.
Definition float_epoch_none : float -> result Z := fun _ => Raise OutOfBoundsDatetime.
Definition uint64_epoch_none : Z -> result Z := fun _ => Raise OutOfBoundsDatetime.

(** The example file as [load_data] returns it when called as in the
    script: [timestamp] converted, [contentType] and [lang] categorical. *)
Definition example_articles_df : DataFrame :=
  mkDataFrame
    [VInt 0; VInt 1; VInt 2; VInt 3; VInt 4; VInt 5]
    [ ("timestamp",
       Datetime64
         [ 1459193988000000000; 1459194146000000000; 1459194474000000000;
           1459194497000000000; 1459194522000000000; 1459194557000000000 ]);
      ("eventType",
       Object
         [ VStr "CONTENT SHARED"; VStr "CONTENT SHARED"; VStr "CONTENT SHARED";
           VStr "CONTENT SHARED"; VStr "CONTENT REMOVED"; VStr "CONTENT SHARED" ]);
      ("contentId",
       Int64
         [ -4110354420726924665; -7292285110016212249; -6151852268067518688;
           2448026894306402386; -2826566343807132236; -2148899391355011268 ]);
      ("authorPersonId",
       Int64
         [ 4340306774493623681; 4340306774493623681; 4340306774493623681;
           3609194402293569455; 3609194402293569455; -1443636648652872475 ]);
      ("contentType", Category ["HTML"; "VIDEO"] [0; 0; 0; 0; 0; 1]);
      ("url",
       Object
         [ VStr "http://example.org/a"; VStr "http://example.org/b";
           VStr "http://example.org/c"; VStr "http://example.org/d";
           VStr "http://example.org/e"; VStr "http://example.org/f" ]);
      ("title",
       Object
         [ VStr "Ethereum"; VStr "Bitcoin"; VStr "Ethereum"; VStr "Google";
           VStr "IBM"; VStr "Hello, world" ]);
      ("lang", Category ["en"; "pt"] [0; 0; 1; 0; 1; 0]) ]%string.

(** A file whose only timestamp is the smallest 64-bit integer. *)
Definition marker_fs : FileSystem :=
  events_fs (unlines ["timestamp"; "-9223372036854775808"])%string.

(** A file whose timestamps are all missing. *)
Definition undated_fs : FileSystem :=
  events_fs (unlines ["timestamp,lang"; ",en"; ",pt"])%string.

(** A file of three events by three authors. *)
Definition thirds_fs : FileSystem :=
  events_fs (unlines ["authorPersonId"; "1"; "2"; "3"])%string.

(** A file with one timestamp. *)
Definition single_fs : FileSystem :=
  events_fs (unlines ["timestamp"; "1459193988"])%string.

(** A file whose timestamp lies beyond the range of a time. *)
Definition far_fs : FileSystem :=
  events_fs (unlines ["timestamp"; "9223372037"])%string.


(** A file whose header repeats the name [lang]. *)
Definition repeated_fs : FileSystem :=
  events_fs (unlines ["lang,lang"; "en,7"; "pt,8"])%string.

(** A file of blank lines. *)
Definition blank_fs : FileSystem :=
  events_fs (unlines [""; "  "; ""])%string.

(** A file none of whose events has an author. *)
Definition anonymous_fs : FileSystem :=
  events_fs (unlines ["authorPersonId,title"; ",a"; ",b"])%string.

(** The duplicates of the example: the two events titled Ethereum. *)
Definition example_duplicates : DataFrame :=
  mkDataFrame
    [VInt 0; VInt 2]
    [ ("timestamp", Datetime64 [1459193988000000000; 1459194474000000000]);
      ("eventType", Object [VStr "CONTENT SHARED"; VStr "CONTENT SHARED"]);
      ("contentId", Int64 [-4110354420726924665; -6151852268067518688]);
      ("contentType", Category ["HTML"; "VIDEO"] [0; 0]);
      ("authorPersonId", Int64 [4340306774493623681; 4340306774493623681]);
      ("url", Object [VStr "http://example.org/a"; VStr "http://example.org/c"]);
      ("title", Object [VStr "Ethereum"; VStr "Ethereum"]) ]%string.

(** The author frequencies of the example. *)
Definition example_author_freq : DataFrame :=
  mkDataFrame
    [VInt 4340306774493623681; VInt 3609194402293569455; VInt (-1443636648652872475)]
    [ ("num_articles", Int64 [3; 2; 1]);
      ("percent",
       Float64 ((fun n => (float_of_Z n / float_of_Z 6 * 100)%float) <$> [3; 2; 1])) ]%string.

(** The times of the example, all of them on Monday 28 March 2016 between
    19 and 20 hours. *)
Definition example_times : list Z :=
  [ 1459193988000000000; 1459194146000000000; 1459194474000000000;
    1459194497000000000; 1459194522000000000; 1459194557000000000 ].

(** A Monday and the two Sundays after it. *)
Definition week_times : list Z :=
  [ 1459193988000000000; 1459193988000000000 + 6 * NS_PER_DAY;
    1459193988000000000 + 13 * NS_PER_DAY ].

(** The example as [load_data] returns it with a row limit of 4. *)
Definition example_head_df : DataFrame :=
  mkDataFrame
    [VInt 0; VInt 1; VInt 2; VInt 3]
    [ ("timestamp",
       Datetime64
         [ 1459193988000000000; 1459194146000000000; 1459194474000000000;
           1459194497000000000 ]);
      ("eventType",
       Object
         [ VStr "CONTENT SHARED"; VStr "CONTENT SHARED"; VStr "CONTENT SHARED";
           VStr "CONTENT SHARED" ]);
      ("contentId",
       Int64
         [ -4110354420726924665; -7292285110016212249; -6151852268067518688;
           2448026894306402386 ]);
      ("authorPersonId",
       Int64
         [ 4340306774493623681; 4340306774493623681; 4340306774493623681;
           3609194402293569455 ]);
      ("contentType", Category ["HTML"] [0; 0; 0; 0]);
      ("url",
       Object
         [ VStr "http://example.org/a"; VStr "http://example.org/b";
           VStr "http://example.org/c"; VStr "http://example.org/d" ]);
      ("title", Object [ VStr "Ethereum"; VStr "Bitcoin"; VStr "Ethereum"; VStr "Google" ]);
      ("lang", Category ["en"; "pt"] [0; 0; 1; 0]) ]%string.

(** * Properties *)

(** ** Results *)

Lemma bind_Ok {A B} (r : result A) (k : A -> result B) (b : B) :
  bind r k = Ok b <-> exists a, r = Ok a /\ k a = Ok b.
Proof.
  destruct r as [a|e]; simpl; split.
  - intros H. exists a. auto.
  - intros (a' & [= <-] & H). exact H.
  - discriminate.
  - intros (a' & [=] & _).
Qed.


Lemma traverse_Ok_length {A B} (f : A -> result B) (l : list A) (r : list B) :
  traverse f l = Ok r -> length r = length l.
Proof.
  revert r. induction l as [|a l IH]; intros r; simpl.
  - intros [= <-]. reflexivity.
  - intros H. apply bind_Ok in H as (b & _ & H).
    apply bind_Ok in H as (bs & Hbs & [= <-]). simpl. f_equal. auto.
Qed.

Lemma traverse_Ok_Forall2 {A B} (f : A -> result B) (l : list A) (r : list B) :
  traverse f l = Ok r <-> Forall2 (fun a b => f a = Ok b) l r.
Proof.
  revert r. induction l as [|a l IH]; intros r; simpl; split.
  - intros [= <-]. constructor.
  - intros H. inversion H. reflexivity.
  - intros H. apply bind_Ok in H as (b & Hb & H).
    apply bind_Ok in H as (bs & Hbs & [= <-]). constructor; [exact Hb|]. apply IH, Hbs.
  - intros H. inversion H as [|? b ? bs Hb Hbs]; subst. rewrite Hb. simpl.
    apply IH in Hbs. rewrite Hbs. reflexivity.
Qed.

Lemma traverse_Raise_elem {A B} (f : A -> result B) (l : list A) (x : A) :
  x ∈ l -> is_ok (f x) = false -> is_ok (traverse f l) = false.
Proof.
  induction l as [|a l IH]; intros Hx Hf.
  - inversion Hx.
  - simpl. apply elem_of_cons in Hx as [<-|Hx].
    + destruct (f x); [discriminate|reflexivity].
    + destruct (f a); [|reflexivity]. simpl.
      specialize (IH Hx Hf). destruct (traverse f l); [discriminate|reflexivity].
Qed.

Lemma not_ok_Raise {A} (r : result A) : is_ok r = false <-> exists e, r = Raise e.
Proof.
  destruct r; simpl; split; try discriminate; eauto.
  - intros [e' [=]].
Qed.

(** ** Tables *)

Lemma lookup_replace_column_ne name name' c cols :
  name <> name' ->
  lookup_column name (replace_column name' c cols) = lookup_column name cols.
Proof.
  intros Hne. induction cols as [|[k c'] cols IH]; simpl.
  - destruct (String.eqb_spec name name'); [contradiction|reflexivity].
  - destruct (String.eqb_spec name' k) as [->|Hk]; simpl.
    + destruct (String.eqb_spec name k); [contradiction|reflexivity].
    + rewrite IH. reflexivity.
Qed.

Lemma lookup_replace_column_eq name c cols :
  lookup_column name (replace_column name c cols) = Some c.
Proof.
  induction cols as [|[k c'] cols IH]; simpl.
  - rewrite String.eqb_refl. reflexivity.
  - destruct (String.eqb_spec name k) as [->|Hk]; simpl.
    + rewrite String.eqb_refl. reflexivity.
    + destruct (String.eqb_spec name k); [contradiction|]. exact IH.
Qed.

Lemma names_replace_column name c c0 cols :
  lookup_column name cols = Some c0 ->
  (replace_column name c cols).*1 = cols.*1.
Proof.
  induction cols as [|[k c'] cols IH]; simpl; [discriminate|].
  destruct (String.eqb_spec name k) as [->|Hk]; simpl; [reflexivity|].
  intros H. f_equal. auto.
Qed.

Lemma lookup_column_imap (g g' : nat -> string -> Column) name names :
  (forall j, g j name = g' j name) ->
  lookup_column name (imap (fun j k => (k, g j k)) names)
  = lookup_column name (imap (fun j k => (k, g' j k)) names).
Proof.
  revert g g'. induction names as [|k names IH]; intros g g' Hg; simpl; [reflexivity|].
  destruct (String.eqb_spec name k) as [->|Hk].
  - rewrite Hg. reflexivity.
  - apply (IH (fun j => g (S j)) (fun j => g' (S j))). intros j. apply Hg.
Qed.

Lemma names_imap (g : nat -> string -> Column) names :
  (imap (fun j k => (k, g j k)) names).*1 = names.
Proof.
  revert g. induction names as [|k names IH]; intros g; simpl; [reflexivity|].
  f_equal. apply (IH (fun j => g (S j))).
Qed.

Lemma read_csv_Ok fs path nrows dtype df :
  read_csv fs path nrows dtype = Ok df <->
  exists header recs,
    read_records fs path nrows = Ok (header, recs) /\
    df = mkDataFrame (RangeIndex (length recs))
           (make_columns (column_dtypes header dtype) (column_names header) recs).
Proof.
  unfold read_csv. rewrite bind_Ok. split.
  - intros ([header recs] & Hr & [= <-]). eauto.
  - intros (header & recs & Hr & ->). exists (header, recs). auto.
Qed.

(** What [load_data] returns: the table read, with the date column
    replaced by its conversion if a date column is named. *)
Lemma load_data_Ok fs path nrows date_col dtypes df :
  load_data fs path nrows date_col dtypes = Ok df <->
  exists data,
    read_csv fs path nrows dtypes = Ok data /\
    if truthy date_col then
      exists col s dt,
        date_col = Some col /\ getitem data col = Ok s /\
        to_datetime s = Ok dt /\ df = setitem data col dt
    else df = data.
Proof.
  unfold load_data. rewrite bind_Ok.
  split; intros (data & Hdata & H); exists data; (split; [exact Hdata|]).
  - destruct date_col as [col|]; [|simpl; congruence].
    destruct (truthy (Some col)); [|congruence].
    apply bind_Ok in H as (s & Hs & H). apply bind_Ok in H as (dt & Hdt & [= <-]).
    eauto 10.
  - destruct date_col as [col|]; [|simpl in H; congruence].
    destruct (truthy (Some col)); [|congruence].
    destruct H as (col' & s & dt & [= <-] & Hs & Hdt & ->).
    rewrite Hs. simpl. rewrite Hdt. reflexivity.
Qed.

(** ** Opening the file *)








(** C9: with the empty string as the name of the date column no time
    conversion takes place: [load_data] returns what it returns with no
    date column, which is the table as read. *)
Theorem load_data_empty_date_col fs path nrows dtypes :
  load_data fs path nrows (Some EmptyString) dtypes
  = load_data fs path nrows None dtypes
  /\ load_data fs path nrows (Some EmptyString) dtypes
     = read_csv fs path nrows dtypes.
Proof.
  unfold load_data. simpl.
  destruct (read_csv fs path nrows dtypes); auto.
Qed.

(** ** The names of the columns *)

Lemma filter_Forall {A} (P : A -> Prop) `{!forall x, Decision (P x)} (l : list A) :
  Forall P l -> filter P l = l.
Proof.
  induction 1 as [|x l Hx _ IH]; [reflexivity|].
  rewrite filter_cons_True by exact Hx. f_equal. exact IH.
Qed.

Lemma filter_Forall_not {A} (P : A -> Prop) `{!forall x, Decision (P x)} (l : list A) :
  Forall (fun x => ~ P x) l -> filter P l = [].
Proof.
  induction 1 as [|x l Hx _ IH]; [reflexivity|].
  rewrite filter_cons_False by exact Hx. exact IH.
Qed.

Lemma name_columns_named header :
  EmptyString ∉ header -> name_columns header = header.
Proof.
  intros Hnamed. unfold name_columns.
  assert (H : forall (f : nat -> string -> string) l,
             (forall i x, x ∈ l -> f i x = x) -> imap f l = l).
  { intros f l. revert f. induction l as [|x l IH]; intros f Hf; [reflexivity|].
    cbn [imap]. rewrite Hf by left. f_equal. apply IH. intros i y Hy. apply Hf. right. exact Hy. }
  apply H. intros i x Hx. destruct (String.eqb_spec x ""); [|reflexivity].
  subst x. contradiction.
Qed.

Lemma col_loop_order_named header :
  EmptyString ∉ header -> col_loop_order header = seq 0 (length header).
Proof.
  intros Hnamed. unfold col_loop_order.
  rewrite (filter_Forall_not (fun i => header !! i = Some EmptyString)).
  - rewrite app_nil_r. apply filter_Forall, Forall_forall. intros i _. apply not_elem_of_nil.
  - apply Forall_forall. intros i _ Hi. apply Hnamed, list_elem_of_lookup. eauto.
Qed.

(** The names of a header whose fields are distinct and not empty are
    its fields, and no column is renamed. *)
Lemma get_header_distinct header :
  NoDup header -> EmptyString ∉ header -> get_header header = (header, []).
Proof.
  intros Hnodup Hnamed. unfold get_header.
  rewrite (name_columns_named _ Hnamed), (col_loop_order_named _ Hnamed).
  assert (H : forall k, (k <= length header)%nat ->
             exists counts,
               foldl rename_column (header, ∅, []) (seq 0 k) = (header, counts, []) /\
               forall name, is_Some (counts !! name) -> name ∈ take k header).
  { induction k as [|k IH]; intros Hk.
    - exists ∅. split; [reflexivity|]. intros name [n Hn]. rewrite lookup_empty in Hn.
      discriminate.
    - destruct IH as (counts & Hfold & Hcounts); [lia|].
      destruct (lookup_lt_is_Some_2 header k) as [old_col Hold]; [lia|].
      assert (Hfresh : counts !! old_col = None).
      { destruct (counts !! old_col) eqn:Hc; [|reflexivity]. exfalso.
        assert (Hin : old_col ∈ take k header) by (apply Hcounts; eauto).
        apply list_elem_of_lookup in Hin as [j Hj].
        apply lookup_take_Some in Hj as [Hj Hlt].
        pose proof (NoDup_lookup _ _ _ _ Hnodup Hj Hold). lia. }
      exists (<[old_col := 1%nat]> counts). split.
      + rewrite seq_S, foldl_app, Hfold. cbn [foldl plus rename_column].
        rewrite Hold, Hfresh. cbn. rewrite (list_insert_id _ _ _ Hold). reflexivity.
      + intros name Hname. rewrite (take_S_r _ _ _ Hold). apply elem_of_app.
        destruct (decide (name = old_col)) as [->|Hne]; [right; left|left].
        rewrite lookup_insert_ne in Hname by congruence. auto. }
  destruct (H (length header) (Nat.le_refl _)) as (counts & -> & _). reflexivity.
Qed.

Lemma update_dtype_Some dtype r name dt :
  dtype !! name = Some dt -> update_dtype dtype r !! name = Some dt.
Proof.
  intros Hname. unfold update_dtype.
  destruct (dtype !! r.1); [|exact Hname].
  destruct (dtype !! r.2) eqn:Hr; [exact Hname|].
  rewrite lookup_insert_ne by congruence. exact Hname.
Qed.

(** A dtype that the caller asks for under a name is the dtype of the
    column of that name. *)
Lemma column_dtypes_Some header dtypes name dt :
  dtype_of dtypes name = Some dt -> dtype_of (column_dtypes header dtypes) name = Some dt.
Proof.
  unfold column_dtypes. destruct dtypes as [d|]; [|discriminate]. cbn.
  generalize (get_header header).2. intros renamed. revert d.
  induction renamed as [|r renamed IH]; intros d Hd; [exact Hd|].
  cbn [foldl]. apply IH, update_dtype_Some, Hd.
Qed.

Lemma column_dtypes_distinct header dtypes :
  NoDup header -> EmptyString ∉ header ->
  column_names header = header /\ column_dtypes header dtypes = dtypes.
Proof.
  intros Hnodup Hnamed. unfold column_names, column_dtypes.
  rewrite (get_header_distinct _ Hnodup Hnamed). split; [reflexivity|].
  destruct dtypes; reflexivity.
Qed.












(** C8, amended: [load_data] leaves alone every column that is not the
    date column and that no requested dtype applies to: the table has the
    row labels and the column names of the table parsed from the file
    with no options, one row per record read, and such a column holds the
    parsed values.  A requested dtype applies to the column of its name
    and to the columns renamed from a repeated field of the header of
    that name; where the fields of the header are distinct and not empty
    the names of the columns are these fields and the dtypes are the
    requested ones. *)
Theorem load_data_frame fs path nrows date_col dtypes df :
  load_data fs path nrows date_col dtypes = Ok df ->
  exists header recs parsed,
    read_records fs path nrows = Ok (header, recs) /\
    read_csv fs path nrows None = Ok parsed /\
    index df = index parsed /\
    length (index df) = length recs /\
    (columns df).*1 = (columns parsed).*1 /\
    (forall name,
        date_col <> Some name -> dtype_of (column_dtypes header dtypes) name = None ->
        lookup_column name (columns df) = lookup_column name (columns parsed)) /\
    (forall name dt,
        dtype_of dtypes name = Some dt ->
        dtype_of (column_dtypes header dtypes) name = Some dt) /\
    (NoDup header -> EmptyString ∉ header ->
     column_names header = header /\ column_dtypes header dtypes = dtypes).
Proof.
  intros H. apply load_data_Ok in H as (data & Hdata & H).
  apply read_csv_Ok in Hdata as (header & recs & Hrec & ->).
  exists header, recs,
    (mkDataFrame (RangeIndex (length recs)) (make_columns None (column_names header) recs)).
  split; [exact Hrec|].
  split; [apply read_csv_Ok; exists header, recs; split; [exact Hrec|reflexivity]|].
  assert (Hrest : (forall name dt,
                      dtype_of dtypes name = Some dt ->
                      dtype_of (column_dtypes header dtypes) name = Some dt) /\
                  (NoDup header -> EmptyString ∉ header ->
                   column_names header = header /\ column_dtypes header dtypes = dtypes)).
  { split; [intros name dt; apply column_dtypes_Some|apply column_dtypes_distinct]. }
  remember (column_names header) as names eqn:Hn.
  remember (column_dtypes header dtypes) as dts eqn:Hd. clear Hn Hd.
  assert (Hcols : forall name, dtype_of dts name = None ->
            lookup_column name (make_columns dts names recs)
            = lookup_column name (make_columns None names recs)).
  { intros name Hname. unfold make_columns.
    apply (lookup_column_imap
             (fun j k => match recs with
                         | [] => empty_column (dtype_of dts k)
                         | _ => convert_column (dtype_of dts k) (field j <$> recs)
                         end)
             (fun j k => match recs with
                         | [] => empty_column (dtype_of None k)
                         | _ => convert_column (dtype_of None k) (field j <$> recs)
                         end)).
    intros j. rewrite Hname. reflexivity. }
  assert (Hnames : forall dt, (make_columns dt names recs).*1 = names).
  { intros dt. unfold make_columns. apply names_imap. }
  assert (Hlen : length (RangeIndex (length recs)) = length recs).
  { unfold RangeIndex. rewrite length_fmap, length_seq. reflexivity. }
  destruct (truthy date_col).
  - destruct H as (col & s & dt & -> & Hs & Hdt & ->). simpl.
    unfold getitem in Hs. simpl in Hs.
    destruct (lookup_column col (make_columns dts names recs)) as [c0|] eqn:Hc0;
      [|discriminate].
    split; [reflexivity|]. split; [exact Hlen|]. split; [|split; [|exact Hrest]].
    + rewrite (names_replace_column _ _ _ _ Hc0), !Hnames. reflexivity.
    + intros name Hne Hdt'. rewrite lookup_replace_column_ne by congruence. auto.
  - subst df. simpl. split; [reflexivity|]. split; [exact Hlen|].
    split; [|split; [|exact Hrest]].
    + rewrite !Hnames. reflexivity.
    + intros name _ Hdt'. auto.
Qed.

(** ** The time conversion *)

Lemma int64_epoch_to_ns_Ok s ns :
  s <> NPY_NAT ->
  int64_epoch_to_ns s = Ok ns ->
  valid_datetime (value_of_datetime ns) /\ epoch_seconds (value_of_datetime ns) = Some s.
Proof.
  intros Hs. unfold int64_epoch_to_ns.
  destruct (Z.eqb_spec s NPY_NAT) as [|_]; [contradiction|].
  destruct (_ || _) eqn:Hb; [discriminate|]. intros [= <-].
  apply orb_false_iff in Hb as [Hlo Hhi].
  apply Z.ltb_ge in Hlo, Hhi.
  assert (Hne : s * SECOND_NS <> NPY_NAT).
  { unfold Timestamp_min, NPY_NAT in *. lia. }
  unfold value_of_datetime. destruct (Z.eqb_spec (s * SECOND_NS) NPY_NAT); [contradiction|].
  simpl. split; [lia|]. f_equal. apply Z.div_mul. discriminate.
Qed.

Lemma int64_epoch_to_ns_in_range s :
  in_datetime_range s -> is_ok (int64_epoch_to_ns s) = true.
Proof.
  unfold in_datetime_range, int64_epoch_to_ns. intros Hs.
  destruct (Z.eqb_spec s NPY_NAT); [reflexivity|].
  destruct (_ || _) eqn:Hb; [|reflexivity].
  apply orb_true_iff in Hb as [Hb|Hb]; apply Z.ltb_lt in Hb;
    unfold Timestamp_min, Timestamp_max, INT64_MIN, INT64_MAX, SECOND_NS in Hb; lia.
Qed.

Lemma traverse_is_ok {A B} (f : A -> result B) (l : list A) :
  Forall (fun a => is_ok (f a) = true) l -> is_ok (traverse f l) = true.
Proof.
  induction 1 as [|a l Ha _ IH]; simpl; [reflexivity|].
  destruct (f a); [|discriminate]. simpl.
  destruct (traverse f l); [reflexivity|discriminate].
Qed.

Lemma is_ok_true {A} (r : result A) : is_ok r = true <-> exists a, r = Ok a.
Proof.
  destruct r; simpl; split; eauto; try discriminate. intros [a [=]].
Qed.

(** The conversion of a column of 64-bit integers, none of them the
    smallest one: every time is valid and gives back its seconds; and the
    conversion succeeds when the seconds are in the range of a time in
    nanoseconds. *)
Lemma int64_column_round_trip fs path nrows col dtypes data idx secs :
  col <> EmptyString ->
  read_csv fs path nrows dtypes = Ok data ->
  getitem data col = Ok (mkSeries idx (Int64 secs)) ->
  NPY_NAT ∉ secs ->
  (forall df,
      load_data fs path nrows (Some col) dtypes = Ok df ->
      exists times,
        lookup_column col (columns df) = Some (Datetime64 times) /\
        round_trips secs (Datetime64 times))
  /\ (Forall in_datetime_range secs ->
      exists df, load_data fs path nrows (Some col) dtypes = Ok df).
Proof.
  intros Hcol Hdata Hs Hnat.
  assert (Htruthy : truthy (Some col) = true).
  { simpl. destruct (String.eqb_spec col EmptyString); [contradiction|reflexivity]. }
  split.
  - intros df Hdf. apply load_data_Ok in Hdf as (data' & Hdata' & H).
    rewrite Hdata in Hdata'. injection Hdata' as <-. rewrite Htruthy in H.
    destruct H as (col' & s & dt & [= <-] & Hs' & Hdt & ->).
    rewrite Hs in Hs'. injection Hs' as <-.
    unfold to_datetime in Hdt. simpl in Hdt.
    apply bind_Ok in Hdt as (times & Htimes & [= <-]).
    exists times. simpl. split; [apply lookup_replace_column_eq|].
    apply traverse_Ok_Forall2 in Htimes. unfold round_trips. simpl.
    clear -Htimes Hnat. induction Htimes as [|s ns secs times Hns _ IH]; simpl.
    + constructor.
    + constructor.
      * apply int64_epoch_to_ns_Ok; [|exact Hns]. intros ->. apply Hnat. left.
      * apply IH. intros Hin. apply Hnat. right. exact Hin.
  - intros Hrange.
    assert (Hok : is_ok (traverse int64_epoch_to_ns secs) = true).
    { apply traverse_is_ok. eapply Forall_impl; [exact Hrange|].
      intros s. apply int64_epoch_to_ns_in_range. }
    apply is_ok_true in Hok as [times Htimes].
    exists (setitem data col (mkSeries idx (Datetime64 times))).
    apply load_data_Ok. exists data. split; [exact Hdata|]. rewrite Htruthy.
    exists col, (mkSeries idx (Int64 secs)), (mkSeries idx (Datetime64 times)).
    repeat split; [exact Hs|]. unfold to_datetime. simpl. rewrite Htimes. reflexivity.
Qed.

(** ** Sorting and distinct elements *)

Lemma insert_sorted_Permutation {A} (leb : A -> A -> bool) x l :
  insert_sorted leb x l ≡ₚ x :: l.
Proof.
  induction l as [|y l IH]; simpl; [reflexivity|].
  destruct (leb x y); [reflexivity|]. rewrite IH. apply Permutation_swap.
Qed.

Lemma isort_Permutation {A} (leb : A -> A -> bool) l : isort leb l ≡ₚ l.
Proof.
  induction l as [|x l IH]; simpl; [reflexivity|].
  rewrite insert_sorted_Permutation. f_equiv. exact IH.
Qed.

Lemma elem_of_unique {A} (eqb : A -> A -> bool) x l : x ∈ unique eqb l -> x ∈ l.
Proof.
  revert x. induction l as [|y l IH]; intros x; simpl; [auto|].
  rewrite !elem_of_cons, list_elem_of_filter. intros [->|[_ Hx]]; auto.
Qed.

Lemma NoDup_unique {A} (eqb : A -> A -> bool) l :
  (forall x, x ∈ l -> eqb x x = true) -> NoDup (unique eqb l).
Proof.
  induction l as [|y l IH]; intros Hrefl; simpl; [constructor|].
  constructor.
  - rewrite list_elem_of_filter. intros [Hy _].
    rewrite Hrefl in Hy by left. exact Hy.
  - apply NoDup_filter, IH. intros x Hx. apply Hrefl. right. exact Hx.
Qed.

Lemma unique_covers {A} (eqb : A -> A -> bool) x l :
  (forall a b c, eqb a b = true -> eqb b c = true -> eqb a c = true) ->
  eqb x x = true ->
  x ∈ l -> exists k, k ∈ unique eqb l /\ eqb k x = true.
Proof.
  intros Htrans Hx. induction l as [|y l IH]; intros Hin; [inversion Hin|].
  simpl. destruct (eqb y x) eqn:Hyx.
  - exists y. split; [left|exact Hyx].
  - apply elem_of_cons in Hin as [->|Hin]; [congruence|].
    destruct (IH Hin) as (k & Hk & Hkx). exists k. split; [|exact Hkx].
    right. apply list_elem_of_filter. split; [|exact Hk].
    destruct (eqb y k) eqn:Hyk; [|exact I].
    rewrite (Htrans _ _ _ Hyk Hkx) in Hyx. discriminate.
Qed.

Lemma index_of_Some s l i : index_of s l = Some i -> l !! i = Some s.
Proof.
  revert i. induction l as [|x l IH]; intros i; simpl; [discriminate|].
  destruct (String.eqb_spec s x) as [->|_].
  - intros [= <-]. reflexivity.
  - destruct (index_of s l) as [i'|]; [|discriminate]. intros [= <-]. simpl. auto.
Qed.

Lemma index_of_elem s l : s ∈ l -> exists i, index_of s l = Some i.
Proof.
  induction l as [|x l IH]; intros Hin; [inversion Hin|]. simpl.
  destruct (String.eqb_spec s x) as [->|Hne]; [eauto|].
  apply elem_of_cons in Hin as [->|Hin]; [contradiction|].
  destruct (IH Hin) as [i ->]. simpl. eauto.
Qed.

(** ** The columns read *)

Lemma lookup_column_imap_index (g : nat -> string -> Column) name names j :
  index_of name names = Some j ->
  lookup_column name (imap (fun j k => (k, g j k)) names) = Some (g j name).
Proof.
  revert g j. induction names as [|k names IH]; intros g j; simpl; [discriminate|].
  destruct (String.eqb_spec name k) as [->|_].
  - intros [= <-]. reflexivity.
  - destruct (index_of name names) as [j'|] eqn:Hj; [|discriminate]. intros [= <-].
    apply (IH (fun j => g (S j))). reflexivity.
Qed.

Lemma lookup_make_columns dtype names recs name j :
  index_of name names = Some j ->
  lookup_column name (make_columns dtype names recs)
  = Some (match recs with
          | [] => empty_column (dtype_of dtype name)
          | _ => convert_column (dtype_of dtype name) (field j <$> recs)
          end).
Proof.
  intros Hj. unfold make_columns.
  apply (lookup_column_imap_index
           (fun j k => match recs with
                       | [] => empty_column (dtype_of dtype k)
                       | _ => convert_column (dtype_of dtype k) (field j <$> recs)
                       end) _ _ _ Hj).
Qed.

(** The labels of a categorical column are distinct and are cells of the
    column that are not missing. *)
Lemma categorical_convert_labels cells :
  exists cats codes,
    categorical_convert cells = Category cats codes /\
    NoDup cats /\
    (forall s, s ∈ cats <-> s ∈ cells /\ is_na s = false).
Proof.
  unfold categorical_convert. eexists _, _. split; [reflexivity|]. split.
  - rewrite isort_Permutation. apply NoDup_unique. intros x _. apply String.eqb_refl.
  - intros s. rewrite isort_Permutation. split.
    + intros Hs. apply elem_of_unique, list_elem_of_filter in Hs as [Hna Hs].
      split; [exact Hs|]. destruct (is_na s); [contradiction|reflexivity].
    + intros [Hs Hna].
      destruct (unique_covers String.eqb s (filter (fun s => negb (is_na s)) cells))
        as (k & Hk & Hkx).
      * intros a b c Hab Hbc. apply String.eqb_eq in Hab, Hbc. subst. apply String.eqb_refl.
      * apply String.eqb_refl.
      * apply list_elem_of_filter. rewrite Hna. split; [exact I|exact Hs].
      * apply String.eqb_eq in Hkx. subst. exact Hk.
Qed.

(** C6, amended: a column named as categorical in the type mapping, and
    not named as the date column, is loaded as a categorical column whose
    labels are distinct, are exactly the raw values of the column that
    are not missing-value markers, and are no more than the distinct raw
    values of the column in the records read. *)
Theorem load_data_categorical fs path nrows date_col dtypes header recs df name j c :
  dtype_of dtypes name = Some DtCategory ->
  date_col <> Some name ->
  read_records fs path nrows = Ok (header, recs) ->
  index_of name (column_names header) = Some j ->
  load_data fs path nrows date_col dtypes = Ok df ->
  lookup_column name (columns df) = Some c ->
  exists cats codes,
    c = Category cats codes /\
    NoDup cats /\
    (forall s, s ∈ cats <-> s ∈ field j <$> recs /\ is_na s = false) /\
    (length cats <= size (list_to_set (C := gset string) (field j <$> recs)))%nat.
Proof.
  intros Hdt Hne Hrec Hj Hdf Hc.
  apply load_data_Ok in Hdf as (data & Hdata & H).
  apply read_csv_Ok in Hdata as (header' & recs' & Hrec' & ->).
  rewrite Hrec in Hrec'. injection Hrec' as <- <-.
  assert (Hc' : lookup_column name
                  (make_columns (column_dtypes header dtypes) (column_names header) recs)
                = Some c).
  { destruct (truthy date_col); [|subst df; exact Hc].
    destruct H as (col & s & dt & -> & _ & _ & ->). simpl in Hc.
    rewrite lookup_replace_column_ne in Hc by congruence. exact Hc. }
  rewrite (lookup_make_columns _ _ _ _ _ Hj), (column_dtypes_Some _ _ _ _ Hdt) in Hc'.
  injection Hc' as <-.
  destruct recs as [|rec recs].
  - exists [], []. simpl. split; [reflexivity|]. split; [constructor|]. split; [|lia].
    intros s. split; [inversion 1|intros [Hs _]; inversion Hs].
  - set (cells := field j <$> rec :: recs).
    destruct (categorical_convert_labels cells) as (cats & codes & Hcat & Hnodup & Hcats).
    exists cats, codes. split; [exact Hcat|]. split; [exact Hnodup|]. split; [exact Hcats|].
    rewrite <- (size_list_to_set (C := gset string) cats) by exact Hnodup.
    apply subseteq_size. intros s. rewrite !elem_of_list_to_set.
    intros Hs. apply Hcats in Hs as [Hs _]. exact Hs.
Qed.

(** ** Reading integers *)

Lemma read_digits_nonneg s : forall acc n rest,
  0 <= acc -> read_digits acc s = (n, rest) -> 0 <= n.
Proof.
  induction s as [|c s IH]; intros acc n rest Hacc; cbn [read_digits].
  - intros [= <- _]. exact Hacc.
  - destruct (digit_of c) as [d|] eqn:Hd; [|intros [= <- _]; exact Hacc].
    apply IH. unfold digit_of in Hd. apply fmap_Some in Hd as (k & _ & ->). lia.
Qed.

(** A cell is read as an integer of 64 bits when it is an integer literal
    in the range. *)
Lemma str_to_int64_Converted s z :
  str_to_int64 s = Converted z <-> str_to_int s = Some z /\ in_int64 z = true.
Proof.
  unfold str_to_int64, str_to_int.
  match goal with |- context [let '(neg, s2) := ?t in _] => destruct t as [neg s2] end.
  destruct s2 as [|c r]; [split; [discriminate|intros [[=] _]]|].
  case_bool_decide; [|split; [discriminate|intros [[=] _]]].
  destruct (read_digits 0 (c :: r)) as [n rest].
  destruct (in_int64 (if neg then - n else n)) eqn:Hrange.
  - destruct (skip_spaces rest); split; try discriminate.
    + intros [= <-]. auto.
    + intros [[= <-] _]. reflexivity.
    + intros [[=] _].
  - split; [discriminate|]. destruct (skip_spaces rest); [|intros [[=] _]].
    intros [[= <-] Hz]. congruence.
Qed.

(** A cell that is read as an unsigned integer starts with a minus sign,
    which is noted, or is an integer literal, which is noted if it is
    above the signed range. *)
Lemma str_to_uint64_Converted state s z state' :
  str_to_uint64 state s = Converted (z, state') ->
  state' = mkUintState true (seen_uint state) (seen_null state)
  \/ (str_to_int s = Some z /\
      state' = mkUintState (seen_sint state) (seen_uint state || (INT64_MAX <? z))
                           (seen_null state)).
Proof.
  unfold str_to_uint64, str_to_int.
  match goal with |- context [let '(neg, s2) := ?t in _] => destruct t as [neg s2] end.
  destruct neg; [intros [= <- <-]; left; reflexivity|].
  destruct s2 as [|c r]; [discriminate|].
  case_bool_decide; [|discriminate].
  destruct (read_digits 0 (c :: r)) as [n rest].
  destruct (UINT64_MAX <? n); [discriminate|].
  destruct (skip_spaces rest); [|discriminate].
  intros [= <- <-]. right. auto.
Qed.

(** A number out of the signed range leaves its mark when it is read as an
    unsigned integer. *)
Lemma str_to_uint64_overflow state s z state' :
  str_to_int64 s = Failed ERROR_OVERFLOW ->
  str_to_uint64 state s = Converted (z, state') ->
  seen_sint state' = true \/ seen_uint state' = true.
Proof.
  unfold str_to_int64, str_to_uint64.
  match goal with |- context [let '(neg, s2) := ?t in _] => destruct t as [neg s2] end.
  destruct neg; [intros _ [= _ <-]; left; reflexivity|].
  destruct s2 as [|c r]; [discriminate|].
  case_bool_decide; [|discriminate].
  destruct (read_digits 0 (c :: r)) as [n rest] eqn:Hn.
  apply read_digits_nonneg in Hn; [|lia].
  destruct (in_int64 n) eqn:Hrange; [destruct (skip_spaces rest); discriminate|].
  intros _. destruct (UINT64_MAX <? n); [discriminate|].
  destruct (skip_spaces rest); [|discriminate].
  intros [= _ <-]. right. cbn [seen_uint]. apply orb_true_iff. right.
  apply Z.ltb_lt. unfold in_int64 in Hrange. apply andb_false_iff in Hrange as [Hlo|Hhi].
  - apply Z.leb_gt in Hlo. unfold INT64_MIN in Hlo. lia.
  - apply Z.leb_gt in Hhi. exact Hhi.
Qed.

Lemma try_int64_Converted cells : forall ints,
  try_int64 cells = Converted ints ->
  Forall2 (fun s o => if is_na s then o = None
                      else exists z, o = Some z /\ str_to_int64 s = Converted z) cells ints.
Proof.
  induction cells as [|s cells IH]; intros ints; cbn [try_int64].
  - intros [= <-]. constructor.
  - destruct (is_na s) eqn:Hna.
    + destruct (try_int64 cells) as [l|]; [|discriminate]. intros [= <-].
      constructor; [rewrite Hna; reflexivity|auto].
    + destruct (str_to_int64 s) as [z|] eqn:Hz; [|discriminate].
      destruct (try_int64 cells) as [l|]; [|discriminate]. intros [= <-].
      constructor; [rewrite Hna; eauto|auto].
Qed.

Lemma try_int64_length cells ints :
  try_int64 cells = Converted ints -> length ints = length cells.
Proof.
  intros H. apply try_int64_Converted in H. symmetry. eapply Forall2_length. exact H.
Qed.

(** The reading fails on a cell that is present. *)
Lemma try_int64_Failed cells e :
  try_int64 cells = Failed e ->
  exists s, s ∈ cells /\ is_na s = false /\ str_to_int64 s = Failed e.
Proof.
  induction cells as [|s cells IH]; cbn [try_int64]; [discriminate|].
  assert (Hrest : try_int64 cells = Failed e ->
                  exists s', s' ∈ s :: cells /\ is_na s' = false /\ str_to_int64 s' = Failed e).
  { intros H. destruct (IH H) as (s' & Hin & H'). exists s'. split; [right; exact Hin|exact H']. }
  destruct (is_na s) eqn:Hna.
  - destruct (try_int64 cells) as [l|e']; [discriminate|]. intros [= ->]. auto.
  - destruct (str_to_int64 s) as [z|e'] eqn:Hz.
    + destruct (try_int64 cells) as [l|e']; [discriminate|]. intros [= ->]. auto.
    + intros [= ->]. exists s. split; [left|auto].
Qed.

(** What the reading of a column as unsigned integers has met. *)
Lemma try_uint64_Converted cells : forall state l state',
  try_uint64 state cells = Converted (l, state') ->
  length l = length cells /\
  (seen_sint state = true -> seen_sint state' = true) /\
  (seen_uint state = true -> seen_uint state' = true) /\
  (forall s, s ∈ cells -> is_na s = false ->
             exists state1 z state2,
               str_to_uint64 state1 s = Converted (z, state2) /\
               (seen_sint state2 = true -> seen_sint state' = true) /\
               (seen_uint state2 = true -> seen_uint state' = true)) /\
  (seen_uint state' = true ->
   seen_uint state = true
   \/ exists s z, s ∈ cells /\ str_to_int s = Some z /\ INT64_MAX < z).
Proof.
  induction cells as [|s cells IH]; intros state l state'; cbn [try_uint64].
  - intros [= <- <-]. split; [reflexivity|]. split; [auto|]. split; [auto|].
    split; [intros s Hs; inversion Hs|auto].
  - destruct (is_na s) eqn:Hna.
    + destruct (try_uint64 _ cells) as [[l' st']|] eqn:Hrest; [|discriminate].
      intros [= <- <-]. destruct (IH _ _ _ Hrest) as (Hlen & Hsint & Huint & Hcells & Hseen).
      cbn [seen_sint seen_uint] in Hsint, Huint, Hseen.
      split; [cbn; lia|]. split; [exact Hsint|]. split; [exact Huint|]. split.
      * intros s' Hs' Hna'. apply elem_of_cons in Hs' as [->|Hs']; [congruence|]. auto.
      * intros H. destruct (Hseen H) as [?|(s' & z & Hs' & Hz)]; [auto|].
        right. exists s', z. split; [right; exact Hs'|exact Hz].
    + destruct (str_to_uint64 state s) as [[z state1]|] eqn:Hz; [|discriminate].
      destruct (try_uint64 state1 cells) as [[l' st']|] eqn:Hrest; [|discriminate].
      intros [= <- <-]. destruct (IH _ _ _ Hrest) as (Hlen & Hsint & Huint & Hcells & Hseen).
      pose proof (str_to_uint64_Converted _ _ _ _ Hz) as Hstep.
      split; [cbn; lia|]. split; [|split; [|split]].
      * intros H. apply Hsint. destruct Hstep as [-> | [_ ->]]; [reflexivity|exact H].
      * intros H. apply Huint. destruct Hstep as [-> | [_ ->]]; cbn [seen_uint];
          [exact H|rewrite H; reflexivity].
      * intros s' Hs' Hna'. apply elem_of_cons in Hs' as [->|Hs']; [|auto].
        exists state, z, state1. auto.
      * intros H. destruct (Hseen H) as [H1|(s' & z' & Hs' & Hz')].
        -- destruct Hstep as [-> | [Hint ->]]; cbn [seen_uint] in H1; [auto|].
           apply orb_true_iff in H1 as [H1|H1]; [auto|]. right. exists s, z.
           split; [left|]. split; [exact Hint|]. apply Z.ltb_lt. exact H1.
        -- right. exists s', z'. split; [right; exact Hs'|exact Hz'].
Qed.

(** A column that is read again as unsigned integers has met a minus
    sign or a number above the signed range. *)
Lemma try_uint64_after_overflow cells l state :
  try_int64 cells = Failed ERROR_OVERFLOW ->
  try_uint64 uint_state_init cells = Converted (l, state) ->
  seen_sint state = true \/ seen_uint state = true.
Proof.
  intros Hint Huint. destruct (try_int64_Failed _ _ Hint) as (s & Hs & Hna & Hover).
  destruct (try_uint64_Converted _ _ _ _ Huint) as (_ & _ & _ & Hcells & _).
  destruct (Hcells s Hs Hna) as (state1 & z & state2 & Hz & Hsint & Huint').
  destruct (str_to_uint64_overflow _ _ _ _ Hover Hz); auto.
Qed.

(** How the columns of a file whose dtype is inferred come out. *)
Inductive Inferred (cells : list string) : Column -> Prop :=
| inferred_int64 ints :
    try_int64 cells = Converted ints -> None ∉ ints ->
    Inferred cells (Int64 (omap id ints))
| inferred_int64_na ints :
    try_int64 cells = Converted ints -> None ∈ ints ->
    Inferred cells (Float64 (upcast_int <$> ints))
| inferred_uint64 l state :
    try_uint64 uint_state_init cells = Converted (l, state) ->
    seen_uint state = true -> seen_sint state = false -> seen_null state = false ->
    Inferred cells (UInt64 l)
| inferred_as_is l state :
    try_uint64 uint_state_init cells = Converted (l, state) ->
    seen_uint state = true ->
    Inferred cells (Object (VStr <$> cells))
| inferred_float floats :
    try_float cells = Some floats ->
    Inferred cells (Float64 floats)
| inferred_bool bools :
    try_bool cells = Some bools -> None ∉ bools ->
    Inferred cells (Bool (omap id bools))
| inferred_bool_na bools :
    try_bool cells = Some bools -> None ∈ bools ->
    Inferred cells (Object (upcast_bool <$> bools))
| inferred_text :
    (forall ints, try_int64 cells <> Converted ints) ->
    Inferred cells (Object (string_cell <$> cells)).

Lemma infer_column_Inferred cells : Inferred cells (infer_column cells).
Proof.
  assert (Hrest : (forall ints, try_int64 cells <> Converted ints) ->
                  Inferred cells
                    match try_float cells with
                    | Some floats => Float64 floats
                    | None =>
                        match try_bool cells with
                        | Some bools =>
                            if bool_decide (None ∈ bools) then Object (upcast_bool <$> bools)
                            else Bool (omap id bools)
                        | None => Object (string_cell <$> cells)
                        end
                    end).
  { intros Hint. destruct (try_float cells) as [floats|] eqn:Hf; [apply inferred_float, Hf|].
    destruct (try_bool cells) as [bools|] eqn:Hb; [|apply inferred_text, Hint].
    case_bool_decide; [apply inferred_bool_na|apply inferred_bool]; assumption. }
  unfold infer_column, convert_integers.
  destruct (try_int64 cells) as [ints|e] eqn:Hint.
  - case_bool_decide; [eapply inferred_int64_na|eapply inferred_int64]; eassumption.
  - assert (Hno : forall ints : list (option Z), Failed e <> Converted ints) by discriminate.
    destruct e; [apply Hrest, Hno| |apply Hrest, Hno].
    destruct (try_uint64 uint_state_init cells) as [[l state]|e] eqn:Huint.
    + destruct (try_uint64_after_overflow _ _ _ Hint Huint) as [Hs|Hu].
      * unfold uint64_conflict. rewrite Hs. cbn [orb]. rewrite andb_true_r.
        destruct (seen_uint state) eqn:Hu; [eapply inferred_as_is; eassumption|].
        apply inferred_text. rewrite Hint. exact Hno.
      * unfold uint64_conflict. rewrite Hu. cbn [andb].
        destruct (seen_sint state) eqn:Hs; cbn [orb]; [eapply inferred_as_is; eassumption|].
        destruct (seen_null state) eqn:Hn; [eapply inferred_as_is; eassumption|].
        eapply inferred_uint64; eassumption.
    + destruct e; [apply Hrest, Hno| |apply Hrest, Hno].
      apply inferred_text. rewrite Hint. exact Hno.
Qed.

Lemma str_to_int_not_na s z : str_to_int s = Some z -> is_na s = false.
Proof.
  intros Hz. unfold is_na. apply bool_decide_eq_false. intros Hin.
  assert (Hall : Forall (fun s => str_to_int s = None) na_values).
  { unfold na_values. repeat constructor. }
  rewrite Forall_forall in Hall. rewrite (Hall s Hin) in Hz. discriminate.
Qed.

Lemma omap_id_Some {A} (l : list A) : omap id (Some <$> l) = l.
Proof. induction l as [|x l IH]; [reflexivity|]. cbn. f_equal. exact IH. Qed.

Lemma try_int64_literals cells zs :
  Forall2 (fun cell z => str_to_int cell = Some z) cells zs ->
  Forall (fun z => INT64_MIN <= z <= INT64_MAX) zs ->
  try_int64 cells = Converted (Some <$> zs).
Proof.
  induction 1 as [|cell z cells zs Hz _ IH]; intros Hrange; [reflexivity|].
  apply Forall_cons in Hrange as [Hr Hrange]. cbn [try_int64 fmap list_fmap].
  rewrite (str_to_int_not_na _ _ Hz).
  assert (str_to_int64 cell = Converted z) as ->.
  { apply str_to_int64_Converted. split; [exact Hz|]. unfold in_int64.
    apply andb_true_iff. split; apply Z.leb_le; lia. }
  rewrite (IH Hrange). reflexivity.
Qed.

(** A column whose cells are all integer literals within the 64-bit range
    is read as a column of 64-bit integers. *)
Lemma infer_column_int64 cells zs :
  Forall2 (fun cell z => str_to_int cell = Some z) cells zs ->
  Forall (fun z => INT64_MIN <= z <= INT64_MAX) zs ->
  infer_column cells = Int64 zs.
Proof.
  intros Hcells Hrange. unfold infer_column, convert_integers.
  rewrite (try_int64_literals _ _ Hcells Hrange), omap_id_Some.
  rewrite bool_decide_eq_false_2; [reflexivity|].
  intros Hin. apply list_elem_of_fmap in Hin as (z & Hz & _). discriminate Hz.
Qed.

(** ** A date column of integers *)

(** C3, amended: when no dtype is requested for the designated column and
    its raw values are integer literals within the signed 64-bit range,
    none of them the smallest 64-bit integer, every value of the column
    after [load_data] is a valid time whose seconds since the epoch are
    the raw value; and the load succeeds when the raw values are in the
    range of a time in nanoseconds. *)
Theorem load_data_timestamp_round_trip fs path nrows col dtypes header recs j secs :
  col <> EmptyString ->
  read_records fs path nrows = Ok (header, recs) ->
  index_of col (column_names header) = Some j ->
  dtype_of (column_dtypes header dtypes) col = None ->
  Forall2 (fun cell s => str_to_int cell = Some s) (field j <$> recs) secs ->
  Forall (fun s => INT64_MIN < s <= INT64_MAX) secs ->
  (forall df,
      load_data fs path nrows (Some col) dtypes = Ok df ->
      exists times,
        lookup_column col (columns df) = Some (Datetime64 times) /\
        round_trips secs (Datetime64 times))
  /\ (Forall in_datetime_range secs ->
      exists df, load_data fs path nrows (Some col) dtypes = Ok df).
Proof.
  intros Hcol Hrec Hj Hdt Hcells Hrange.
  set (data := mkDataFrame (RangeIndex (length recs))
                 (make_columns (column_dtypes header dtypes) (column_names header) recs)).
  assert (Hdata : read_csv fs path nrows dtypes = Ok data).
  { apply read_csv_Ok. exists header, recs. auto. }
  destruct recs as [|rec recs].
  - inversion Hcells; subst.
    assert (Hget : getitem data col = Ok (mkSeries (RangeIndex 0) (Object []))).
    { unfold getitem, data. cbn [columns index length].
      rewrite (lookup_make_columns _ _ _ _ _ Hj), Hdt. reflexivity. }
    assert (Htruthy : truthy (Some col) = true).
    { simpl. destruct (String.eqb_spec col EmptyString); [contradiction|reflexivity]. }
    assert (Hload : load_data fs path nrows (Some col) dtypes
                    = Ok (setitem data col (mkSeries (RangeIndex 0) (Datetime64 [])))).
    { unfold load_data. rewrite Hdata. cbn [bind]. rewrite Htruthy, Hget. reflexivity. }
    split.
    + intros df Hdf. rewrite Hload in Hdf. injection Hdf as <-. exists [].
      split; [apply lookup_replace_column_eq|constructor].
    + intros _. eauto.
  - assert (Hnat : NPY_NAT ∉ secs).
    { intros Hin. rewrite Forall_forall in Hrange. specialize (Hrange _ Hin).
      unfold NPY_NAT in Hrange. lia. }
    apply (int64_column_round_trip fs path nrows col dtypes data
             (RangeIndex (length (rec :: recs))) secs Hcol Hdata); [|exact Hnat].
    unfold getitem, data. cbn [columns index].
    rewrite (lookup_make_columns _ _ _ _ _ Hj), Hdt. cbn [convert_column].
    rewrite (infer_column_int64 _ secs Hcells); [reflexivity|].
    eapply Forall_impl; [exact Hrange|]. intros s Hs. cbn in Hs. lia.
Qed.

(** ** A date column that holds something else than numbers *)

Lemma object_epoch_to_ns_text cell :
  numeric_cell cell = false -> missing_cell cell = false ->
  is_ok (object_epoch_to_ns (VStr cell)) = false.
Proof.
  unfold numeric_cell, missing_cell. intros Hnum Hmiss.
  apply orb_false_iff in Hnum as [_ Hf], Hmiss as [Hna Hnat].
  apply bool_decide_eq_false in Hf, Hnat. simpl.
  case_bool_decide as Hd.
  - destruct Hd as [->|Hd]; [discriminate Hna|contradiction].
  - destruct (python_float cell); [|reflexivity]. exfalso. apply Hf. eauto.
Qed.

(** The conversion of a column that holds a cell which is neither a
    number nor a missing value fails, whatever dtype the column was read
    with. *)
Lemma to_datetime_non_numeric idx dt cells cell :
  cell ∈ cells ->
  numeric_cell cell = false -> missing_cell cell = false ->
  is_ok (to_datetime (mkSeries idx (convert_column dt cells))) = false.
Proof.
  intros Hin Hnum Hmiss.
  pose proof (object_epoch_to_ns_text cell Hnum Hmiss) as Htext.
  assert (Hna : is_na cell = false).
  { unfold missing_cell in Hmiss. apply orb_false_iff in Hmiss as [? _]. assumption. }
  assert (Hint : str_to_int cell = None).
  { unfold numeric_cell in Hnum. apply orb_false_iff in Hnum as [Hi _].
    apply orb_false_iff in Hi as [Hi _].
    apply bool_decide_eq_false in Hi. destruct (str_to_int cell); [|reflexivity].
    exfalso. apply Hi. eauto. }
  assert (Hflt : strtod cell = None).
  { unfold numeric_cell in Hnum. apply orb_false_iff in Hnum as [Hi _].
    apply orb_false_iff in Hi as [_ Hf].
    apply bool_decide_eq_false in Hf. destruct (strtod cell); [|reflexivity].
    exfalso. apply Hf. eauto. }
  assert (Hfail : forall c,
            (exists v, v ∈ values c /\ is_ok (object_epoch_to_ns v) = false) ->
            match c with Bool _ | Object _ | Category _ _ => True | _ => False end ->
            is_ok (to_datetime (mkSeries idx c)) = false).
  { intros c (v & Hv & Hbad) Hkind. unfold to_datetime. simpl.
    pose proof (traverse_Raise_elem object_epoch_to_ns (values c) v Hv Hbad) as Ht.
    destruct c; try contradiction; simpl in Ht |- *;
      try destruct unit_converts_categorical; try reflexivity;
      match goal with
      | |- context [traverse ?f ?l] => destruct (traverse f l); [discriminate|reflexivity]
      end. }
  assert (Htxt : VStr cell ∈ string_cell <$> cells).
  { apply list_elem_of_fmap. exists cell. split; [|exact Hin].
    unfold string_cell. rewrite Hna. reflexivity. }
  assert (Hno_int : forall ints, try_int64 cells <> Converted ints).
  { intros ints Hints. apply try_int64_Converted in Hints.
    apply list_elem_of_lookup in Hin as [i Hi].
    destruct (Forall2_lookup_l _ _ _ _ _ Hints Hi) as (o & _ & Ho).
    rewrite Hna in Ho. destruct Ho as (z & _ & Hz).
    apply str_to_int64_Converted in Hz as [Hz _]. congruence. }
  destruct dt as [[|]|]; simpl.
  - (* category *)
    destruct (categorical_convert_labels cells) as (cats & codes & Hcat & _ & Hcats).
    apply Hfail; [|unfold categorical_convert; exact I].
    exists (VStr cell). split; [|exact Htext].
    assert (Hcell : cell ∈ cats) by (apply Hcats; auto).
    unfold categorical_convert in Hcat |- *. injection Hcat as Hc _. rewrite Hc. simpl.
    apply list_elem_of_fmap. exists (from_option Z.of_nat (-1) (index_of cell cats)). split.
    + destruct (index_of_elem _ _ Hcell) as [i Hi]. rewrite Hi. simpl.
      unfold value_of_code. destruct (Z.ltb_spec (Z.of_nat i) 0); [lia|].
      rewrite Nat2Z.id, (index_of_Some _ _ _ Hi). reflexivity.
    + apply list_elem_of_fmap. exists cell. rewrite Hna. auto.
  - (* text *)
    apply Hfail; [|exact I]. exists (VStr cell). auto.
  - (* inferred *)
    destruct (infer_column_Inferred cells) as [ints Hi _|ints Hi _|l state Hu Hseen Hsint _
                                              |l state Hu _|floats Hf|bools Hb Hnone
                                              |bools Hb Hnone|_].
    + destruct (Hno_int _ Hi).
    + destruct (Hno_int _ Hi).
    + exfalso. destruct (try_uint64_Converted _ _ _ _ Hu) as (_ & _ & _ & Hcells & _).
      destruct (Hcells cell Hin Hna) as (state1 & z & state2 & Hz & Hs & _).
      destruct (str_to_uint64_Converted _ _ _ _ Hz) as [-> | [Hz' _]]; [|congruence].
      rewrite Hs in Hsint by reflexivity. discriminate.
    + apply Hfail; [|exact I]. exists (VStr cell). split; [|exact Htext].
      cbn [values]. apply list_elem_of_fmap. eauto.
    + exfalso. apply mapM_Some in Hf. apply list_elem_of_lookup in Hin as [i Hi].
      destruct (Forall2_lookup_l _ _ _ _ _ Hf Hi) as (f & _ & Hcell).
      rewrite Hna, Hflt in Hcell. discriminate.
    + apply mapM_Some in Hb. apply list_elem_of_lookup in Hin as [i Hi].
      destruct (Forall2_lookup_l _ _ _ _ _ Hb Hi) as (o & Ho & Hcell).
      rewrite Hna in Hcell. destruct (str_to_bool cell) as [b|]; [|discriminate].
      injection Hcell as <-.
      apply Hfail; [|exact I]. exists (VBool b). split; [|reflexivity].
      simpl. apply list_elem_of_fmap. exists b. split; [reflexivity|].
      apply list_elem_of_omap. exists (Some b). split; [|reflexivity].
      apply list_elem_of_lookup; eauto.
    + apply mapM_Some in Hb. apply list_elem_of_lookup in Hin as [i Hi].
      destruct (Forall2_lookup_l _ _ _ _ _ Hb Hi) as (o & Ho & Hcell).
      rewrite Hna in Hcell. destruct (str_to_bool cell) as [b|]; [|discriminate].
      injection Hcell as <-.
      apply Hfail; [|exact I]. exists (VBool b). split; [|reflexivity].
      simpl. apply list_elem_of_fmap. exists (Some b). split; [reflexivity|].
      apply list_elem_of_lookup; eauto.
    + apply Hfail; [|exact I]. exists (VStr cell). auto.
Qed.

(** C7, amended: if the column named as the date column holds a value
    that is present and is not a number, [load_data] fails; and a
    failure of any stage of the load (reading the file, selecting the
    date column, converting it) is the failure of the load: none of them
    is caught, and no table is returned. *)
Theorem load_data_non_numeric_date fs path nrows col dtypes header recs j cell :
  col <> EmptyString ->
  read_records fs path nrows = Ok (header, recs) ->
  index_of col (column_names header) = Some j ->
  cell ∈ field j <$> recs ->
  numeric_cell cell = false ->
  missing_cell cell = false ->
  (exists e, load_data fs path nrows (Some col) dtypes = Raise e)
  /\ (forall fs' path' nrows' date_col' dtypes' e,
         read_csv fs' path' nrows' dtypes' = Raise e ->
         load_data fs' path' nrows' date_col' dtypes' = Raise e)
  /\ (forall fs' path' nrows' col' dtypes' data e,
         col' <> EmptyString ->
         read_csv fs' path' nrows' dtypes' = Ok data ->
         getitem data col' = Raise e ->
         load_data fs' path' nrows' (Some col') dtypes' = Raise e)
  /\ (forall fs' path' nrows' col' dtypes' data s e,
         col' <> EmptyString ->
         read_csv fs' path' nrows' dtypes' = Ok data ->
         getitem data col' = Ok s ->
         to_datetime s = Raise e ->
         load_data fs' path' nrows' (Some col') dtypes' = Raise e).
Proof.
  intros Hcol Hrec Hj Hcell Hnum Hmiss.
  assert (Htruthy : forall c, c <> EmptyString -> truthy (Some c) = true).
  { intros c Hc. cbn. destruct (String.eqb_spec c EmptyString); [contradiction|reflexivity]. }
  split; [|split; [|split]].
  - apply not_ok_Raise. unfold load_data, read_csv. rewrite Hrec. cbn [bind].
    rewrite (Htruthy _ Hcol).
    unfold getitem. cbn [columns]. rewrite (lookup_make_columns _ _ _ _ _ Hj). cbn [bind].
    destruct recs as [|rec recs]; [inversion Hcell|].
    pose proof (to_datetime_non_numeric (RangeIndex (length (rec :: recs)))
                  (dtype_of (column_dtypes header dtypes) col) _ _ Hcell Hnum Hmiss) as Hfail.
    destruct (to_datetime _); [discriminate|reflexivity].
  - intros fs' path' nrows' date_col' dtypes' e Hread. unfold load_data.
    rewrite Hread. reflexivity.
  - intros fs' path' nrows' col' dtypes' data e Hcol' Hread Hget. unfold load_data.
    rewrite Hread. cbn [bind]. rewrite (Htruthy _ Hcol'), Hget. reflexivity.
  - intros fs' path' nrows' col' dtypes' data s e Hcol' Hread Hget Hconv. unfold load_data.
    rewrite Hread. cbn [bind]. rewrite (Htruthy _ Hcol'), Hget. cbn [bind].
    rewrite Hconv. reflexivity.
Qed.

(** ** Equality of cells *)

Lemma SFeqb_true a b :
  SFeqb a b = true <-> a <> S754_nan /\ b <> S754_nan /\ SFcanon a = SFcanon b.
Proof.
  unfold SFeqb. split.
  - destruct a as [sa|sa| |sa ma ea], b as [sb|sb| |sb mb eb]; simpl; try discriminate;
      try (intros _; repeat split; congruence);
      try (destruct sa; discriminate); try (destruct sb; discriminate).
    + destruct sa, sb; try discriminate; intros _; repeat split; congruence.
    + destruct sa, sb; try discriminate;
        (destruct (Z.compare_spec ea eb) as [->|?|?]; try discriminate;
         destruct (Pos.compare_cont Eq ma mb) eqn:Hm; try discriminate;
         apply Pos.compare_eq_iff in Hm as ->; intros _; repeat split; congruence).
  - intros (Ha & Hb & Hc).
    destruct a as [sa|sa| |sa ma ea], b as [sb|sb| |sb mb eb]; simpl in *;
      try congruence; try reflexivity.
    + injection Hc as ->. destruct sb; reflexivity.
    + injection Hc as -> -> ->. rewrite Z.compare_refl, Pos.compare_cont_refl.
      destruct sb; reflexivity.
Qed.

Lemma float_eqb_sym x y : PrimFloat.eqb x y = PrimFloat.eqb y x.
Proof.
  rewrite !FloatAxioms.eqb_spec.
  destruct (SFeqb (Prim2SF x) (Prim2SF y)) eqn:H1,
           (SFeqb (Prim2SF y) (Prim2SF x)) eqn:H2; try reflexivity.
  - apply SFeqb_true in H1 as (? & ? & ?).
    assert (SFeqb (Prim2SF y) (Prim2SF x) = true) by (apply SFeqb_true; auto).
    congruence.
  - apply SFeqb_true in H2 as (? & ? & ?).
    assert (SFeqb (Prim2SF x) (Prim2SF y) = true) by (apply SFeqb_true; auto).
    congruence.
Qed.

Lemma float_eqb_trans x y z :
  PrimFloat.eqb x y = true -> PrimFloat.eqb y z = true -> PrimFloat.eqb x z = true.
Proof.
  rewrite !FloatAxioms.eqb_spec, !SFeqb_true. intros (? & ? & ?) (? & ? & ?).
  repeat split; congruence.
Qed.

Lemma value_eqb_sym a b : value_eqb a b = value_eqb b a.
Proof.
  destruct a, b; simpl; try reflexivity.
  - apply Z.eqb_sym.
  - apply float_eqb_sym.
  - destruct b, b0; reflexivity.
  - apply String.eqb_sym.
  - apply Z.eqb_sym.
Qed.

Lemma value_eqb_trans a b c :
  value_eqb a b = true -> value_eqb b c = true -> value_eqb a c = true.
Proof.
  destruct a, b; simpl; try discriminate; destruct c; simpl; try discriminate; try reflexivity.
  - rewrite !Z.eqb_eq. congruence.
  - apply float_eqb_trans.
  - destruct b, b0, b1; simpl; congruence.
  - rewrite !String.eqb_eq. congruence.
  - rewrite !Z.eqb_eq. congruence.
Qed.

Lemma value_eqb_refl_l a b : value_eqb a b = true -> value_eqb a a = true.
Proof.
  intros H. apply (value_eqb_trans a b a); [exact H|]. rewrite value_eqb_sym. exact H.
Qed.

(** ** Counting cells *)

Lemma count_value_nil v : count_value v [] = 0%nat.
Proof. reflexivity. Qed.

Lemma count_value_cons v w l :
  count_value v (w :: l) = ((if value_eqb v w then 1 else 0) + count_value v l)%nat.
Proof.
  unfold count_value. destruct (value_eqb v w) eqn:E.
  - rewrite filter_cons_True by (rewrite E; exact I). reflexivity.
  - rewrite filter_cons_False by (rewrite E; exact id). reflexivity.
Qed.

Lemma count_value_app v l1 l2 :
  count_value v (l1 ++ l2) = (count_value v l1 + count_value v l2)%nat.
Proof. unfold count_value. rewrite filter_app, length_app. reflexivity. Qed.

Lemma count_value_zero v l :
  (forall w, w ∈ l -> value_eqb v w = false) -> count_value v l = 0%nat.
Proof.
  induction l as [|w l IH]; intros H; [reflexivity|].
  rewrite count_value_cons, (H w) by left. rewrite IH; [reflexivity|].
  intros w' Hw'. apply H. right. exact Hw'.
Qed.

Lemma count_value_pos v w l :
  w ∈ l -> value_eqb v w = true -> (1 <= count_value v l)%nat.
Proof.
  induction l as [|x l IH]; intros Hin Hvw; [inversion Hin|].
  rewrite count_value_cons. apply elem_of_cons in Hin as [<-|Hin].
  - rewrite Hvw. lia.
  - specialize (IH Hin Hvw). lia.
Qed.

Lemma count_value_two v l j k a b :
  l !! j = Some a -> l !! k = Some b -> j <> k ->
  value_eqb v a = true -> value_eqb v b = true -> (2 <= count_value v l)%nat.
Proof.
  revert j k. induction l as [|x l IH]; intros j k Hj Hk Hne Ha Hb; [discriminate|].
  rewrite count_value_cons. destruct j as [|j], k as [|k]; simpl in *.
  - contradiction.
  - injection Hj as ->. rewrite Ha.
    assert (1 <= count_value v l)%nat; [|lia].
    eapply count_value_pos; [|exact Hb]. apply list_elem_of_lookup. eauto.
  - injection Hk as ->. rewrite Hb.
    assert (1 <= count_value v l)%nat; [|lia].
    eapply count_value_pos; [|exact Ha]. apply list_elem_of_lookup. eauto.
  - assert (2 <= count_value v l)%nat; [|lia].
    apply (IH j k); auto.
Qed.

(** ** [duplicated] *)

Lemma count_value_snoc v l w :
  count_value v (l ++ [w]) = (count_value v l + if value_eqb v w then 1 else 0)%nat.
Proof. rewrite count_value_app, count_value_cons, count_value_nil. lia. Qed.

(** The loop, started after the cells [pre] with a table and marks that
    describe [pre], ends with marks that describe all cells. *)
Lemma duplicated_loop_spec post : forall pre table out,
  length out = (length pre + length post)%nat ->
  (forall k x, pre !! k = Some x ->
               out !! k = Some (bool_decide (2 <= count_value x pre)%nat)) ->
  (forall k, (length pre <= k < length out)%nat -> out !! k = Some false) ->
  (forall v j, table_get v table = Some j ->
               exists w, pre !! j = Some w /\ value_eqb v w = true) ->
  (forall v, table_get v table = None -> forall w, w ∈ pre -> value_eqb v w = false) ->
  let res := duplicated_loop table out (length pre) post in
  length res = length out /\
  forall k x, (pre ++ post) !! k = Some x ->
              res !! k = Some (bool_decide (2 <= count_value x (pre ++ post))%nat).
Proof.
  induction post as [|v post IH]; intros pre table out Hlen Hpre Hpost Hsome Hnone.
  - simpl. split; [reflexivity|]. rewrite app_nil_r. exact Hpre.
  - simpl.
    assert (Hi : (length pre < length out)%nat) by (simpl in Hlen; lia).
    assert (Happ : (pre ++ [v]) ++ post = pre ++ v :: post).
    { rewrite <- app_assoc. reflexivity. }
    assert (Hlast : length (pre ++ [v]) = S (length pre)).
    { rewrite length_app. simpl. lia. }
    destruct (table_get v table) as [j|] eqn:Hget.
    + destruct (Hsome v j Hget) as (w & Hj & Hvw).
      assert (Hjlt : (j < length pre)%nat) by (eapply lookup_lt_Some; exact Hj).
      assert (Hvv : value_eqb v v = true) by (eapply value_eqb_refl_l; exact Hvw).
      assert (Hwv : value_eqb w v = true) by (rewrite value_eqb_sym; exact Hvw).
      assert (Hww : value_eqb w w = true) by (eapply value_eqb_refl_l; exact Hwv).
      assert (Hwin : w ∈ pre) by (apply list_elem_of_lookup; eauto).
      specialize (IH (pre ++ [v]) table (<[length pre:=true]> (<[j:=true]> out))).
      rewrite Hlast, Happ in IH. rewrite !length_insert in IH.
      apply IH; clear IH.
      * simpl in Hlen. lia.
      * intros k x Hk. rewrite count_value_snoc.
        destruct (decide (k = length pre)) as [->|Hki].
        { rewrite list_lookup_insert_eq by (rewrite length_insert; lia).
          rewrite list_lookup_middle in Hk by reflexivity. injection Hk as <-.
          rewrite Hvv. f_equal. symmetry. apply bool_decide_eq_true.
          pose proof (count_value_pos v w pre Hwin Hvw). lia. }
        rewrite list_lookup_insert_ne by congruence.
        assert (Hk' : pre !! k = Some x).
        { rewrite lookup_app_l in Hk; [exact Hk|].
          apply lookup_lt_Some in Hk. rewrite Hlast in Hk. lia. }
        destruct (decide (k = j)) as [->|Hkj].
        { rewrite list_lookup_insert_eq by lia.
          rewrite Hj in Hk'. injection Hk' as <-. rewrite Hwv.
          f_equal. symmetry. apply bool_decide_eq_true.
          pose proof (count_value_pos w w pre Hwin Hww). lia. }
        rewrite list_lookup_insert_ne by congruence. rewrite (Hpre k x Hk').
        f_equal. destruct (value_eqb x v) eqn:Hxv.
        { assert (Hxw : value_eqb x w = true) by (eapply value_eqb_trans; eauto).
          assert (Hxx : value_eqb x x = true) by (eapply value_eqb_refl_l; exact Hxv).
          pose proof (count_value_two x pre k j x w Hk' Hj Hkj Hxx Hxw).
          rewrite !bool_decide_eq_true_2 by lia. reflexivity. }
        { rewrite Nat.add_0_r. reflexivity. }
      * intros k Hk. rewrite !list_lookup_insert_ne by lia. apply Hpost. lia.
      * intros u j' Hu. destruct (Hsome u j' Hu) as (w' & Hj' & Huw').
        exists w'. split; [|exact Huw']. apply lookup_app_l_Some. exact Hj'.
      * intros u Hu w' Hw'. apply elem_of_app in Hw' as [Hw'|Hw'].
        { apply Hnone; assumption. }
        apply list_elem_of_singleton in Hw' as ->.
        destruct (value_eqb u v) eqn:Huv; [|reflexivity].
        rewrite <- (Hnone u Hu w Hwin). symmetry. eapply value_eqb_trans; eauto.
    + pose proof (Hnone v Hget) as Hv.
      specialize (IH (pre ++ [v]) ((v, length pre) :: table) out).
      rewrite Hlast, Happ in IH. apply IH; clear IH.
      * simpl in Hlen. lia.
      * intros k x Hk. rewrite count_value_snoc.
        destruct (decide (k = length pre)) as [->|Hki].
        { rewrite list_lookup_middle in Hk by reflexivity. injection Hk as <-.
          rewrite Hpost by lia. f_equal. symmetry. apply bool_decide_eq_false.
          rewrite (count_value_zero v pre Hv). destruct (value_eqb v v); lia. }
        assert (Hk' : pre !! k = Some x).
        { rewrite lookup_app_l in Hk; [exact Hk|].
          apply lookup_lt_Some in Hk. rewrite Hlast in Hk. lia. }
        rewrite (Hpre k x Hk'). f_equal.
        assert (Hxv : value_eqb x v = false).
        { rewrite value_eqb_sym. apply Hv. apply list_elem_of_lookup. eauto. }
        rewrite Hxv, Nat.add_0_r. reflexivity.
      * intros k Hk. apply Hpost. lia.
      * intros u j' Hu. simpl in Hu. destruct (value_eqb u v) eqn:Huv.
        { injection Hu as <-. exists v. split; [|exact Huv].
          apply list_lookup_middle. reflexivity. }
        destruct (Hsome u j' Hu) as (w' & Hj' & Huw').
        exists w'. split; [|exact Huw']. apply lookup_app_l_Some. exact Hj'.
      * intros u Hu w' Hw'. simpl in Hu. destruct (value_eqb u v) eqn:Huv; [discriminate|].
        apply elem_of_app in Hw' as [Hw'|Hw'].
        { apply Hnone; assumption. }
        apply list_elem_of_singleton in Hw' as ->. exact Huv.
Qed.

(** [duplicated] marks exactly the cells that occur twice or more. *)
Lemma duplicated_spec s :
  duplicated s
  = (fun v => bool_decide (2 <= count_value v (values (s_values s)))%nat)
      <$> values (s_values s).
Proof.
  unfold duplicated. set (vals := values (s_values s)).
  destruct (duplicated_loop_spec vals [] [] (replicate (length vals) false))
    as [Hlen Hres].
  - rewrite length_replicate. reflexivity.
  - intros k x Hk. discriminate.
  - intros k Hk. rewrite length_replicate in Hk.
    apply lookup_replicate. split; [reflexivity|lia].
  - intros v j Hv. discriminate.
  - intros v _ w Hw. inversion Hw.
  - simpl in Hlen, Hres. rewrite length_replicate in Hlen.
    apply list_eq. intros k. rewrite list_lookup_fmap.
    destruct (vals !! k) as [x|] eqn:Hk; simpl.
    + apply Hres. exact Hk.
    + apply lookup_ge_None. rewrite Hlen. apply lookup_ge_None. exact Hk.
Qed.

(** ** Selecting rows *)

Lemma select_imap {A B} (f : nat -> A -> B) mask l :
  select mask (imap f l) = imap (fun i x => f (nth_true mask i) x) (select mask l).
Proof.
  revert f l. induction mask as [|b mask IH]; intros f l; [reflexivity|].
  destruct l as [|x l]; [destruct b; reflexivity|]. simpl.
  destruct b; simpl.
  - f_equal. apply (IH (f ∘ S)).
  - apply (IH (f ∘ S)).
Qed.

Lemma select_lookup {A B} mask (l0 : list A) (l : list B) i :
  (i < length (select mask l0))%nat ->
  select mask l !! i = l !! nth_true mask i.
Proof.
  revert l0 l i. induction mask as [|b mask IH]; intros l0 l i Hi; [simpl in Hi; lia|].
  destruct l0 as [|x0 l0]; [destruct b; simpl in Hi; lia|].
  destruct l as [|y l]; [destruct b; reflexivity|].
  destruct b; simpl in *.
  - destruct i as [|i]; [reflexivity|]. simpl. apply (IH l0). lia.
  - apply (IH l0). exact Hi.
Qed.

Lemma select_fmap {A B} (f : A -> B) mask l :
  select mask (f <$> l) = f <$> select mask l.
Proof.
  revert l. induction mask as [|b mask IH]; intros l; [reflexivity|].
  destruct l as [|x l]; [destruct b; reflexivity|]. simpl.
  destruct b; simpl; [f_equal|]; apply IH.
Qed.

Lemma values_select_column mask c :
  values (select_column mask c) = select mask (values c).
Proof. destruct c; cbn [values select_column]; rewrite ?select_fmap; reflexivity. Qed.

(** The rows of a table indexed with a mask are the rows of the table at
    the true positions of the mask. *)
Lemma rows_getitem_mask df mask :
  rows (getitem_mask df mask) = select mask (rows df).
Proof.
  unfold rows. rewrite select_imap. simpl. apply imap_ext.
  intros i label Hi. f_equal. unfold row. simpl.
  rewrite <- list_fmap_compose. apply list_fmap_ext.
  intros _ [k c] _. simpl. rewrite values_select_column.
  apply (select_lookup mask (index df)). eapply lookup_lt_Some. exact Hi.
Qed.

Lemma elem_of_select {A} mask (l : list A) x :
  x ∈ select mask l <-> exists i, mask !! i = Some true /\ l !! i = Some x.
Proof.
  revert l. induction mask as [|b mask IH]; intros l; simpl.
  - split; [inversion 1|intros (i & Hi & _); discriminate].
  - destruct l as [|y l].
    + split; [destruct b; inversion 1|intros (i & _ & Hi); discriminate].
    + destruct b.
      * rewrite elem_of_cons, IH. split.
        -- intros [->|(i & Hm & Hl)]; [exists 0%nat; auto|exists (S i); auto].
        -- intros ([|i] & Hm & Hl); simpl in *; [left; congruence|right; eauto].
      * rewrite IH. split.
        -- intros (i & Hm & Hl). exists (S i). auto.
        -- intros ([|i] & Hm & Hl); simpl in *; [discriminate|eauto].
Qed.



(** ** The author frequency table *)

Lemma imap_pair_fst {A} (l : list A) (off : nat) :
  (imap (fun i v => (off + i, v)%nat) l).*1 = seq off (length l).
Proof.
  revert off. induction l as [|x l IH]; intros off; simpl; [reflexivity|].
  rewrite Nat.add_0_r. f_equal. rewrite <- (IH (S off)). f_equal.
  apply imap_ext. intros i v _. simpl. f_equal. lia.
Qed.

Lemma take_at_seq {A} (l l' : list A) :
  take_at (seq (length l') (length l)) (l' ++ l) = l.
Proof.
  revert l'. induction l as [|x l IH]; intros l'; [reflexivity|].
  unfold take_at in *. simpl. rewrite list_lookup_middle by reflexivity.
  f_equal. specialize (IH (l' ++ [x])). rewrite length_app, <- app_assoc in IH.
  simpl in IH. rewrite Nat.add_1_r in IH. exact IH.
Qed.

Lemma take_at_Permutation {A} (idx idx' : list nat) (l : list A) :
  idx ≡ₚ idx' -> take_at idx l ≡ₚ take_at idx' l.
Proof. intros H. unfold take_at. rewrite H. reflexivity. Qed.

Lemma take_at_fmap {A B} (f : A -> B) idx (l : list A) :
  take_at idx (f <$> l) = f <$> take_at idx l.
Proof.
  unfold take_at. induction idx as [|i idx IH]; simpl; [reflexivity|].
  rewrite list_lookup_fmap. destruct (l !! i); simpl; [f_equal|]; exact IH.
Qed.

(** The positions in descending order are a rearrangement of all
    positions. *)
Lemma argsort_descending_Permutation vals :
  argsort_descending vals ≡ₚ seq 0 (length vals).
Proof.
  unfold argsort_descending.
  set (cells := imap (fun i v => (i, v)) vals).
  rewrite isort_Permutation.
  assert (Hsplit : forall (l : list (nat * Value)),
            filter (fun iv => negb (isna iv.2)) l ++ filter (fun iv => isna iv.2) l ≡ₚ l).
  { induction l as [|x l IH]; [reflexivity|].
    destruct (isna x.2) eqn:E.
    - rewrite filter_cons_False by (rewrite E; exact id).
      rewrite filter_cons_True by (rewrite E; exact I).
      rewrite <- Permutation_middle. f_equiv. exact IH.
    - rewrite filter_cons_True by (rewrite E; exact I).
      rewrite filter_cons_False by (rewrite E; exact id).
      simpl. f_equiv. exact IH. }
  rewrite Hsplit. subst cells. rewrite <- (imap_pair_fst vals 0). reflexivity.
Qed.

Lemma take_at_argsort {A} vals (l : list A) :
  length l = length vals -> take_at (argsort_descending vals) l ≡ₚ l.
Proof.
  intros Hlen. rewrite (take_at_Permutation _ _ _ (argsort_descending_Permutation vals)).
  rewrite <- Hlen. pose proof (take_at_seq l []) as H. simpl in H. rewrite H. reflexivity.
Qed.

(** What [author_freq] returns. *)
Lemma author_freq_Ok articles_df authors :
  getitem articles_df "authorPersonId" = Ok authors ->
  let vals := values (s_values authors) in
  let keys := group_keys (s_values authors) in
  let sizes := (fun k => Z.of_nat (count_value k vals)) <$> keys in
  let idx := argsort_descending (VInt <$> sizes) in
  let num := take_at idx sizes in
  let total := wrap_int64 (foldl Z.add 0 num) in
  author_freq articles_df
  = Ok (mkDataFrame (take_at idx keys)
          [ ("num_articles", Int64 num);
            ("percent",
             Float64 ((fun x => PrimFloat.mul x (float_of_Z 100))
                        <$> ((fun x => PrimFloat.div x (float_of_Z total))
                               <$> (float_of_Z <$> num)))) ]%string).
Proof.
  intros Hget. unfold author_freq, groupby_size. rewrite Hget. reflexivity.
Qed.

(** ** Group keys *)

Lemma isna_false_refl v : isna v = false -> value_eqb v v = true.
Proof.
  destruct v; simpl; try discriminate; intros H.
  - apply Z.eqb_refl.
  - unfold is_nan in H. destruct (PrimFloat.eqb f f); [reflexivity|discriminate].
  - destruct b; reflexivity.
  - apply String.eqb_refl.
  - apply Z.eqb_refl.
Qed.

Lemma value_eqb_true_isna k v :
  value_eqb k v = true -> isna k = false -> isna v = false.
Proof.
  intros H Hk. assert (Hv : value_eqb v v = true).
  { apply (value_eqb_refl_l v k). rewrite value_eqb_sym. exact H. }
  destruct v; simpl in *; try reflexivity; try (destruct k; discriminate).
  unfold is_nan. rewrite Hv. reflexivity.
Qed.

Lemma filter_length_ext {A} (P Q : A -> bool) l :
  (forall x, x ∈ l -> P x = Q x) ->
  length (filter (fun x => P x) l) = length (filter (fun x => Q x) l).
Proof.
  induction l as [|x l IH]; intros H; [reflexivity|].
  assert (IH' : length (filter (fun x => P x) l) = length (filter (fun x => Q x) l)).
  { apply IH. intros y Hy. apply H. right. exact Hy. }
  pose proof (H x ltac:(left)) as Hx.
  destruct (P x) eqn:HP.
  - rewrite !filter_cons_True by (rewrite ?HP, <- ?Hx; exact I). simpl. lia.
  - rewrite !filter_cons_False by (rewrite ?HP, <- ?Hx; exact id). exact IH'.
Qed.

Lemma filter_length_zero {A} (P : A -> bool) l :
  (forall x, x ∈ l -> P x = false) -> length (filter (fun x => P x) l) = 0%nat.
Proof.
  induction l as [|x l IH]; intros H; [reflexivity|].
  rewrite filter_cons_False by (rewrite (H x) by left; exact id).
  apply IH. intros y Hy. apply H. right. exact Hy.
Qed.

Lemma filter_filter_length {A} (P Q : A -> bool) l :
  (forall x, x ∈ l -> P x = true -> Q x = true) ->
  length (filter (fun x => P x) (filter (fun x => Q x) l))
  = length (filter (fun x => P x) l).
Proof.
  induction l as [|x l IH]; intros H; [reflexivity|].
  assert (IH' : length (filter (fun x => P x) (filter (fun x => Q x) l))
                = length (filter (fun x => P x) l)).
  { apply IH. intros y Hy. apply H. right. exact Hy. }
  pose proof (H x ltac:(left)) as Hx.
  destruct (P x) eqn:HP.
  - rewrite (filter_cons_True (fun x => Q x)) by (rewrite Hx by reflexivity; exact I).
    rewrite !filter_cons_True by (rewrite HP; exact I). simpl. lia.
  - rewrite (filter_cons_False (fun x => P x)) by (rewrite HP; exact id).
    destruct (Q x) eqn:HQ.
    + rewrite (filter_cons_True (fun x => Q x)) by (rewrite HQ; exact I).
      rewrite filter_cons_False by (rewrite HP; exact id). exact IH'.
    + rewrite (filter_cons_False (fun x => Q x)) by (rewrite HQ; exact id). exact IH'.
Qed.

(** Each of the distinct elements of a list matches itself only. *)
Lemma unique_count l k :
  (forall x, x ∈ l -> value_eqb x x = true) ->
  k ∈ unique value_eqb l ->
  length (filter (fun k' => value_eqb k' k) (unique value_eqb l)) = 1%nat.
Proof.
  revert k. induction l as [|x l IH]; intros k Hrefl Hk; [inversion Hk|].
  assert (Hrefl' : forall y, y ∈ l -> value_eqb y y = true).
  { intros y Hy. apply Hrefl. right. exact Hy. }
  simpl in Hk |- *. apply elem_of_cons in Hk as [->|Hk].
  - rewrite filter_cons_True by (rewrite Hrefl by left; exact I). simpl. f_equal.
    apply filter_length_zero. intros y Hy. apply list_elem_of_filter in Hy as [Hxy _].
    rewrite value_eqb_sym. destruct (value_eqb x y); [contradiction|reflexivity].
  - apply list_elem_of_filter in Hk as [Hxk Hk].
    assert (Hxk' : value_eqb x k = false) by (destruct (value_eqb x k); [contradiction|reflexivity]).
    rewrite filter_cons_False by (rewrite Hxk'; exact id).
    rewrite <- (IH k Hrefl' Hk).
    apply (filter_filter_length (fun k' => value_eqb k' k) (fun y => negb (value_eqb x y))).
    intros k' _ Hk'. destruct (value_eqb x k') eqn:Hxk''; [|reflexivity].
    rewrite (value_eqb_trans x k' k Hxk'' Hk') in Hxk'. discriminate.
Qed.

Lemma NoDup_count_string (cats : list string) s :
  NoDup cats -> s ∈ cats ->
  length (filter (fun k' => value_eqb k' (VStr s)) (VStr <$> cats)) = 1%nat.
Proof.
  induction 1 as [|x cats Hx Hnd IH]; intros Hs; [inversion Hs|].
  rewrite fmap_cons. apply elem_of_cons in Hs as [->|Hs].
  - rewrite filter_cons_True by (simpl; rewrite String.eqb_refl; exact I).
    simpl. f_equal. apply filter_length_zero. intros y Hy.
    apply list_elem_of_fmap in Hy as (y' & -> & Hy'). simpl.
    destruct (String.eqb_spec y' x) as [->|]; [contradiction|reflexivity].
  - rewrite filter_cons_False; [exact (IH Hs)|].
    simpl. destruct (String.eqb_spec x s) as [->|]; [contradiction|exact id].
Qed.

(** The group keys of a column are group keys for its cells. *)
Lemma group_keys_spec c : valid_column c -> keys_of (group_keys c) (values c).
Proof.
  intros Hvalid.
  assert (Hgen : keys_of (isort value_leb (unique value_eqb
                   (filter (fun v => negb (isna v)) (values c)))) (values c)).
  { set (present := filter (fun v => negb (isna v)) (values c)).
    assert (Hpresent : forall v, v ∈ present -> isna v = false).
    { intros v Hv. apply list_elem_of_filter in Hv as [Hv _].
      destruct (isna v); [contradiction|reflexivity]. }
    assert (Hrefl : forall v, v ∈ present -> value_eqb v v = true).
    { intros v Hv. apply isna_false_refl, Hpresent, Hv. }
    split; [|split].
    - intros k Hk. rewrite isort_Permutation in Hk.
      apply Hpresent. eapply elem_of_unique. exact Hk.
    - intros k Hk. rewrite isort_Permutation in Hk |- *.
      apply unique_count; assumption.
    - intros v Hv Hna.
      destruct (unique_covers value_eqb v present value_eqb_trans) as (k & Hk & Hkv).
      + apply isna_false_refl, Hna.
      + apply list_elem_of_filter. rewrite Hna. split; [exact I|exact Hv].
      + exists k. rewrite isort_Permutation. auto. }
  destruct c; try exact Hgen.
  simpl in Hvalid |- *. split; [|split].
  - intros k Hk. apply list_elem_of_fmap in Hk as (s & -> & _). reflexivity.
  - intros k Hk. apply list_elem_of_fmap in Hk as (s & -> & Hs).
    apply NoDup_count_string; assumption.
  - intros v Hv Hna. apply list_elem_of_fmap in Hv as (code & -> & _).
    unfold value_of_code in Hna |- *. destruct (code <? 0); [discriminate|].
    destruct (categories !! Z.to_nat code) as [s|] eqn:Hs; [|discriminate].
    exists (VStr s). split.
    + apply list_elem_of_fmap. exists s. split; [reflexivity|].
      apply list_elem_of_lookup. eauto.
    + simpl. apply String.eqb_refl.
Qed.

(** ** Sums *)

Lemma foldl_Zadd a l : foldl Z.add a l = a + foldr Z.add 0 l.
Proof.
  revert a. induction l as [|x l IH]; intros a; simpl; [lia|]. rewrite IH. lia.
Qed.

Lemma sumZ_Permutation l l' : l ≡ₚ l' -> foldr Z.add 0 l = foldr Z.add 0 l'.
Proof. induction 1; simpl; lia. Qed.

Lemma wrap_int64_small z : INT64_MIN <= z <= INT64_MAX -> wrap_int64 z = z.
Proof.
  unfold wrap_int64, INT64_MIN, INT64_MAX. intros H.
  rewrite Z.mod_small by lia. lia.
Qed.

(** The sizes of the groups add up to the number of cells that are not
    missing. *)
Lemma sum_sizes keys vals :
  keys_of keys vals ->
  foldr Z.add 0 ((fun k => Z.of_nat (count_value k vals)) <$> keys)
  = Z.of_nat (length (filter (fun v => negb (isna v)) vals)).
Proof.
  intros (Hna & Hone & Hcover). induction vals as [|v vals IH].
  - clear. induction keys as [|k keys IH]; [reflexivity|].
    rewrite fmap_cons. cbn [foldr]. rewrite IH. reflexivity.
  - assert (Hsplit : foldr Z.add 0 ((fun k => Z.of_nat (count_value k (v :: vals))) <$> keys)
                     = Z.of_nat (length (filter (fun k => value_eqb k v) keys))
                       + foldr Z.add 0 ((fun k => Z.of_nat (count_value k vals)) <$> keys)).
    { clear. induction keys as [|k keys IH]; [reflexivity|].
      rewrite !fmap_cons. simpl foldr. rewrite IH, count_value_cons.
      destruct (value_eqb k v) eqn:E.
      - rewrite filter_cons_True by (rewrite E; exact I). simpl length. lia.
      - rewrite filter_cons_False by (rewrite E; exact id). lia. }
    rewrite Hsplit, IH by (intros w Hw; apply Hcover; right; exact Hw). clear Hsplit IH.
    destruct (isna v) eqn:Hv.
    + rewrite filter_cons_False by (rewrite Hv; exact id).
      rewrite filter_length_zero; [reflexivity|].
      intros k Hk. destruct (value_eqb k v) eqn:E; [|reflexivity].
      rewrite (value_eqb_true_isna k v E (Hna k Hk)) in Hv. discriminate.
    + rewrite filter_cons_True by (rewrite Hv; exact I).
      destruct (Hcover v ltac:(left) Hv) as (k0 & Hk0 & Hk0v).
      rewrite (filter_length_ext (fun k => value_eqb k v) (fun k => value_eqb k k0)).
      * rewrite (Hone k0 Hk0). simpl length. lia.
      * intros k _. destruct (value_eqb k k0) eqn:E.
        -- eapply value_eqb_trans; eauto.
        -- destruct (value_eqb k v) eqn:E'; [|reflexivity].
           rewrite <- E. symmetry. apply (value_eqb_trans k v k0 E').
           rewrite value_eqb_sym. exact Hk0v.
Qed.


(** ** Loaded tables are well formed *)

Lemma values_length c : length (values c) = column_length c.
Proof. destruct c; simpl; rewrite ?length_fmap; reflexivity. Qed.

Lemma omap_id_length {A} (l : list (option A)) :
  None ∉ l -> length (omap id l) = length l.
Proof.
  induction l as [|[x|] l IH]; intros H; simpl.
  - reflexivity.
  - f_equal. apply IH. intros Hin. apply H. right. exact Hin.
  - exfalso. apply H. left.
Qed.

Lemma mapM_length {A B} (f : A -> option B) l k : mapM f l = Some k -> length k = length l.
Proof. intros H. apply mapM_Some in H. symmetry. eapply Forall2_length. exact H. Qed.

Lemma convert_column_length dt cells :
  column_length (convert_column dt cells) = length cells.
Proof.
  destruct dt as [[|]|]; simpl; rewrite ?length_fmap; try reflexivity.
  destruct (infer_column_Inferred cells)
    as [ints Hi Hna|ints Hi _|l state Hu _ _ _|l state _ _|floats Hf|bools Hb Hna
       |bools Hb _|_]; cbn [column_length]; rewrite ?length_fmap.
  - rewrite omap_id_length by exact Hna. apply try_int64_length, Hi.
  - apply try_int64_length, Hi.
  - apply try_uint64_Converted in Hu as [Hlen _]. exact Hlen.
  - reflexivity.
  - apply mapM_length in Hf. exact Hf.
  - rewrite omap_id_length by exact Hna. apply mapM_length in Hb. exact Hb.
  - apply mapM_length in Hb. exact Hb.
  - reflexivity.
Qed.

Lemma convert_column_valid dt cells : valid_column (convert_column dt cells).
Proof.
  destruct dt as [[|]|]; simpl; try exact I.
  - destruct (categorical_convert_labels cells) as (cats & codes & Hc & Hnd & _).
    unfold categorical_convert in Hc |- *. injection Hc as Hcats _.
    simpl. rewrite Hcats. exact Hnd.
  - destruct (infer_column_Inferred cells); exact I.
Qed.

Lemma make_columns_wf dtype names recs :
  Forall (fun kc => column_length kc.2 = length recs /\ valid_column kc.2)
         (make_columns dtype names recs).
Proof.
  unfold make_columns.
  assert (H : forall (g : nat -> string -> Column),
             (forall j k, column_length (g j k) = length recs /\ valid_column (g j k)) ->
             Forall (fun kc => column_length kc.2 = length recs /\ valid_column kc.2)
                    (imap (fun j k => (k, g j k)) names)).
  { induction names as [|k names IH]; intros g Hg; simpl; constructor.
    - apply Hg.
    - apply (IH (fun j => g (S j))). intros j k'. apply Hg. }
  apply (H (fun j name => match recs with
                          | [] => empty_column (dtype_of dtype name)
                          | _ => convert_column (dtype_of dtype name) (field j <$> recs)
                          end)).
  intros j k. destruct recs as [|rec recs].
  - destruct (dtype_of dtype k) as [[|]|]; simpl; repeat split; constructor.
  - rewrite convert_column_length, length_fmap. split; [reflexivity|].
    apply convert_column_valid.
Qed.

Lemma to_datetime_wf s dt :
  to_datetime s = Ok dt ->
  column_length (s_values dt) = column_length (s_values s) /\ valid_column (s_values dt).
Proof.
  unfold to_datetime. intros H. apply bind_Ok in H as (l & Hl & [= <-]). simpl.
  split; [|exact I].
  destruct (s_values s) as [l'|l'|l'|l'|l'|cats codes|l'];
    try (apply traverse_Ok_length in Hl; rewrite Hl, ?values_length; reflexivity).
  - destruct unit_converts_categorical; [|discriminate].
    apply traverse_Ok_length in Hl. rewrite Hl, values_length. reflexivity.
  - injection Hl as <-. reflexivity.
Qed.

Lemma replace_column_Forall (P : string * Column -> Prop) name c cols :
  Forall P cols -> (forall k, P (k, c)) -> Forall P (replace_column name c cols).
Proof.
  intros Hcols Hc. induction Hcols as [|[k c'] cols Hk Hcols IH]; simpl.
  - constructor; [apply Hc|constructor].
  - destruct (String.eqb name k); constructor; auto.
Qed.

Lemma lookup_column_Forall (P : string * Column -> Prop) name c cols :
  Forall P cols -> lookup_column name cols = Some c -> exists k, P (k, c).
Proof.
  induction 1 as [|[k c'] cols Hk _ IH]; simpl; [discriminate|].
  destruct (String.eqb name k); [|exact IH]. intros [= <-]. eauto.
Qed.

(** A loaded table has one cell per row in every column, and the labels
    of its categorical columns are distinct. *)
Lemma load_data_wf fs path nrows date_col dtypes df :
  load_data fs path nrows date_col dtypes = Ok df ->
  Forall (fun kc => column_length kc.2 = length (index df) /\ valid_column kc.2)
         (columns df).
Proof.
  intros H. apply load_data_Ok in H as (data & Hdata & H).
  apply read_csv_Ok in Hdata as (names & recs & _ & ->).
  assert (Hidx : length (RangeIndex (length recs)) = length recs).
  { unfold RangeIndex. rewrite length_fmap, length_seq. reflexivity. }
  pose proof (make_columns_wf (column_dtypes names dtypes) (column_names names) recs) as Hwf.
  destruct (truthy date_col).
  - destruct H as (col & s & dt & _ & Hs & Hdt & ->). simpl. rewrite Hidx.
    apply to_datetime_wf in Hdt as [Hlen Hvalid].
    unfold getitem in Hs. simpl in Hs.
    destruct (lookup_column col _) as [c|] eqn:Hc; [|discriminate].
    injection Hs as <-. simpl in Hlen.
    destruct (lookup_column_Forall _ _ _ _ Hwf Hc) as (k & Hk & _). simpl in Hk.
    apply replace_column_Forall; [exact Hwf|]. intros k'. simpl.
    split; [congruence|exact Hvalid].
  - subst df. simpl. rewrite Hidx. exact Hwf.
Qed.

(** ** Shares of the total *)

Lemma float_of_Z_100 : float_of_Z 100 = 100%float.
Proof. reflexivity. Qed.

Lemma exact_percent_sum (l : list Z) (total : Z) :
  (foldr Qplus 0%Q ((fun n => exact_percent n total) <$> l)
   == exact_percent (foldr Z.add 0%Z l) total)%Q.
Proof.
  unfold exact_percent. induction l as [|n l IH].
  - simpl. unfold Qeq. simpl. reflexivity.
  - rewrite fmap_cons. cbn [foldr]. rewrite IH.
    rewrite <- Qmult_plus_distr_l, Qinv_plus_distr. reflexivity.
Qed.

Lemma exact_percent_total (total : Z) : 0 < total -> (exact_percent total total == 100)%Q.
Proof.
  intros H. unfold exact_percent, Qeq, Qmult. simpl.
  rewrite Pos2Z.inj_mul, Z2Pos.id by exact H. ring.
Qed.

(** The author frequency table of a loaded table. *)
Lemma author_freq_loaded fs path nrows date_col dtypes articles_df authors :
  load_data fs path nrows date_col dtypes = Ok articles_df ->
  getitem articles_df "authorPersonId" = Ok authors ->
  Z.of_nat (length (index articles_df)) <= INT64_MAX ->
  let vals := values (s_values authors) in
  let keys := group_keys (s_values authors) in
  let sizes := (fun k => Z.of_nat (count_value k vals)) <$> keys in
  let idx := argsort_descending (VInt <$> sizes) in
  let total := Z.of_nat (length (filter (fun v => negb (isna v)) vals)) in
  keys_of keys vals /\
  foldr Z.add 0 (take_at idx sizes) = total /\
  author_freq articles_df
  = Ok (mkDataFrame (take_at idx keys)
          [ ("num_articles", Int64 (take_at idx sizes));
            ("percent",
             Float64 ((fun n => (float_of_Z n / float_of_Z total * 100)%float)
                        <$> take_at idx sizes)) ]%string).
Proof.
  intros Hload Hget Hrows vals keys sizes idx total.
  pose proof (load_data_wf _ _ _ _ _ _ Hload) as Hwf.
  unfold getitem in Hget.
  destruct (lookup_column "authorPersonId" (columns articles_df)) as [c|] eqn:Hc;
    [|discriminate].
  destruct (lookup_column_Forall _ _ _ _ Hwf Hc) as (k & Hlen & Hvalid). simpl in Hlen, Hvalid.
  assert (Hkeys : keys_of keys vals).
  { subst keys vals. injection Hget as <-. simpl. apply group_keys_spec, Hvalid. }
  assert (Hperm : take_at idx sizes ≡ₚ sizes).
  { apply take_at_argsort. rewrite length_fmap. reflexivity. }
  assert (Hsum : foldr Z.add 0 (take_at idx sizes) = total).
  { rewrite (sumZ_Permutation _ _ Hperm). apply sum_sizes, Hkeys. }
  split; [exact Hkeys|]. split; [exact Hsum|].
  assert (Hgetitem : getitem articles_df "authorPersonId" = Ok authors).
  { unfold getitem. rewrite Hc. exact Hget. }
  rewrite (author_freq_Ok _ _ Hgetitem). fold vals keys sizes idx.
  rewrite foldl_Zadd, Z.add_0_l, Hsum, wrap_int64_small.
  - rewrite <- !list_fmap_compose. reflexivity.
  - subst total vals. injection Hget as <-. simpl.
    pose proof (length_filter (fun v => negb (isna v)) (values c)) as Hle.
    rewrite values_length, Hlen in Hle. unfold INT64_MIN. lia.
Qed.

(** C10, amended: rows with a missing author are in no group of the
    author frequency table; the article counts of the groups add up to
    the number of rows with an author; each percent is the count divided
    by that number, times 100, in binary64 arithmetic; and in exact
    arithmetic these shares add up to 100 when a row has an author. *)
Theorem author_freq_percent fs path nrows date_col dtypes articles_df authors :
  load_data fs path nrows date_col dtypes = Ok articles_df ->
  getitem articles_df "authorPersonId" = Ok authors ->
  Z.of_nat (length (index articles_df)) <= INT64_MAX ->
  let present := filter (fun v => negb (isna v)) (values (s_values authors)) in
  let total := Z.of_nat (length present) in
  exists r num,
    author_freq articles_df = Ok r /\
    columns r
    = [ ("num_articles", Int64 num);
        ("percent",
         Float64 ((fun n => (float_of_Z n / float_of_Z total * 100)%float) <$> num))
      ]%string /\
    length (index r) = length num /\
    (forall k, k ∈ index r -> isna k = false) /\
    foldr Z.add 0 num = total /\
    (present <> [] ->
     (foldr Qplus 0%Q ((fun n => exact_percent n total) <$> num) == 100)%Q).
Proof.
  intros Hload Hget Hrows present total.
  destruct (author_freq_loaded _ _ _ _ _ _ _ Hload Hget Hrows)
    as ((Hna & Hone & Hcover) & Hsum & Hfreq).
  eexists _, _. split; [exact Hfreq|]. cbn [columns index].
  split; [reflexivity|].
  set (vals := values (s_values authors)) in *.
  set (keys := group_keys (s_values authors)) in *.
  set (sizes := (fun k => Z.of_nat (count_value k vals)) <$> keys) in *.
  set (idx := argsort_descending (VInt <$> sizes)) in *.
  assert (Hlen : length sizes = length (VInt <$> sizes)) by (rewrite length_fmap; reflexivity).
  assert (Hlenk : length keys = length (VInt <$> sizes)).
  { subst sizes. rewrite !length_fmap. reflexivity. }
  pose proof (take_at_argsort (VInt <$> sizes) sizes Hlen) as Hps.
  pose proof (take_at_argsort (VInt <$> sizes) keys Hlenk) as Hpk.
  fold idx in Hps, Hpk.
  split; [|split; [|split]].
  - rewrite Hps, Hpk. subst sizes. rewrite length_fmap. reflexivity.
  - intros k Hk. rewrite Hpk in Hk. apply Hna, Hk.
  - exact Hsum.
  - intros Hne. rewrite exact_percent_sum, Hsum. apply exact_percent_total.
    subst total. destruct present; [contradiction|simpl; lia].
Qed.

(** ** The first row of the ranking *)

(** An element that goes before every other element of a list is the
    first element of the sorted list. *)
Lemma isort_head_first {A} (leb : A -> A -> bool) (l : list A) (m : A) :
  m ∈ l ->
  (forall y, y ∈ l -> leb m y = true) ->
  (forall y, y ∈ l -> leb y m = true -> y = m) ->
  head (isort leb l) = Some m.
Proof.
  induction l as [|x l IH]; intros Hm Hle Hfirst; [inversion Hm|].
  simpl. apply elem_of_cons in Hm as [<-|Hm].
  - destruct (isort leb l) as [|z s] eqn:Hs; [reflexivity|]. simpl.
    assert (Hz : z ∈ l).
    { rewrite <- (isort_Permutation leb l), Hs. left. }
    rewrite (Hle z) by (right; exact Hz). reflexivity.
  - assert (IH' : head (isort leb l) = Some m).
    { apply IH; [exact Hm| |].
      - intros y Hy. apply Hle. right. exact Hy.
      - intros y Hy. apply Hfirst. right. exact Hy. }
    destruct (isort leb l) as [|z s]; [discriminate|]. injection IH' as ->.
    simpl. destruct (leb x m) eqn:E; [|reflexivity].
    rewrite (Hfirst x) by (left || exact E). reflexivity.
Qed.

Lemma filter_all {A} (P : A -> bool) (l : list A) :
  (forall x, x ∈ l -> P x = true) -> filter (fun x => P x) l = l.
Proof.
  induction l as [|x l IH]; intros H; [reflexivity|].
  rewrite filter_cons_True by (rewrite H by left; exact I).
  f_equal. apply IH. intros y Hy. apply H. right. exact Hy.
Qed.

Lemma filter_none {A} (P : A -> bool) (l : list A) :
  (forall x, x ∈ l -> P x = false) -> filter (fun x => P x) l = [].
Proof.
  induction l as [|x l IH]; intros H; [reflexivity|].
  rewrite filter_cons_False by (rewrite H by left; exact id).
  apply IH. intros y Hy. apply H. right. exact Hy.
Qed.

(** The largest of the group sizes, if no other size equals it, comes
    first in descending order. *)
Lemma argsort_descending_head (sizes : list Z) p n :
  sizes !! p = Some n ->
  (forall q n', sizes !! q = Some n' -> q <> p -> n' < n) ->
  head (argsort_descending (VInt <$> sizes)) = Some p.
Proof.
  intros Hp Hmax. unfold argsort_descending.
  set (cells := imap (fun i v => (i, v)) (VInt <$> sizes)).
  assert (Hcells : forall iv, iv ∈ cells <-> exists n', iv = (iv.1, VInt n')
                                               /\ sizes !! iv.1 = Some n').
  { intros [i v]. unfold cells. rewrite elem_of_lookup_imap. simpl. split.
    - intros (i' & v' & [= -> ->] & Hv). rewrite list_lookup_fmap in Hv.
      destruct (sizes !! i') as [n'|]; [|discriminate]. injection Hv as <-. eauto.
    - intros (n' & [= ->] & Hn'). exists i, (VInt n'). split; [reflexivity|].
      rewrite list_lookup_fmap, Hn'. reflexivity. }
  rewrite (filter_all (fun iv => negb (isna iv.2)) cells),
          (filter_none (fun iv => isna iv.2) cells).
  - rewrite app_nil_r.
    assert (Hh : head (isort (fun x y : nat * Value => value_leb y.2 x.2) cells)
                 = Some (p, VInt n)); [apply isort_head_first|].
    4: { destruct (isort _ cells) as [|z s]; [discriminate|]. injection Hh as ->. reflexivity. }
    + apply Hcells. simpl. eauto.
    + intros iv Hiv. apply Hcells in Hiv as (n' & -> & Hn'). simpl in *.
      apply Z.leb_le. destruct (decide (iv.1 = p)) as [Heq|Hne].
      * rewrite Heq, Hp in Hn'. injection Hn' as ->. lia.
      * specialize (Hmax _ _ Hn' Hne). lia.
    + intros iv Hiv Hle. apply Hcells in Hiv as (n' & Hiv & Hn'). rewrite Hiv in Hle |- *.
      simpl in *. apply Z.leb_le in Hle. destruct (decide (iv.1 = p)) as [Heq|Hne].
      * rewrite Heq, Hp in Hn'. injection Hn' as ->. rewrite Heq. reflexivity.
      * specialize (Hmax _ _ Hn' Hne). lia.
  - intros iv Hiv. apply Hcells in Hiv as (n' & -> & _). reflexivity.
  - intros iv Hiv. apply Hcells in Hiv as (n' & -> & _). reflexivity.
Qed.


Lemma group_keys_elem c k :
  k ∈ group_keys c -> k ∈ values c \/ exists s, k = VStr s.
Proof.
  assert (Hgen : k ∈ isort value_leb (unique value_eqb
                   (filter (fun v => negb (isna v)) (values c))) -> k ∈ values c).
  { rewrite isort_Permutation. intros Hk.
    apply elem_of_unique, list_elem_of_filter in Hk as [_ Hk]. exact Hk. }
  destruct c; simpl; try (intros Hk; left; apply Hgen; exact Hk).
  intros Hk. apply list_elem_of_fmap in Hk as (s & -> & _). eauto.
Qed.

Lemma count_value_Permutation v l l' : l ≡ₚ l' -> count_value v l = count_value v l'.
Proof. intros H. unfold count_value. rewrite H. reflexivity. Qed.

Lemma take_at_head {A} (idx : list nat) (l : list A) p x :
  head idx = Some p -> l !! p = Some x -> head (take_at idx l) = Some x.
Proof.
  destruct idx as [|i idx]; [discriminate|]. intros [= ->] Hx.
  unfold take_at. simpl. rewrite Hx. reflexivity.
Qed.

(** C4: on a loaded table whose author column holds one author three
    times, another twice and a third once, the first row of the author
    frequency table is the author with three rows, with 3 articles and a
    percent of exactly 50.0. *)
Theorem author_freq_three_two_one fs path nrows date_col dtypes articles_df authors a b c :
  load_data fs path nrows date_col dtypes = Ok articles_df ->
  getitem articles_df "authorPersonId" = Ok authors ->
  values (s_values authors) ≡ₚ [a; a; a; b; b; c] ->
  isna a = false -> isna b = false -> isna c = false ->
  value_eqb a b = false -> value_eqb a c = false -> value_eqb b c = false ->
  exists r num pct,
    author_freq articles_df = Ok r /\
    columns r = [ ("num_articles", Int64 num); ("percent", Float64 pct) ]%string /\
    head (index r) = Some a /\
    head num = Some 3 /\
    head pct = Some 50%float.
Proof.
  intros Hload Hget Hperm Ha Hb Hc Hab Hac Hbc.
  set (vals := values (s_values authors)) in *.
  assert (Hba : value_eqb b a = false) by (rewrite value_eqb_sym; exact Hab).
  assert (Hca : value_eqb c a = false) by (rewrite value_eqb_sym; exact Hac).
  assert (Hcb : value_eqb c b = false) by (rewrite value_eqb_sym; exact Hbc).
  pose proof (isna_false_refl a Ha) as Haa.
  pose proof (isna_false_refl b Hb) as Hbb.
  pose proof (isna_false_refl c Hc) as Hcc.
  assert (Hcount : forall k, count_value k vals
            = ((if value_eqb k a then 3 else 0) + (if value_eqb k b then 2 else 0)
               + (if value_eqb k c then 1 else 0))%nat).
  { intros k. rewrite (count_value_Permutation k _ _ Hperm).
    rewrite !count_value_cons, count_value_nil.
    destruct (value_eqb k a), (value_eqb k b), (value_eqb k c); reflexivity. }
  assert (Hpresent : length (filter (fun v => negb (isna v)) vals) = 6%nat).
  { rewrite Hperm. rewrite filter_all; [reflexivity|].
    intros v Hv. repeat (apply elem_of_cons in Hv as [->|Hv]);
      try (rewrite ?Ha, ?Hb, ?Hc; reflexivity). inversion Hv. }
  assert (Hrows : Z.of_nat (length (index articles_df)) <= INT64_MAX).
  { pose proof (load_data_wf _ _ _ _ _ _ Hload) as Hwf.
    unfold getitem in Hget.
    destruct (lookup_column "authorPersonId" (columns articles_df)) as [col|] eqn:Hcol;
      [|discriminate].
    destruct (lookup_column_Forall _ _ _ _ Hwf Hcol) as (k & Hlen & _). simpl in Hlen.
    injection Hget as <-. simpl in vals.
    rewrite <- Hlen, <- values_length. fold vals.
    rewrite (Permutation_length Hperm). simpl. unfold INT64_MAX. lia. }
  destruct (author_freq_loaded _ _ _ _ _ _ _ Hload Hget Hrows)
    as ((Hna & Hone & Hcover) & Hsum & Hfreq).
  fold vals in Hna, Hone, Hcover, Hsum, Hfreq.
  set (keys := group_keys (s_values authors)) in *.
  set (sizes := (fun k => Z.of_nat (count_value k vals)) <$> keys) in *.
  set (idx := argsort_descending (VInt <$> sizes)) in *.
  (* the key of the author with three rows *)
  assert (Hain : a ∈ vals) by (rewrite Hperm; left).
  destruct (Hcover a Hain Ha) as (ka & Hka & Hkaa).
  assert (Heq : ka = a).
  { destruct (group_keys_elem _ _ Hka) as [Hin|[s ->]].
    - fold vals in Hin. rewrite Hperm in Hin.
      repeat (apply elem_of_cons in Hin as [Hin|Hin]); try exact Hin; try congruence.
      inversion Hin.
    - destruct a; try discriminate. simpl in Hkaa.
      apply String.eqb_eq in Hkaa. congruence. }
  subst ka. clear Hkaa.
  apply list_elem_of_lookup in Hka as [p Hp].
  assert (Hsize : forall q k, keys !! q = Some k ->
                    sizes !! q = Some (Z.of_nat (count_value k vals))).
  { intros q k Hq. subst sizes. rewrite list_lookup_fmap, Hq. reflexivity. }
  assert (Hp3 : sizes !! p = Some 3).
  { rewrite (Hsize p a Hp), Hcount, Haa, Hab, Hac. reflexivity. }
  assert (Hmax : forall q n', sizes !! q = Some n' -> q <> p -> n' < 3).
  { intros q n' Hq Hne. subst sizes. rewrite list_lookup_fmap in Hq.
    destruct (keys !! q) as [k|] eqn:Hk; [|discriminate]. injection Hq as <-.
    rewrite Hcount.
    assert (Hk_a : value_eqb k a = false).
    { destruct (value_eqb k a) eqn:E; [|reflexivity]. exfalso.
      assert (Hak : value_eqb a k = true) by (rewrite value_eqb_sym; exact E).
      assert (Hin : a ∈ keys) by (apply list_elem_of_lookup; eauto).
      pose proof (Hone a Hin) as H1.
      rewrite (filter_length_ext (fun k' => value_eqb k' a) (fun k' => value_eqb a k')) in H1
        by (intros; apply value_eqb_sym).
      pose proof (count_value_two a keys q p k a Hk Hp Hne Hak Haa) as H2.
      unfold count_value in H2. lia. }
    rewrite Hk_a.
    destruct (value_eqb k b) eqn:Ekb, (value_eqb k c) eqn:Ekc; simpl; try lia.
    exfalso. rewrite value_eqb_sym in Ekb.
    rewrite (value_eqb_trans b k c Ekb Ekc) in Hbc. discriminate. }
  pose proof (argsort_descending_head sizes p 3 Hp3 Hmax) as Hhead. fold idx in Hhead.
  eexists _, _, _. split; [exact Hfreq|]. cbn [columns index].
  split; [reflexivity|]. split; [|split].
  - apply (take_at_head idx keys p a Hhead Hp).
  - apply (take_at_head idx sizes p 3 Hhead Hp3).
  - rewrite Hpresent.
    pose proof (take_at_head idx sizes p 3 Hhead Hp3) as Hnum.
    destruct (take_at idx sizes) as [|n num]; [discriminate|]. injection Hnum as ->.
    reflexivity.
Qed.

(** ** The tokenizer on well-formed files *)

Import Tokenizer.

Lemma feeds_nil limit p : feeds limit p [] p.
Proof. intros rest. reflexivity. Qed.

Lemma feeds_app limit p1 p2 p3 b1 b2 :
  feeds limit p1 b1 p2 -> feeds limit p2 b2 p3 -> feeds limit p1 (b1 ++ b2) p3.
Proof. intros H1 H2 rest. rewrite <- app_assoc, H1, H2. reflexivity. Qed.

Lemma feeds_char limit p c p' :
  lines_done limit p = false -> step limit p c = Ok p' -> feeds limit p [c] p'.
Proof. intros Hnd Hstep rest. simpl. rewrite Hnd, Hstep. reflexivity. Qed.

Lemma feeds_cons limit p c p' buf p'' :
  lines_done limit p = false -> step limit p c = Ok p' ->
  feeds limit p' buf p'' -> feeds limit p (c :: buf) p''.
Proof.
  intros Hnd Hstep H. apply (feeds_app limit p p' p'' [c] buf); [|exact H].
  apply feeds_char; assumption.
Qed.

Lemma lines_done_mk limit s st w ls s' st' w' :
  lines_done limit (mkParser s st w ls) = lines_done limit (mkParser s' st' w' ls).
Proof. reflexivity. Qed.

Lemma special_false c :
  special c = false ->
  Ascii.eqb c LF = false /\ Ascii.eqb c CR = false /\
  Ascii.eqb c quotechar = false /\ Ascii.eqb c delimiter = false.
Proof.
  unfold special. intros H.
  apply orb_false_iff in H as [H Hd]. apply orb_false_iff in H as [H Hq].
  apply orb_false_iff in H as [Hl Hc]. auto.
Qed.

Lemma plain_cons c cs :
  forallb (fun c => negb (special c)) (c :: cs) = true ->
  special c = false /\ forallb (fun c => negb (special c)) cs = true.
Proof.
  simpl. intros H. apply andb_true_iff in H as [Hc Hcs].
  split; [|exact Hcs]. destruct (special c); [discriminate|reflexivity].
Qed.

(** Plain text inside a field is added to the field. *)
Lemma feeds_plain_in_field limit cs : forall st w ls,
  lines_done limit (mkParser IN_FIELD st w ls) = false ->
  forallb (fun c => negb (special c)) cs = true ->
  feeds limit (mkParser IN_FIELD st w ls) cs (mkParser IN_FIELD (rev cs ++ st) w ls).
Proof.
  induction cs as [|c cs IH]; intros st w ls Hnd Hplain; [apply feeds_nil|].
  apply plain_cons in Hplain as [Hc Hcs].
  destruct (special_false c Hc) as (Hl & Hr & Hq & Hd).
  apply (feeds_cons limit _ c (mkParser IN_FIELD (c :: st) w ls)).
  - exact Hnd.
  - unfold step, step_in_field. cbn [state]. rewrite Hl, Hr, Hd. reflexivity.
  - simpl. rewrite <- app_assoc. apply IH; assumption.
Qed.

(** Plain text at the start of a field. *)
Lemma feeds_plain_start_field limit cs w ls :
  lines_done limit (mkParser START_FIELD [] w ls) = false ->
  forallb (fun c => negb (special c)) cs = true ->
  exists s, endable s /\
    feeds limit (mkParser START_FIELD [] w ls) cs (mkParser s (rev cs) w ls).
Proof.
  intros Hnd Hplain. destruct cs as [|c cs].
  - exists START_FIELD. split; [left; reflexivity|apply feeds_nil].
  - exists IN_FIELD. split; [right; left; reflexivity|].
    apply plain_cons in Hplain as [Hc Hcs].
    destruct (special_false c Hc) as (Hl & Hr & Hq & Hd).
    apply (feeds_cons limit _ c (mkParser IN_FIELD [c] w ls)).
    + exact Hnd.
    + unfold step, step_start_field. cbn [state]. rewrite Hl, Hr, Hq, Hd. reflexivity.
    + simpl. apply (feeds_plain_in_field limit cs [c] w ls); assumption.
Qed.

(** Text between quotes, its quotes doubled, is added to the field. *)
Lemma feeds_escape limit cs : forall st w ls,
  lines_done limit (mkParser IN_QUOTED_FIELD st w ls) = false ->
  feeds limit (mkParser IN_QUOTED_FIELD st w ls) (escape cs)
              (mkParser IN_QUOTED_FIELD (rev cs ++ st) w ls).
Proof.
  induction cs as [|c cs IH]; intros st w ls Hnd; [apply feeds_nil|].
  simpl. rewrite <- app_assoc. destruct (Ascii.eqb c quotechar) eqn:Hq.
  - apply Ascii.eqb_eq in Hq as ->.
    apply (feeds_cons limit _ quotechar (mkParser QUOTE_IN_QUOTED_FIELD st w ls));
      [exact Hnd|reflexivity|].
    apply (feeds_cons limit _ quotechar (mkParser IN_QUOTED_FIELD (quotechar :: st) w ls));
      [exact Hnd|reflexivity|].
    apply IH. exact Hnd.
  - apply (feeds_cons limit _ c (mkParser IN_QUOTED_FIELD (c :: st) w ls)).
    + exact Hnd.
    + unfold step. cbn [state]. rewrite Hq. reflexivity.
    + apply IH. exact Hnd.
Qed.

Lemma feeds_quoted limit s0 cs w ls :
  s0 = START_FIELD \/ s0 = START_RECORD ->
  lines_done limit (mkParser s0 [] w ls) = false ->
  feeds limit (mkParser s0 [] w ls) (quotechar :: escape cs ++ [quotechar])
              (mkParser QUOTE_IN_QUOTED_FIELD (rev cs) w ls).
Proof.
  intros Hs0 Hnd.
  apply (feeds_cons limit _ quotechar (mkParser IN_QUOTED_FIELD [] w ls)).
  - exact Hnd.
  - destruct Hs0 as [-> | ->]; reflexivity.
  - apply (feeds_app limit _ (mkParser IN_QUOTED_FIELD (rev cs) w ls)).
    + pose proof (feeds_escape limit cs [] w ls Hnd) as H.
      rewrite app_nil_r in H. exact H.
    + apply feeds_char; [exact Hnd|reflexivity].
Qed.

(** Plain text after blanks at the start of a line. *)
Lemma feeds_plain_whitespace_line limit cs : forall st w ls,
  lines_done limit (mkParser WHITESPACE_LINE st w ls) = false ->
  forallb (fun c => negb (special c)) cs = true ->
  feeds limit (mkParser WHITESPACE_LINE st w ls) cs
              (mkParser (after_blanks cs) (rev cs ++ st) w ls).
Proof.
  induction cs as [|c cs IH]; intros st w ls Hnd Hplain; [apply feeds_nil|].
  apply plain_cons in Hplain as [Hc Hcs].
  destruct (special_false c Hc) as (Hl & Hr & Hq & Hd).
  simpl. rewrite <- app_assoc. destruct (is_whitespace c) eqn:Hw.
  - apply (feeds_cons limit _ c (mkParser WHITESPACE_LINE (c :: st) w ls)).
    + exact Hnd.
    + unfold step. cbn [state]. rewrite Hl, Hr, Hw. reflexivity.
    + apply IH; assumption.
  - apply (feeds_cons limit _ c (mkParser IN_FIELD (c :: st) w ls)).
    + exact Hnd.
    + unfold step, step_in_field. cbn [state]. rewrite Hl, Hr, Hw, Hd. reflexivity.
    + apply (feeds_plain_in_field limit cs (c :: st) w ls); assumption.
Qed.

Lemma after_blanks_cases cs :
  (forallb is_whitespace cs = true /\ after_blanks cs = WHITESPACE_LINE)
  \/ (forallb is_whitespace cs = false /\ after_blanks cs = IN_FIELD).
Proof.
  induction cs as [|c cs IH]; simpl; [left; auto|].
  destruct (is_whitespace c); simpl; [exact IH|right; auto].
Qed.

(** Plain text at the start of a line. *)
Lemma feeds_plain_start_record limit cs ls :
  lines_done limit (mkParser START_RECORD [] [] ls) = false ->
  forallb (fun c => negb (special c)) cs = true ->
  exists s,
    holding s /\
    (forallb is_whitespace cs = false -> endable s) /\
    feeds limit (mkParser START_RECORD [] [] ls) cs (mkParser s (rev cs) [] ls).
Proof.
  intros Hnd Hplain. destruct cs as [|c cs].
  - exists START_RECORD. split; [left; reflexivity|].
    split; [discriminate|apply feeds_nil].
  - pose proof Hplain as Hplain'. apply plain_cons in Hplain' as [Hc Hcs].
    destruct (special_false c Hc) as (Hl & Hr & Hq & Hd).
    destruct (is_whitespace c) eqn:Hw.
    + exists (after_blanks cs). split; [|split].
      * destruct (after_blanks_cases cs) as [[_ ->]|[_ ->]];
          [right; left; reflexivity|right; right; right; left; reflexivity].
      * simpl. rewrite Hw. simpl. intros Hb.
        destruct (after_blanks_cases cs) as [[Hb' _]|[_ ->]]; [congruence|].
        right; left; reflexivity.
      * apply (feeds_cons limit _ c (mkParser WHITESPACE_LINE [c] [] ls)).
        -- exact Hnd.
        -- unfold step, step_start_record. cbn [state]. rewrite Hl, Hr, Hw. reflexivity.
        -- simpl. apply (feeds_plain_whitespace_line limit cs [c] [] ls); assumption.
    + exists IN_FIELD. split; [right; right; right; left; reflexivity|].
      split; [intros _; right; left; reflexivity|].
      apply (feeds_cons limit _ c (mkParser IN_FIELD [c] [] ls)).
      * exact Hnd.
      * unfold step, step_start_record, step_start_field. cbn [state].
        rewrite Hl, Hr, Hw, Hq, Hd. reflexivity.
      * simpl. apply (feeds_plain_in_field limit cs [c] [] ls); assumption.
Qed.

(** The delimiter ends the field read so far. *)
Lemma step_delimiter limit s st w ls :
  holding s ->
  step limit (mkParser s st w ls) delimiter
  = Ok (mkParser START_FIELD [] (string_of_list_ascii (rev st) :: w) ls).
Proof. intros [->|[->|[->|[->| ->]]]]; reflexivity. Qed.

(** The line feed ends the field and the record. *)
Lemma step_line_feed limit s st w ls :
  endable s ->
  step limit (mkParser s st w ls) LF
  = end_line START_RECORD (mkParser s [] (string_of_list_ascii (rev st) :: w) ls).
Proof. intros [->|[->| ->]]; reflexivity. Qed.

(** The carriage return ends the field; the record ends with what comes
    next. *)
Lemma step_carriage_return limit s st w ls :
  endable s ->
  step limit (mkParser s st w ls) CR
  = Ok (mkParser EAT_CRNL [] (string_of_list_ascii (rev st) :: w) ls).
Proof. intros [->|[->| ->]]; reflexivity. Qed.

Lemma handle_eof_endable s st w ls :
  endable s ->
  handle_eof (mkParser s st w ls)
  = end_line START_RECORD (mkParser s [] (string_of_list_ascii (rev st) :: w) ls).
Proof. intros [->|[->| ->]]; reflexivity. Qed.

Lemma endable_holding s : endable s -> holding s.
Proof. intros [->|[->| ->]]; unfold holding; auto. Qed.

(** A field that is not the first of its line. *)
Lemma feeds_field limit f w ls :
  (f.1 = false -> plain f.2 = true) ->
  lines_done limit (mkParser START_FIELD [] w ls) = false ->
  exists s, endable s /\
    feeds limit (mkParser START_FIELD [] w ls) (write_field f)
                (mkParser s (rev (list_ascii_of_string f.2)) w ls).
Proof.
  intros Hplain Hnd. destruct f as [[|] text]; simpl in *.
  - exists QUOTE_IN_QUOTED_FIELD. split; [right; right; reflexivity|].
    apply feeds_quoted; [left; reflexivity|exact Hnd].
  - apply feeds_plain_start_field; [exact Hnd|]. apply Hplain. reflexivity.
Qed.

(** The first field of a line. *)
Lemma feeds_first_field limit f ls :
  (f.1 = false -> plain f.2 = true) ->
  lines_done limit (mkParser START_RECORD [] [] ls) = false ->
  exists s, holding s /\
    (f.1 = true \/ blank f.2 = false -> endable s) /\
    feeds limit (mkParser START_RECORD [] [] ls) (write_field f)
                (mkParser s (rev (list_ascii_of_string f.2)) [] ls).
Proof.
  intros Hplain Hnd. destruct f as [[|] text]; simpl in *.
  - exists QUOTE_IN_QUOTED_FIELD. split; [unfold holding; auto|].
    split; [intros _; right; right; reflexivity|].
    apply feeds_quoted; [right; reflexivity|exact Hnd].
  - destruct (feeds_plain_start_record limit (list_ascii_of_string text) ls Hnd)
      as (s & Hs & Hend & Hfeeds); [apply Hplain; reflexivity|].
    exists s. split; [exact Hs|]. split; [|exact Hfeeds].
    intros [Hq|Hb]; [discriminate|]. apply Hend. exact Hb.
Qed.

(** The fields of a line after the first. *)
Lemma feeds_fields limit fs : forall w ls,
  fs <> [] ->
  Forall (fun f => f.1 = false -> plain f.2 = true) fs ->
  lines_done limit (mkParser START_FIELD [] w ls) = false ->
  exists s st w',
    endable s /\
    feeds limit (mkParser START_FIELD [] w ls) (write_record fs) (mkParser s st w' ls) /\
    string_of_list_ascii (rev st) :: w' = rev fs.*2 ++ w.
Proof.
  induction fs as [|f fs IH]; intros w ls Hne Hvalid Hnd; [contradiction|].
  inversion Hvalid as [|? ? Hf Hfs]; subst.
  destruct (feeds_field limit f w ls Hf Hnd) as (s & Hs & Hfeeds).
  destruct fs as [|f' fs].
  - exists s, (rev (list_ascii_of_string f.2)), w. split; [exact Hs|].
    split; [exact Hfeeds|]. simpl.
    rewrite rev_involutive, string_of_list_ascii_of_string. reflexivity.
  - destruct (IH (f.2 :: w) ls) as (s' & st' & w' & Hs' & Hfeeds' & Hw');
      [discriminate|exact Hfs|exact Hnd|].
    exists s', st', w'. split; [exact Hs'|]. split.
    + change (write_record (f :: f' :: fs))
        with (write_field f ++ delimiter :: write_record (f' :: fs)).
      eapply feeds_app; [exact Hfeeds|].
      eapply feeds_cons; [exact Hnd| |exact Hfeeds'].
      rewrite (step_delimiter limit s _ w ls (endable_holding s Hs)).
      rewrite rev_involutive, string_of_list_ascii_of_string. reflexivity.
    + rewrite Hw'. rewrite (fmap_cons snd f). cbn [rev].
      rewrite <- app_assoc. reflexivity.
Qed.

(** A whole line, from the start of a record. *)
Lemma feeds_record limit width rec ls :
  (0 < width)%nat ->
  well_formed_record width rec ->
  lines_done limit (mkParser START_RECORD [] [] ls) = false ->
  exists s st w',
    endable s /\
    feeds limit (mkParser START_RECORD [] [] ls) (write_record rec) (mkParser s st w' ls) /\
    string_of_list_ascii (rev st) :: w' = rev rec.*2.
Proof.
  intros Hwidth (Hlen & Hvalid & Hblank) Hnd.
  destruct rec as [|f fs]; [simpl in Hlen; lia|].
  inversion Hvalid as [|? ? Hf Hfs]; subst.
  destruct (feeds_first_field limit f ls Hf Hnd) as (s & Hs & Hend & Hfeeds).
  destruct fs as [|f' fs].
  - exists s, (rev (list_ascii_of_string f.2)), []. split; [|split].
    + apply Hend. destruct f as [[|] text]; simpl; [left; reflexivity|right].
      apply Hblank. reflexivity.
    + exact Hfeeds.
    + simpl. rewrite rev_involutive, string_of_list_ascii_of_string. reflexivity.
  - destruct (feeds_fields limit (f' :: fs) [f.2] ls) as (s' & st' & w' & Hs' & Hfeeds' & Hw');
      [discriminate|exact Hfs|exact Hnd|].
    exists s', st', w'. split; [exact Hs'|]. split.
    + change (write_record (f :: f' :: fs))
        with (write_field f ++ delimiter :: write_record (f' :: fs)).
      eapply feeds_app; [exact Hfeeds|].
      eapply feeds_cons; [exact Hnd| |exact Hfeeds'].
      rewrite (step_delimiter limit s _ [] ls Hs).
      rewrite rev_involutive, string_of_list_ascii_of_string. reflexivity.
    + rewrite Hw'. rewrite (fmap_cons snd f). cbn [rev]. reflexivity.
Qed.

(** A record as wide as the one before it is taken as it stands. *)
Lemma end_line_rectangular s (fields : list string) ls :
  Forall (fun l => length l = length fields) ls ->
  end_line START_RECORD (mkParser s [] (rev fields) ls)
  = Ok (mkParser START_RECORD [] [] (fields :: ls)).
Proof.
  intros Hls. unfold end_line. cbn [lines words].
  rewrite length_rev, rev_involutive. destruct ls as [|prev older]; [reflexivity|].
  inversion Hls as [|? ? Hprev _]; subst. rewrite Hprev.
  rewrite Nat.ltb_irrefl, andb_false_r, Nat.sub_diag. simpl. rewrite app_nil_r.
  reflexivity.
Qed.

Lemma tokenize_helper_done limit p buf :
  lines_done limit p = true -> tokenize_helper limit p buf = Ok p.
Proof. intros H. destruct buf; simpl; rewrite H; reflexivity. Qed.

Lemma tokenize_helper_end limit ls :
  tokenize_helper limit (mkParser START_RECORD [] [] ls) []
  = Ok (mkParser START_RECORD [] [] ls).
Proof. simpl. destruct (lines_done limit _); reflexivity. Qed.

(** A written record starts with a character that is no line feed. *)
Lemma write_record_head width rec :
  (0 < width)%nat -> well_formed_record width rec ->
  exists c cs, write_record rec = c :: cs /\ c <> LF.
Proof.
  intros Hwidth (Hlen & Hvalid & Hblank).
  destruct rec as [|f fs]; [simpl in Hlen; lia|].
  inversion Hvalid as [|? ? Hf _]; subst.
  assert (Hfield : write_field f = [] \/ exists c cs, write_field f = c :: cs /\ c <> LF).
  { destruct f as [[|] text]; cbn [write_field fst snd].
    - right. eexists _, _. split; [reflexivity|discriminate].
    - destruct (list_ascii_of_string text) as [|c cs] eqn:Htext; [left; reflexivity|].
      right. exists c, cs. split; [reflexivity|].
      specialize (Hf eq_refl). unfold plain in Hf. cbn [snd] in Hf. rewrite Htext in Hf.
      apply plain_cons in Hf as [Hc _]. destruct (special_false c Hc) as (Hl & _).
      apply Ascii.eqb_neq. exact Hl. }
  destruct fs as [|f' fs]; cbn [write_record].
  - destruct Hfield as [Hempty|H]; [|exact H]. exfalso.
    destruct f as [[|] text]; cbn [write_field fst snd] in Hempty; [discriminate|].
    specialize (Hblank text eq_refl). unfold blank in Hblank. rewrite Hempty in Hblank.
    discriminate.
  - destruct Hfield as [->|(c & cs & -> & Hc)].
    + eexists _, _. split; [reflexivity|discriminate].
    + eexists _, _. split; [reflexivity|exact Hc].
Qed.

(** The end of a line closes the record, whichever way the line ends. *)
Lemma tokenize_helper_line_end limit eol s st w ls ls' rest :
  endable s ->
  lines_done limit (mkParser s st w ls) = false ->
  end_line START_RECORD (mkParser s [] (string_of_list_ascii (rev st) :: w) ls)
  = Ok (mkParser START_RECORD [] [] ls') ->
  rest = [] \/ (exists c rest', rest = c :: rest' /\ c <> LF) ->
  tokenize_helper limit (mkParser s st w ls) (line_end eol ++ rest)
  = tokenize_helper limit (mkParser START_RECORD [] [] ls') rest.
Proof.
  intros Hs Hnd Hend Hrest.
  assert (Hend' : end_line START_RECORD
                    (mkParser EAT_CRNL [] (string_of_list_ascii (rev st) :: w) ls)
                  = Ok (mkParser START_RECORD [] [] ls')) by exact Hend.
  assert (Hnd' : lines_done limit
                   (mkParser EAT_CRNL [] (string_of_list_ascii (rev st) :: w) ls) = false)
    by exact Hnd.
  destruct eol; cbn [line_end app tokenize_helper]; rewrite Hnd.
  - rewrite (step_line_feed limit s st w ls Hs), Hend. reflexivity.
  - rewrite (step_carriage_return limit s st w ls Hs). cbn [bind tokenize_helper].
    rewrite Hnd'. unfold step at 1. cbn [state]. rewrite Hend'. reflexivity.
  - rewrite (step_carriage_return limit s st w ls Hs). cbn [bind].
    destruct Hrest as [->|(c & rest' & -> & Hc)]; cbn [tokenize_helper]; rewrite Hnd'.
    + unfold handle_eof. cbn [state]. rewrite Hend'. symmetry.
      destruct (lines_done limit (mkParser START_RECORD [] [] ls')); reflexivity.
    + unfold step at 1. cbn [state].
      destruct (Ascii.eqb_spec c LF) as [|_]; [contradiction|].
      rewrite Hend'. cbn [bind].
      destruct (lines_done limit (mkParser START_RECORD [] [] ls')) eqn:Hdone.
      * cbn [bind]. apply tokenize_helper_done. exact Hdone.
      * reflexivity.
Qed.

(** The tokenizer reads the records of a well-formed file as they were
    written, up to the limit. *)
Lemma tokenize_helper_records limit width eol final_newline recs : forall ls,
  (0 < width)%nat ->
  Forall (well_formed_record width) recs ->
  Forall (fun l => length l = width) ls ->
  tokenize_helper limit (mkParser START_RECORD [] [] ls)
                  (write_records eol recs final_newline)
  = Ok (mkParser START_RECORD [] []
          (rev (texts (take (read_count limit (length ls) (length recs)) recs)) ++ ls)).
Proof.
  induction recs as [|rec recs IH]; intros ls Hwidth Hrecs Hls.
  - simpl write_records. rewrite tokenize_helper_end.
    unfold read_count. destruct limit; rewrite ?Nat.min_0_r; reflexivity.
  - inversion Hrecs as [|? ? Hrec Hrecs']; subst.
    destruct (lines_done limit (mkParser START_RECORD [] [] ls)) eqn:Hnd.
    + rewrite tokenize_helper_done by exact Hnd.
      destruct limit as [n|]; [|discriminate]. simpl in Hnd. apply Nat.leb_le in Hnd.
      unfold read_count. replace (n - length ls)%nat with 0%nat by lia. reflexivity.
    + destruct (feeds_record limit width rec ls Hwidth Hrec Hnd)
        as (s & st & w' & Hs & Hfeeds & Hw).
      assert (Hlen : length rec.*2 = width).
      { rewrite length_fmap. destruct Hrec as [Hlen _]. exact Hlen. }
      assert (Hend : end_line START_RECORD
                       (mkParser s [] (string_of_list_ascii (rev st) :: w') ls)
                     = Ok (mkParser START_RECORD [] [] (rec.*2 :: ls))).
      { rewrite Hw. apply end_line_rectangular. rewrite Hlen. exact Hls. }
      assert (Hcount : read_count limit (length ls) (length (rec :: recs))
                       = S (read_count limit (S (length ls)) (length recs))).
      { unfold read_count. destruct limit as [n|]; [|reflexivity].
        simpl in Hnd. apply Nat.leb_gt in Hnd. simpl length. lia. }
      rewrite Hcount. cbn [take texts fmap list_fmap rev]. rewrite <- app_assoc.
      change ([rec.*2] ++ ls) with (rec.*2 :: ls).
      assert (Hnd' : lines_done limit (mkParser s st w' ls) = false) by exact Hnd.
      destruct recs as [|rec' recs].
      * assert (Hone : read_count limit (S (length ls)) (length (@nil (list (bool * string)))) = 0%nat).
        { unfold read_count. destruct limit; simpl; lia. }
        rewrite Hone. cbn [take list_fmap rev app].
        cbn [write_records]. destruct final_newline.
        -- rewrite Hfeeds. rewrite <- (app_nil_r (line_end eol)).
           rewrite (tokenize_helper_line_end limit eol s st w' ls _ [] Hs Hnd' Hend)
             by (left; reflexivity).
           apply tokenize_helper_end.
        -- rewrite Hfeeds. cbn [tokenize_helper]. rewrite Hnd'.
           rewrite (handle_eof_endable s st w' ls Hs). exact Hend.
      * change (write_records eol (rec :: rec' :: recs) final_newline)
          with (write_record rec ++ line_end eol
                  ++ write_records eol (rec' :: recs) final_newline).
        rewrite Hfeeds.
        rewrite (tokenize_helper_line_end limit eol s st w' ls _ _ Hs Hnd' Hend).
        -- rewrite (IH (rec.*2 :: ls) Hwidth Hrecs').
           ++ reflexivity.
           ++ constructor; [exact Hlen|exact Hls].
        -- right. pose proof (List.Forall_inv Hrecs') as Hrec'.
           destruct (write_record_head width rec' Hwidth Hrec') as (c & cs & Hhead & Hc).
           exists c. destruct recs as [|rec'' recs]; cbn [write_records]; rewrite Hhead;
             eexists; (split; [reflexivity|exact Hc]).
Qed.

Lemma tokenize_write_csv limit eol header rows final_newline :
  well_formed header rows ->
  tokenize limit (write_csv eol (header :: rows) final_newline)
  = Ok (take (read_count limit 0 (S (length rows))) (texts (header :: rows))).
Proof.
  intros [Hwidth Hrecs]. unfold tokenize, write_csv, parser_new.
  rewrite list_ascii_of_string_of_list_ascii.
  rewrite (tokenize_helper_records limit (length header) eol final_newline (header :: rows) []
             Hwidth Hrecs) by constructor.
  cbn [bind lines length]. rewrite app_nil_r, rev_involutive.
  unfold texts. rewrite fmap_take. reflexivity.
Qed.

(** The first record of a well-formed file is no longer than its header. *)
Lemma well_formed_first header rows :
  well_formed header rows ->
  ~ Exists (fun rec : list string => length header.*2 < length rec)%nat
      (take (Nat.min 1 (length rows)) (texts rows)).
Proof.
  intros Hwf. rewrite Exists_exists. intros (rec & Hin & Hlt).
  destruct Hwf as [_ Hrecs]. inversion Hrecs as [|? ? Hh Hrows]; subst.
  apply elem_of_take in Hin as (i & Hi & _). unfold texts in Hi.
  rewrite list_lookup_fmap in Hi.
  destruct (rows !! i) as [r|] eqn:Hr; [|discriminate]. injection Hi as <-.
  rewrite Forall_forall in Hrows.
  destruct (Hrows r) as [Hlen _]; [apply list_elem_of_lookup; eauto|].
  rewrite !length_fmap in Hlt. lia.
Qed.

(** The records [read_csv] reads from a well-formed file: the texts of
    the header and of the data rows, up to the row limit. *)
Lemma read_records_well_formed fs path nrows eol header rows final_newline :
  well_formed header rows ->
  open fs path = Ok (write_csv eol (header :: rows) final_newline) ->
  (forall n, nrows = Some n -> 0 <= n) ->
  read_records fs path nrows
  = Ok (header.*2,
        match nrows with
        | None => texts rows
        | Some n => take (Z.to_nat n) (texts rows)
        end).
Proof.
  intros Hwf Hfile Hnrows. unfold read_records. rewrite Hfile. cbn [bind].
  rewrite (tokenize_write_csv _ eol header rows final_newline Hwf). cbn [bind].
  unfold read_count at 1. cbn [texts fmap list_fmap].
  replace (Nat.min (2 - 0) (S (length rows))) with (S (Nat.min 1 (length rows))) by lia.
  cbn [take].
  rewrite bool_decide_eq_false_2 by exact (well_formed_first header rows Hwf).
  destruct nrows as [n|]; cbn [validate_integer].
  - specialize (Hnrows n eq_refl).
    destruct (Z.ltb_spec n 0) as [|_]; [lia|].
    cbn [bind line_limit fmap option_fmap option_map].
    rewrite (tokenize_write_csv _ eol header rows final_newline Hwf). cbn [bind].
    unfold read_count.
    replace (Nat.min (Nat.max 2 (S (Z.to_nat n)) - 0) (S (length rows)))
      with (S (Nat.min (Nat.max 1 (Z.to_nat n)) (length rows))) by lia.
    cbn [texts fmap list_fmap take tail take_rows]. rewrite take_take. do 2 f_equal.
    fold (texts rows).
    destruct (Nat.le_ge_cases (Z.to_nat n) (length rows)) as [Hle|Hge].
    + f_equal. lia.
    + rewrite !take_ge; [reflexivity| |]; unfold texts; rewrite length_fmap; lia.
  - cbn [bind line_limit fmap option_fmap option_map].
    rewrite (tokenize_write_csv _ eol header rows final_newline Hwf). cbn [bind].
    unfold read_count.
    rewrite take_ge by (unfold texts; rewrite length_fmap; simpl; lia). reflexivity.
Qed.



(** * Further properties of [load_data] *)

(** ** The date column *)




(** X2: after a load with a date column, that column is a column of
    times with one time per row; the conversion leaves the row labels,
    the names and the order of the columns, and every other column as
    [read_csv] returned them. *)
Theorem load_data_date_column fs path nrows col dtypes df :
  col <> EmptyString ->
  load_data fs path nrows (Some col) dtypes = Ok df ->
  exists data times,
    read_csv fs path nrows dtypes = Ok data /\
    lookup_column col (columns df) = Some (Datetime64 times) /\
    length times = length (index df) /\
    index df = index data /\
    (columns df).*1 = (columns data).*1 /\
    forall name, name <> col ->
      lookup_column name (columns df) = lookup_column name (columns data).
Proof.
  intros Hcol Hdf.
  pose proof (load_data_wf _ _ _ _ _ _ Hdf) as Hwf.
  apply load_data_Ok in Hdf as (data & Hdata & H). cbn [truthy] in H.
  destruct (String.eqb_spec col EmptyString); [contradiction|]. cbn [negb] in H.
  destruct H as (col' & s & dt & [= <-] & Hs & Hdt & ->).
  unfold to_datetime in Hdt. apply bind_Ok in Hdt as (times & _ & [= <-]).
  exists data, times. split; [exact Hdata|]. cbn [setitem columns index s_values].
  cbn [setitem columns index s_values] in Hwf.
  assert (Hlook : lookup_column col (replace_column col (Datetime64 times) (columns data))
                  = Some (Datetime64 times)) by apply lookup_replace_column_eq.
  split; [exact Hlook|]. split.
  - destruct (lookup_column_Forall _ _ _ _ Hwf Hlook) as [k [Hk _]]. exact Hk.
  - split; [reflexivity|]. split.
    + unfold getitem in Hs. destruct (lookup_column col (columns data)) as [c0|] eqn:Hc0;
        [|discriminate]. exact (names_replace_column _ _ _ _ Hc0).
    + intros name Hne. apply lookup_replace_column_ne. exact Hne.
Qed.

(** ** Missing cells *)

Lemma is_nan_nan : is_nan nan = true.
Proof. reflexivity. Qed.

Lemma mapM_lookup {A B} (f : A -> option B) l k i x :
  mapM f l = Some k -> l !! i = Some x -> exists y, f x = Some y /\ k !! i = Some y.
Proof.
  rewrite mapM_Some. intros H Hx.
  destruct (Forall2_lookup_l _ _ _ _ _ H Hx) as (y & Hy & Hf). eauto.
Qed.

(** A cell that is a missing-value marker is read as a missing cell, in a
    column with a requested dtype and in a column whose integer literals
    are within the 64-bit range. *)
Lemma convert_column_na dt cells i s :
  (dt = None -> forall cell z, cell ∈ cells -> str_to_int cell = Some z ->
                               INT64_MIN <= z <= INT64_MAX) ->
  cells !! i = Some s -> is_na s = true ->
  exists v, values (convert_column dt cells) !! i = Some v /\ isna v = true.
Proof.
  intros Hrange Hi Hna.
  assert (Hobj : exists v, values (Object (string_cell <$> cells)) !! i = Some v
                           /\ isna v = true).
  { exists VNaN. cbn [values]. rewrite list_lookup_fmap, Hi. cbn. unfold string_cell.
    rewrite Hna. auto. }
  destruct dt as [[|]|]; cbn [convert_column]; [| exact Hobj |].
  - exists VNaN. unfold categorical_convert. cbn [values].
    rewrite !list_lookup_fmap, Hi. cbn. rewrite Hna. auto.
  - specialize (Hrange eq_refl).
    assert (Hno_uint : forall l state,
               try_uint64 uint_state_init cells = Converted (l, state) ->
               seen_uint state = true -> False).
    { intros l state Hu Hseen.
      destruct (try_uint64_Converted _ _ _ _ Hu) as (_ & _ & _ & _ & Hbig).
      destruct (Hbig Hseen) as [Hinit|(cell & z & Hcell & Hz & Hlt)]; [discriminate Hinit|].
      specialize (Hrange cell z Hcell Hz). lia. }
    destruct (infer_column_Inferred cells)
      as [ints Hint Hnone|ints Hint _|l state Hu Hseen _ _|l state Hu Hseen|floats Hflt
         |bools Hbool Hnone|bools Hbool _|_].
    + exfalso. apply Hnone. apply try_int64_Converted in Hint.
      destruct (Forall2_lookup_l _ _ _ _ _ Hint Hi) as (o & Ho & Hcell).
      rewrite Hna in Hcell. subst o. apply list_elem_of_lookup. eauto.
    + apply try_int64_Converted in Hint.
      destruct (Forall2_lookup_l _ _ _ _ _ Hint Hi) as (o & Ho & Hcell).
      rewrite Hna in Hcell. subst o.
      exists VNaN. cbn [values]. rewrite !list_lookup_fmap, Ho. cbn. auto.
    + destruct (Hno_uint _ _ Hu Hseen).
    + destruct (Hno_uint _ _ Hu Hseen).
    + destruct (mapM_lookup _ _ _ _ _ Hflt Hi) as (y & Hy & Hk). rewrite Hna in Hy.
      injection Hy as <-. exists VNaN. cbn [values]. rewrite list_lookup_fmap, Hk.
      cbn. auto.
    + exfalso. apply Hnone.
      destruct (mapM_lookup _ _ _ _ _ Hbool Hi) as (y & Hy & Hk). rewrite Hna in Hy.
      injection Hy as <-. apply list_elem_of_lookup. eauto.
    + destruct (mapM_lookup _ _ _ _ _ Hbool Hi) as (y & Hy & Hk). rewrite Hna in Hy.
      injection Hy as <-.
      exists VNaN. cbn [values]. rewrite list_lookup_fmap, Hk. cbn. auto.
    + exact Hobj.
Qed.

(** The conversion to times turns every missing cell into the missing
    time. *)
Lemma to_datetime_na s dt i v :
  to_datetime s = Ok dt ->
  values (s_values s) !! i = Some v -> isna v = true ->
  values (s_values dt) !! i = Some VNaT.
Proof.
  unfold to_datetime. intros H Hv Hna. apply bind_Ok in H as (l & Hl & [= <-]).
  cbn [s_values values]. rewrite list_lookup_fmap.
  assert (Hobj : forall vals, traverse object_epoch_to_ns vals = Ok l ->
                              vals !! i = Some v -> l !! i = Some NPY_NAT).
  { intros vals Ht Hi. apply traverse_Ok_Forall2 in Ht.
    destruct (Forall2_lookup_l _ _ _ _ _ Ht Hi) as (ns & Hns & Hf). rewrite Hns. f_equal.
    destruct v; try discriminate Hna; cbn in Hf, Hna.
    - unfold float64_epoch_to_ns in Hf. rewrite Hna in Hf. congruence.
    - congruence.
    - congruence. }
  assert (l !! i = Some NPY_NAT) as ->; [|reflexivity].
  destruct (s_values s) as [l'|l'|l'|l'|l'|cats codes|l']; cbn [values] in Hv.
  - rewrite list_lookup_fmap in Hv. destruct (l' !! i); [|discriminate].
    injection Hv as <-. discriminate Hna.
  - rewrite list_lookup_fmap in Hv. destruct (l' !! i); [|discriminate].
    injection Hv as <-. discriminate Hna.
  - rewrite list_lookup_fmap in Hv. destruct (l' !! i) as [f|] eqn:Hf; [|discriminate].
    injection Hv as <-. apply traverse_Ok_Forall2 in Hl.
    destruct (Forall2_lookup_l _ _ _ _ _ Hl Hf) as (ns & Hns & Hc). rewrite Hns. f_equal.
    unfold float64_epoch_to_ns in Hc. unfold value_of_float in Hna.
    destruct (is_nan f) eqn:Hnan; [congruence|]. cbn in Hna. congruence.
  - rewrite list_lookup_fmap in Hv. destruct (l' !! i); [|discriminate].
    injection Hv as <-. discriminate Hna.
  - apply (Hobj _ Hl Hv).
  - destruct unit_converts_categorical; [|discriminate]. apply (Hobj _ Hl). exact Hv.
  - injection Hl as <-. rewrite list_lookup_fmap in Hv.
    destruct (l' !! i) as [ns|]; [|discriminate]. injection Hv as <-. f_equal.
    unfold value_of_datetime in Hna. destruct (Z.eqb_spec ns NPY_NAT); [auto|discriminate].
Qed.

(** X3: in a table that [load_data] returns, a cell of the file that is a
    missing-value marker (the empty cell, [NA], [NaN], ...) is a missing
    cell, in every column to which a requested dtype applies and in every
    other column whose integer literals are within the 64-bit range (a
    column with a larger integer can be kept as the text it is, markers
    included); in the date column it is the missing time. *)
Theorem load_data_missing_cell fs path nrows date_col dtypes header recs df name j i rec :
  read_records fs path nrows = Ok (header, recs) ->
  load_data fs path nrows date_col dtypes = Ok df ->
  index_of name (column_names header) = Some j ->
  (dtype_of (column_dtypes header dtypes) name = None ->
   forall cell z, cell ∈ field j <$> recs -> str_to_int cell = Some z ->
                  INT64_MIN <= z <= INT64_MAX) ->
  recs !! i = Some rec ->
  is_na (field j rec) = true ->
  exists c v,
    lookup_column name (columns df) = Some c /\
    values c !! i = Some v /\
    isna v = true /\
    (date_col = Some name -> name <> EmptyString -> v = VNaT).
Proof.
  intros Hrec Hdf Hj Hrange Hi Hna.
  apply load_data_Ok in Hdf as (data & Hdata & H).
  apply read_csv_Ok in Hdata as (header' & recs' & Hrec' & ->).
  rewrite Hrec in Hrec'. injection Hrec' as <- <-.
  assert (Hraw : exists c v,
             lookup_column name
               (make_columns (column_dtypes header dtypes) (column_names header) recs)
             = Some c
             /\ values c !! i = Some v /\ isna v = true).
  { rewrite (lookup_make_columns _ _ _ _ _ Hj).
    destruct recs as [|rec0 recs]; [discriminate Hi|].
    destruct (convert_column_na (dtype_of (column_dtypes header dtypes) name)
                (field j <$> rec0 :: recs) i (field j rec)) as (v & Hv & Hv');
      [exact Hrange| |exact Hna|eauto].
    rewrite list_lookup_fmap, Hi. reflexivity. }
  destruct Hraw as (c & v & Hc & Hv & Hv').
  destruct date_col as [col|]; cbn [truthy] in H;
    [|subst df; exists c, v; split; [exact Hc|]; split; [exact Hv|];
      split; [exact Hv'|discriminate]].
  destruct (String.eqb_spec col EmptyString) as [->|Hcol]; cbn [negb] in H.
  - subst df. exists c, v. split; [exact Hc|]. split; [exact Hv|]. split; [exact Hv'|].
    intros [= <-] Hne. contradiction.
  - destruct H as (col' & s & dt & [= <-] & Hs & Hdt & ->). cbn [setitem columns].
    destruct (String.eqb_spec name col) as [->|Hne].
    + rewrite lookup_replace_column_eq. unfold getitem in Hs. cbn [columns] in Hs.
      rewrite Hc in Hs. injection Hs as <-.
      pose proof (to_datetime_na _ _ _ _ Hdt Hv Hv') as Hnat.
      exists (s_values dt), VNaT. split; [reflexivity|]. split; [exact Hnat|].
      split; reflexivity.
    + rewrite lookup_replace_column_ne by exact Hne.
      exists c, v. split; [exact Hc|]. split; [exact Hv|]. split; [exact Hv'|].
      intros [= ->]. contradiction.
Qed.

(** ** Times out of range *)

Lemma int64_epoch_to_ns_out_of_range s :
  s <> NPY_NAT -> ~ in_datetime_range s -> int64_epoch_to_ns s = Raise OutOfBoundsDatetime.
Proof.
  unfold int64_epoch_to_ns, in_datetime_range, Timestamp_min, Timestamp_max, SECOND_NS,
    INT64_MIN, INT64_MAX.
  intros Hs Hr. destruct (Z.eqb_spec s NPY_NAT); [contradiction|].
  destruct (Z.ltb_spec (s * 1000000000) (- 2 ^ 63 + 1)); [reflexivity|].
  destruct (Z.ltb_spec (2 ^ 63 - 1) (s * 1000000000)); [reflexivity|].
  exfalso. apply Hr. lia.
Qed.

Lemma traverse_Raise_same {A B} (f : A -> result B) (l : list A) (e : Exception) (x : A) :
  (forall a e', f a = Raise e' -> e' = e) ->
  x ∈ l -> f x = Raise e -> traverse f l = Raise e.
Proof.
  intros Hsame Hin Hx. induction l as [|a l IH]; [inversion Hin|]. cbn [traverse].
  destruct (f a) as [b|e'] eqn:Ha; cbn [bind].
  - rewrite IH; [reflexivity|]. apply elem_of_cons in Hin as [->|Hin]; [congruence|exact Hin].
  - f_equal. eauto.
Qed.

(** X4: a date column read as 64-bit integers that holds a number of
    seconds outside the range of a time in nanoseconds makes [load_data]
    fail with [OutOfBoundsDatetime]. *)
Theorem load_data_out_of_bounds fs path nrows col dtypes data idx secs s :
  col <> EmptyString ->
  read_csv fs path nrows dtypes = Ok data ->
  getitem data col = Ok (mkSeries idx (Int64 secs)) ->
  s ∈ secs -> s <> NPY_NAT -> ~ in_datetime_range s ->
  load_data fs path nrows (Some col) dtypes = Raise OutOfBoundsDatetime.
Proof.
  intros Hcol Hdata Hget Hin Hs Hr. unfold load_data. rewrite Hdata. cbn [bind truthy].
  destruct (String.eqb_spec col EmptyString); [contradiction|]. cbn [negb].
  rewrite Hget. cbn [bind]. unfold to_datetime. cbn [s_values].
  rewrite (traverse_Raise_same int64_epoch_to_ns secs OutOfBoundsDatetime s);
    [reflexivity| |exact Hin|exact (int64_epoch_to_ns_out_of_range s Hs Hr)].
  intros a e'. unfold int64_epoch_to_ns.
  destruct (a =? NPY_NAT); [discriminate|].
  destruct ((a * SECOND_NS <? Timestamp_min) || (Timestamp_max <? a * SECOND_NS));
    [congruence|discriminate].
Qed.

(** ** The row limit and the empty file *)

(** X5: a negative row limit makes [load_data] fail with [ValueError],
    once the file has been opened and its header read. *)
Theorem load_data_negative_nrows fs path n date_col dtypes eol header rows final_newline :
  well_formed header rows ->
  open fs path = Ok (write_csv eol (header :: rows) final_newline) ->
  n < 0 ->
  load_data fs path (Some n) date_col dtypes = Raise ValueError.
Proof.
  intros Hwf Hfile Hn. unfold load_data, read_csv, read_records.
  rewrite Hfile. cbn [bind].
  rewrite (tokenize_write_csv _ eol header rows final_newline Hwf). cbn [bind].
  unfold read_count. cbn [texts fmap list_fmap].
  replace (Nat.min (2 - 0) (S (length rows))) with (S (Nat.min 1 (length rows))) by lia.
  cbn [take].
  rewrite bool_decide_eq_false_2 by exact (well_formed_first header rows Hwf).
  cbn [validate_integer]. destruct (Z.ltb_spec n 0) as [_|]; [reflexivity|lia].
Qed.

(** Line ends and blanks only: nothing is read. *)
Lemma tokenize_helper_blank limit buf : forall s st,
  lines_done limit (mkParser s st [] []) = false ->
  s = START_RECORD \/ s = WHITESPACE_LINE \/ s = EAT_CRNL_NOP ->
  forallb (fun c => is_whitespace c || Ascii.eqb c LF || Ascii.eqb c CR) buf = true ->
  tokenize_helper limit (mkParser s st [] []) buf = Ok (mkParser START_RECORD [] [] []).
Proof.
  induction buf as [|c buf IH]; intros s st Hdone Hs Hbuf; cbn [tokenize_helper];
    rewrite Hdone.
  - destruct Hs as [-> | [-> | ->]]; reflexivity.
  - cbn [forallb] in Hbuf. apply andb_true_iff in Hbuf as [Hc Hbuf].
    assert (Hnext : exists s' st',
               step limit (mkParser s st [] []) c = Ok (mkParser s' st' [] []) /\
               (s' = START_RECORD \/ s' = WHITESPACE_LINE \/ s' = EAT_CRNL_NOP)).
    { unfold step, step_start_record. cbn [state].
      destruct (Ascii.eqb_spec c LF) as [->|Hlf].
      - destruct Hs as [-> | [-> | ->]]; eexists _, _; (split; [reflexivity|auto]).
      - destruct (Ascii.eqb_spec c CR) as [->|Hcr].
        + destruct Hs as [-> | [-> | ->]]; eexists _, _; (split; [reflexivity|auto]).
        + rewrite !orb_false_r in Hc.
          destruct Hs as [-> | [-> | ->]].
          * rewrite Hc. eexists _, _; (split; [reflexivity|auto]).
          * rewrite Hc. eexists _, _; (split; [reflexivity|auto]).
          * assert (Ascii.eqb c delimiter = false) as ->.
            { unfold is_whitespace in Hc. apply orb_true_iff in Hc as [Hc|Hc];
                apply Ascii.eqb_eq in Hc; subst c; reflexivity. }
            cbn [orb state set_state]. rewrite Hc.
            eexists _, _; (split; [reflexivity|auto]). }
    destruct Hnext as (s' & st' & -> & Hs'). cbn [bind].
    apply IH; [|exact Hs'|exact Hbuf].
    rewrite <- Hdone. apply lines_done_mk.
Qed.

(** X6: a file that is empty, or holds nothing but line ends and blanks,
    makes [load_data] fail with [EmptyDataError]. *)
Theorem load_data_blank_file fs path nrows date_col dtypes data :
  open fs path = Ok data ->
  forallb (fun c => Tokenizer.is_whitespace c || Ascii.eqb c Tokenizer.LF
                    || Ascii.eqb c Tokenizer.CR) (list_ascii_of_string data) = true ->
  load_data fs path nrows date_col dtypes = Raise EmptyDataError.
Proof.
  intros Hfile Hblank. unfold load_data, read_csv, read_records.
  rewrite Hfile. cbn [bind]. unfold Tokenizer.tokenize, Tokenizer.parser_new.
  rewrite tokenize_helper_blank; [reflexivity|reflexivity|auto|exact Hblank].
Qed.

(** ** Columns with a requested dtype, and columns of integers *)

Lemma categorical_convert_values cells :
  values (categorical_convert cells) = string_cell <$> cells.
Proof.
  unfold categorical_convert. cbn [values].
  set (cats := isort String.leb (unique String.eqb (filter (fun s => negb (is_na s)) cells))).
  rewrite <- list_fmap_compose. apply Forall_fmap_ext, Forall_forall. intros s Hs.
  unfold compose, string_cell. destruct (is_na s) eqn:Hna; [reflexivity|].
  assert (Hin : s ∈ cats).
  { unfold cats. rewrite isort_Permutation.
    destruct (unique_covers String.eqb s (filter (fun s => negb (is_na s)) cells))
      as (k & Hk & Hkx).
    - intros a b c Hab Hbc. apply String.eqb_eq in Hab, Hbc. subst. apply String.eqb_refl.
    - apply String.eqb_refl.
    - apply list_elem_of_filter. rewrite Hna. split; [exact I|exact Hs].
    - apply String.eqb_eq in Hkx. subst. exact Hk. }
  destruct (index_of_elem _ _ Hin) as [i Hi]. rewrite Hi. cbn [from_option].
  unfold value_of_code. destruct (Z.ltb_spec (Z.of_nat i) 0); [lia|].
  rewrite Nat2Z.id, (index_of_Some _ _ _ Hi). reflexivity.
Qed.

(** X7: the cells of a column loaded with a requested dtype are the cells
    of the file, one per record and in the order of the records, the
    missing-value markers as missing cells; for a categorical column,
    decoding the codes with the labels gives the cells back. *)
Theorem load_data_typed_values fs path nrows date_col dtypes header recs df name j dt :
  dtype_of dtypes name = Some dt ->
  date_col <> Some name ->
  read_records fs path nrows = Ok (header, recs) ->
  index_of name (column_names header) = Some j ->
  load_data fs path nrows date_col dtypes = Ok df ->
  exists c,
    lookup_column name (columns df) = Some c /\
    values c = string_cell <$> (field j <$> recs).
Proof.
  intros Hdt Hne Hrec Hj Hdf.
  apply load_data_Ok in Hdf as (data & Hdata & H).
  apply read_csv_Ok in Hdata as (header' & recs' & Hrec' & ->).
  rewrite Hrec in Hrec'. injection Hrec' as <- <-.
  assert (Hraw : exists c,
             lookup_column name
               (make_columns (column_dtypes header dtypes) (column_names header) recs)
             = Some c
             /\ values c = string_cell <$> (field j <$> recs)).
  { rewrite (lookup_make_columns _ _ _ _ _ Hj), (column_dtypes_Some _ _ _ _ Hdt).
    eexists. split; [reflexivity|].
    destruct recs as [|rec recs]; [destruct dt; reflexivity|].
    destruct dt; cbn [convert_column]; [apply categorical_convert_values|reflexivity]. }
  destruct Hraw as (c & Hc & Hv). exists c. split; [|exact Hv].
  destruct (truthy date_col); [|subst df; exact Hc].
  destruct H as (col & s & dt' & -> & _ & _ & ->). cbn [setitem columns].
  rewrite lookup_replace_column_ne by congruence. exact Hc.
Qed.

(** X8: a column to which no requested dtype applies and whose cells are
    all integer literals within the 64-bit range is loaded as a column of
    64-bit integers that holds exactly the integers written in the file:
    identifiers do not pass through floating point. *)
Theorem load_data_integer_column fs path nrows date_col dtypes header recs df name j zs :
  read_records fs path nrows = Ok (header, recs) ->
  load_data fs path nrows date_col dtypes = Ok df ->
  index_of name (column_names header) = Some j ->
  dtype_of (column_dtypes header dtypes) name = None ->
  date_col <> Some name ->
  recs <> [] ->
  Forall2 (fun cell z => str_to_int cell = Some z) (field j <$> recs) zs ->
  Forall (fun z => INT64_MIN <= z <= INT64_MAX) zs ->
  lookup_column name (columns df) = Some (Int64 zs).
Proof.
  intros Hrec Hdf Hj Hdt Hne Hrecs Hcells Hrange.
  apply load_data_Ok in Hdf as (data & Hdata & H).
  apply read_csv_Ok in Hdata as (header' & recs' & Hrec' & ->).
  rewrite Hrec in Hrec'. injection Hrec' as <- <-.
  assert (Hraw : lookup_column name
                   (make_columns (column_dtypes header dtypes) (column_names header) recs)
                 = Some (Int64 zs)).
  { rewrite (lookup_make_columns _ _ _ _ _ Hj), Hdt. f_equal.
    destruct recs as [|rec recs]; [contradiction|].
    cbn [convert_column]. apply infer_column_int64; assumption. }
  destruct (truthy date_col); [|subst df; exact Hraw].
  destruct H as (col & s & dt' & -> & _ & _ & ->). cbn [setitem columns].
  rewrite lookup_replace_column_ne by congruence. exact Hraw.
Qed.

(** ** The row limit *)

Lemma typed_column_values dt j (recs : list (list string)) :
  values (match recs with
          | [] => empty_column (Some dt)
          | _ => convert_column (Some dt) (field j <$> recs)
          end)
  = string_cell <$> (field j <$> recs).
Proof.
  destruct recs as [|rec recs]; [destruct dt; reflexivity|].
  destruct dt; cbn [convert_column]; [apply categorical_convert_values|reflexivity].
Qed.

Lemma lookup_column_names name cols c :
  lookup_column name cols = Some c -> name ∈ cols.*1.
Proof.
  induction cols as [|[k c'] cols IH]; cbn; [discriminate|].
  destruct (String.eqb_spec name k) as [->|_]; [left|right; auto].
Qed.

Lemma RangeIndex_take n m : take n (RangeIndex m) = RangeIndex (Nat.min n m).
Proof.
  unfold RangeIndex. rewrite <- fmap_take. f_equal. apply take_seq.
Qed.

(** X21: for a well-formed file, its lines ended in any of the three
    ways, loading with a row limit [n] gives the beginning of what
    loading without limit gives: the first [n] row labels, and, in every
    column with a requested dtype that is not the date column, the first
    [n] cells. *)
Theorem load_data_nrows_prefix fs path n date_col dtypes eol header rows final_newline
  name dt limited whole c_limited c_whole :
  well_formed header rows ->
  open fs path = Ok (write_csv eol (header :: rows) final_newline) ->
  0 <= n ->
  dtype_of dtypes name = Some dt ->
  date_col <> Some name ->
  load_data fs path (Some n) date_col dtypes = Ok limited ->
  load_data fs path None date_col dtypes = Ok whole ->
  lookup_column name (columns limited) = Some c_limited ->
  lookup_column name (columns whole) = Some c_whole ->
  index limited = take (Z.to_nat n) (index whole) /\
  values c_limited = take (Z.to_nat n) (values c_whole).
Proof.
  intros Hwf Hfile Hn Hdt Hne Hlim Hwhole Hcl Hcw.
  assert (Hrec_l := read_records_well_formed fs path (Some n) eol header rows final_newline
                      Hwf Hfile ltac:(intros ? [= <-]; exact Hn)).
  assert (Hrec_w := read_records_well_formed fs path None eol header rows final_newline
                      Hwf Hfile ltac:(discriminate)).
  cbv beta iota in Hrec_l, Hrec_w.
  set (names := column_names header.*2) in *.
  assert (Hcols : forall nrows recs df c,
             read_records fs path nrows = Ok (header.*2, recs) ->
             load_data fs path nrows date_col dtypes = Ok df ->
             lookup_column name (columns df) = Some c ->
             index df = RangeIndex (length recs) /\
             exists j, index_of name names = Some j /\
                       values c = string_cell <$> (field j <$> recs)).
  { intros nrows recs df c Hrec Hdf Hc.
    apply load_data_Ok in Hdf as (data & Hdata & H).
    apply read_csv_Ok in Hdata as (header' & recs' & Hrec' & ->).
    rewrite Hrec in Hrec'. injection Hrec' as <- <-. fold names in H, Hc |- *.
    assert (Hraw : index df = RangeIndex (length recs)
                   /\ lookup_column name
                        (make_columns (column_dtypes header.*2 dtypes) names recs)
                      = Some c).
    { destruct (truthy date_col); [|subst df; auto].
      destruct H as (col & s & dt' & -> & _ & _ & ->). cbn [setitem columns index] in *.
      rewrite lookup_replace_column_ne in Hc by congruence. auto. }
    destruct Hraw as [Hidx Hraw]. split; [exact Hidx|].
    assert (Hin : name ∈ names).
    { apply lookup_column_names in Hraw. unfold make_columns in Hraw.
      rewrite (names_imap
                 (fun j k => match recs with
                             | [] => empty_column (dtype_of (column_dtypes header.*2 dtypes) k)
                             | _ => convert_column
                                      (dtype_of (column_dtypes header.*2 dtypes) k)
                                      (field j <$> recs)
                             end)) in Hraw. exact Hraw. }
    destruct (index_of_elem _ _ Hin) as [j Hj]. exists j. split; [exact Hj|].
    rewrite (lookup_make_columns _ _ _ _ _ Hj), (column_dtypes_Some _ _ _ _ Hdt) in Hraw.
    injection Hraw as <-. apply typed_column_values. }
  destruct (Hcols _ _ _ _ Hrec_l Hlim Hcl) as [Hil (j & Hj & Hvl)].
  destruct (Hcols _ _ _ _ Hrec_w Hwhole Hcw) as [Hiw (j' & Hj' & Hvw)].
  rewrite Hj in Hj'. injection Hj' as <-. split.
  - rewrite Hil, Hiw, RangeIndex_take, length_take. reflexivity.
  - rewrite Hvl, Hvw, <- !fmap_take. reflexivity.
Qed.

(** * Further properties of the queries *)

(** ** Views of columns *)

Lemma getitem_list_lookup df names shown :
  getitem_list df names = Ok shown ->
  index shown = index df /\
  (columns shown).*1 = names /\
  Forall (fun kc => lookup_column kc.1 (columns df) = Some kc.2) (columns shown).
Proof.
  unfold getitem_list. intros H. apply bind_Ok in H as (cols & Hcols & [= <-]).
  cbn [index columns]. split; [reflexivity|].
  revert cols Hcols. induction names as [|n names IH]; intros cols Hcols;
    cbn [traverse] in Hcols.
  - injection Hcols as <-. split; [reflexivity|constructor].
  - destruct (lookup_column n (columns df)) as [c|] eqn:Hc; [|discriminate].
    cbn [bind] in Hcols. apply bind_Ok in Hcols as (cols' & Hcols' & [= <-]).
    destruct (IH _ Hcols') as [Hn Hl]. split; [cbn; f_equal; exact Hn|].
    constructor; [exact Hc|exact Hl].
Qed.

Lemma getitem_list_KeyError df names name :
  name ∈ names -> lookup_column name (columns df) = None ->
  getitem_list df names = Raise KeyError.
Proof.
  intros Hin Hname. unfold getitem_list.
  rewrite (traverse_Raise_same _ names KeyError name); [reflexivity| |exact Hin|].
  - intros a e'. destruct (lookup_column a (columns df)); [discriminate|congruence].
  - rewrite Hname. reflexivity.
Qed.

(** X9: a view of the script that names a column which the table does
    not have fails with [KeyError]: the duplicates and the text columns
    for any of the columns they show, the author frequencies and the
    articles of the first authors for [authorPersonId]. *)
Theorem views_missing_column articles_df author_freq_df name :
  lookup_column name (columns articles_df) = None ->
  (name ∈ [ "timestamp"; "eventType"; "contentId"; "contentType";
            "authorPersonId"; "url"; "title" ]%string ->
   duplicates articles_df = Raise KeyError) /\
  (name ∈ [ "authorCountry"; "lang"; "url"; "title"; "text" ]%string ->
   text_columns articles_df = Raise KeyError) /\
  (name = "authorPersonId"%string ->
   author_freq articles_df = Raise KeyError /\
   top_authors articles_df author_freq_df = Raise KeyError).
Proof.
  intros Hname. split; [|split].
  - intros Hin. unfold duplicates.
    rewrite (getitem_list_KeyError _ _ _ Hin Hname). reflexivity.
  - intros Hin. exact (getitem_list_KeyError _ _ _ Hin Hname).
  - intros ->. unfold author_freq, groupby_size, top_authors, getitem.
    rewrite Hname. split; reflexivity.
Qed.

(** ** The duplicates *)

Lemma select_fmap_filter {A} (f : A -> bool) (l : list A) :
  select (f <$> l) l = filter (fun x => f x) l.
Proof.
  induction l as [|x l IH]; [reflexivity|]. cbn [fmap list_fmap select].
  rewrite filter_cons. destruct (f x); cbn; rewrite IH; reflexivity.
Qed.

Lemma count_value_eqb v w l :
  value_eqb v w = true -> count_value v l = count_value w l.
Proof.
  intros Hvw. unfold count_value. apply filter_length_ext. intros x _.
  destruct (value_eqb w x) eqn:Hwx.
  - exact (value_eqb_trans _ _ _ Hvw Hwx).
  - destruct (value_eqb v x) eqn:Hvx; [|reflexivity].
    rewrite value_eqb_sym in Hvw. rewrite <- Hwx. symmetry.
    exact (value_eqb_trans _ _ _ Hvw Hvx).
Qed.

(** The cells that occur twice or more keep all their occurrences. *)
Lemma count_value_duplicated v l :
  (2 <= count_value v l)%nat ->
  count_value v (filter (fun x => bool_decide (2 <= count_value x l)%nat) l)
  = count_value v l.
Proof.
  intros Hv. unfold count_value at 1 3.
  apply (filter_filter_length (fun x => value_eqb v x)
           (fun x => bool_decide (2 <= count_value x l)%nat)).
  intros x _ Hvx. apply bool_decide_eq_true.
  rewrite <- (count_value_eqb _ _ l Hvx). exact Hv.
Qed.

Lemma count_value_le v l : (count_value v l <= length l)%nat.
Proof. unfold count_value. apply length_filter. Qed.

Lemma select_length {A B} mask (l : list A) (l' : list B) :
  length l = length l' -> length (select mask l) = length (select mask l').
Proof.
  revert l l'. induction mask as [|b mask IH]; intros l l' Hlen; [reflexivity|].
  destruct l as [|x l], l' as [|y l']; try discriminate; [destruct b; reflexivity|].
  cbn [select]. destruct b; cbn [length]; rewrite (IH l l'); auto.
Qed.

Lemma lookup_column_fmap (g : Column -> Column) name cols :
  lookup_column name ((fun kc => (kc.1, g kc.2)) <$> cols) = g <$> lookup_column name cols.
Proof.
  induction cols as [|[k c] cols IH]; [reflexivity|]. cbn.
  destruct (String.eqb name k); [reflexivity|exact IH].
Qed.

(** What the duplicates are made of: the columns shown, at the rows whose
    title occurs twice or more. *)
Lemma duplicates_Ok articles_df result :
  duplicates articles_df = Ok result ->
  exists shown c,
    getitem_list articles_df
      [ "timestamp"; "eventType"; "contentId"; "contentType";
        "authorPersonId"; "url"; "title" ]%string = Ok shown /\
    lookup_column "title" (columns articles_df) = Some c /\
    let mask := (fun v => bool_decide (2 <= count_value v (values c))%nat) <$> values c in
    result = getitem_mask shown mask /\
    lookup_column "title" (columns result) = Some (select_column mask c) /\
    values (select_column mask c)
    = filter (fun v => bool_decide (2 <= count_value v (values c))%nat) (values c).
Proof.
  unfold duplicates. intros H. apply bind_Ok in H as (shown & Hshown & H).
  apply bind_Ok in H as (title & Htitle & [= <-]).
  unfold getitem in Htitle.
  destruct (lookup_column "title" (columns articles_df)) as [c|] eqn:Hc; [|discriminate].
  injection Htitle as <-. exists shown, c. split; [exact Hshown|]. split; [reflexivity|].
  rewrite duplicated_spec. cbn [s_values]. split; [reflexivity|].
  destruct (getitem_list_lookup _ _ _ Hshown) as (_ & Hnames & Hcols).
  split.
  - cbn [getitem_mask columns]. rewrite lookup_column_fmap.
    assert (Hlook : lookup_column "title" (columns shown) = Some c); [|rewrite Hlook; reflexivity].
    destruct (columns shown) as [|[k1 c1] [|[k2 c2] [|[k3 c3] [|[k4 c4] [|[k5 c5]
      [|[k6 c6] [|[k7 c7] [|? ?]]]]]]]]; try discriminate Hnames.
    injection Hnames as -> -> -> -> -> -> ->.
    repeat (apply Forall_cons in Hcols as [? Hcols]). cbn in *. congruence.
  - rewrite values_select_column. apply select_fmap_filter.
Qed.

(** X10: every title of the duplicates occurs twice or more among the
    titles of the duplicates themselves; for a loaded table the view
    never consists of a single row. *)
Theorem duplicates_paired fs path nrows date_col dtypes articles_df result :
  load_data fs path nrows date_col dtypes = Ok articles_df ->
  duplicates articles_df = Ok result ->
  exists title,
    getitem result "title" = Ok title /\
    (forall v, v ∈ values (s_values title) ->
               (2 <= count_value v (values (s_values title)))%nat) /\
    length (index result) = length (values (s_values title)) /\
    length (index result) <> 1%nat.
Proof.
  intros Hload Hdup.
  destruct (duplicates_Ok _ _ Hdup) as (shown & c & Hshown & Hc & Hres & Hlook & Hvals).
  cbn zeta in Hres, Hlook, Hvals.
  set (mask := (fun v => bool_decide (2 <= count_value v (values c))%nat) <$> values c) in *.
  exists (mkSeries (index result) (select_column mask c)).
  split; [unfold getitem; rewrite Hlook; reflexivity|]. cbn [s_values].
  assert (Hpaired : forall v, v ∈ values (select_column mask c) ->
                              (2 <= count_value v (values (select_column mask c)))%nat).
  { intros v Hv. rewrite Hvals in Hv |- *. apply list_elem_of_filter in Hv as [Hv _].
    apply bool_decide_unpack in Hv. rewrite count_value_duplicated; exact Hv. }
  assert (Hlen : length (index result) = length (values (select_column mask c))).
  { rewrite Hres, values_select_column. cbn [getitem_mask index].
    apply select_length.
    destruct (getitem_list_lookup _ _ _ Hshown) as (-> & _ & _).
    pose proof (load_data_wf _ _ _ _ _ _ Hload) as Hwf.
    destruct (lookup_column_Forall _ _ _ _ Hwf Hc) as [k [Hk _]].
    rewrite values_length. symmetry. exact Hk. }
  split; [exact Hpaired|]. split; [exact Hlen|].
  rewrite Hlen. intros Hone.
  destruct (values (select_column mask c)) as [|v [|? ?]] eqn:Hl; try discriminate Hone.
  specialize (Hpaired v ltac:(left)). pose proof (count_value_le v [v]) as Hle.
  cbn [length] in Hle. lia.
Qed.

Lemma select_all {A} (mask : list bool) (l : list A) :
  Forall (fun b => b = true) mask -> (length l <= length mask)%nat -> select mask l = l.
Proof.
  intros Hmask. revert l. induction Hmask as [|b mask -> _ IH]; intros l Hlen.
  - destruct l; [reflexivity|cbn in Hlen; lia].
  - destruct l as [|x l]; [reflexivity|]. cbn [select]. f_equal. apply IH.
    cbn in Hlen. lia.
Qed.

Lemma select_column_all mask c :
  Forall (fun b => b = true) mask -> (column_length c <= length mask)%nat ->
  select_column mask c = c.
Proof.
  intros Hmask Hlen. destruct c; cbn [select_column column_length] in *; f_equal;
    apply select_all; assumption.
Qed.

(** A mask that is true everywhere selects the whole table. *)
Lemma getitem_mask_all df mask :
  Forall (fun b => b = true) mask ->
  (length (index df) <= length mask)%nat ->
  Forall (fun kc => (column_length kc.2 <= length mask)%nat) (columns df) ->
  getitem_mask df mask = df.
Proof.
  intros Hmask Hidx Hcols. destruct df as [idx cols]. unfold getitem_mask.
  cbn [index columns] in *. f_equal; [apply select_all; assumption|].
  induction Hcols as [|[k c] cols Hc _ IH]; [reflexivity|].
  cbn [fmap list_fmap]. cbn [fst snd] in *. rewrite (select_column_all _ _ Hmask Hc).
  f_equal. exact IH.
Qed.

Lemma getitem_mask_rectangular df mask :
  rectangular df -> rectangular (getitem_mask df mask).
Proof.
  unfold rectangular, getitem_mask. cbn [index columns]. intros H.
  apply Forall_fmap. eapply Forall_impl; [exact H|]. intros [k c] Hc.
  unfold compose. cbn [fst snd] in *.
  rewrite <- (values_length (select_column mask c)), values_select_column.
  apply select_length. rewrite values_length. exact Hc.
Qed.

Lemma load_data_rectangular fs path nrows date_col dtypes df :
  load_data fs path nrows date_col dtypes = Ok df -> rectangular df.
Proof.
  intros H. pose proof (load_data_wf _ _ _ _ _ _ H) as Hwf.
  eapply Forall_impl; [exact Hwf|]. intros kc [Hkc _]. exact Hkc.
Qed.

Lemma getitem_list_rectangular df names shown :
  rectangular df -> getitem_list df names = Ok shown -> rectangular shown.
Proof.
  intros Hdf Hshown. destruct (getitem_list_lookup _ _ _ Hshown) as (Hidx & _ & Hcols).
  unfold rectangular. rewrite Hidx. eapply Forall_impl; [exact Hcols|].
  intros [k c] Hc. cbn [fst snd] in *.
  destruct (lookup_column_Forall _ _ _ _ Hdf Hc) as [k' Hk']. exact Hk'.
Qed.

(** X11: the duplicates of a loaded table are their own duplicates:
    asking the view for the duplicates among its rows returns the view
    unchanged. *)
Theorem duplicates_idempotent fs path nrows date_col dtypes articles_df result :
  load_data fs path nrows date_col dtypes = Ok articles_df ->
  duplicates articles_df = Ok result ->
  duplicates result = Ok result.
Proof.
  intros Hload Hdup.
  destruct (duplicates_Ok _ _ Hdup) as (shown & c & Hshown & Hc & Hres & Hlook & Hvals).
  cbn zeta in Hres, Hlook, Hvals.
  set (mask := (fun v => bool_decide (2 <= count_value v (values c))%nat) <$> values c) in *.
  assert (Hrect : rectangular result).
  { rewrite Hres. apply getitem_mask_rectangular.
    eapply getitem_list_rectangular; [|exact Hshown].
    exact (load_data_rectangular _ _ _ _ _ _ Hload). }
  assert (Hlist : getitem_list result
                    [ "timestamp"; "eventType"; "contentId"; "contentType";
                      "authorPersonId"; "url"; "title" ]%string = Ok result).
  { destruct (getitem_list_lookup _ _ _ Hshown) as (_ & Hnames & _).
    rewrite Hres. unfold getitem_mask. cbn [columns index].
    destruct (columns shown) as [|[k1 c1] [|[k2 c2] [|[k3 c3] [|[k4 c4] [|[k5 c5]
      [|[k6 c6] [|[k7 c7] [|? ?]]]]]]]]; try discriminate Hnames.
    injection Hnames as -> -> -> -> -> -> ->. reflexivity. }
  unfold duplicates. rewrite Hlist. cbn [bind]. unfold getitem. rewrite Hlook.
  cbn [bind]. f_equal. rewrite duplicated_spec. cbn [s_values].
  pose proof Hrect as Hrect'. unfold rectangular in Hrect'.
  destruct (lookup_column_Forall _ _ _ _ Hrect' Hlook) as [k Hk]. cbn [snd] in Hk.
  apply getitem_mask_all.
  - apply Forall_fmap, Forall_forall. intros v Hv. cbn.
    apply bool_decide_eq_true. rewrite Hvals in Hv |- *.
    apply list_elem_of_filter in Hv as [Hv _]. apply bool_decide_unpack in Hv.
    rewrite count_value_duplicated; exact Hv.
  - rewrite length_fmap, values_length, Hk. reflexivity.
  - eapply Forall_impl; [exact Hrect'|]. intros kc Hkc. cbn beta in Hkc.
    rewrite length_fmap, values_length, Hk, Hkc. reflexivity.
Qed.

(** ** The author frequencies *)

Lemma keys_of_Permutation keys keys' vals :
  keys ≡ₚ keys' -> keys_of keys vals -> keys_of keys' vals.
Proof.
  intros Hperm (Hna & Hone & Hcover). split; [|split].
  - intros k Hk. apply Hna. rewrite Hperm. exact Hk.
  - intros k Hk. rewrite <- Hperm. apply Hone. rewrite Hperm. exact Hk.
  - intros v Hv Hv'. destruct (Hcover v Hv Hv') as (k & Hk & Hkv).
    exists k. rewrite <- Hperm. auto.
Qed.

(** A cell that is not missing has exactly one key. *)
Lemma keys_of_once keys vals v :
  keys_of keys vals -> v ∈ vals -> isna v = false ->
  length (filter (fun k => value_eqb k v) keys) = 1%nat.
Proof.
  intros (_ & Hone & Hcover) Hv Hna. destruct (Hcover v Hv Hna) as (k & Hk & Hkv).
  rewrite <- (Hone k Hk). apply filter_length_ext. intros k' _.
  destruct (value_eqb k' k) eqn:Hk'.
  - exact (value_eqb_trans _ _ _ Hk' Hkv).
  - destruct (value_eqb k' v) eqn:Hk'v; [|reflexivity].
    rewrite <- Hk'. symmetry. apply (value_eqb_trans _ v); [exact Hk'v|].
    rewrite value_eqb_sym. exact Hkv.
Qed.

Lemma convert_column_observed dt cells : observed (convert_column dt cells).
Proof.
  destruct dt as [[|]|]; cbn [convert_column]; try exact I.
  - pose proof (categorical_convert_values cells) as Hv.
    destruct (categorical_convert_labels cells) as (cats & codes & Heq & _ & Hcats).
    rewrite Heq in Hv |- *. cbn [observed]. intros s Hs. rewrite Hv.
    apply Hcats in Hs as [Hs Hna]. apply list_elem_of_fmap. exists s.
    unfold string_cell. rewrite Hna. auto.
  - destruct (infer_column_Inferred cells); exact I.
Qed.

Lemma make_columns_observed dtype names recs :
  Forall (fun kc => observed kc.2) (make_columns dtype names recs).
Proof.
  unfold make_columns.
  assert (H : forall (g : nat -> string -> Column),
             (forall j k, observed (g j k)) ->
             Forall (fun kc => observed kc.2) (imap (fun j k => (k, g j k)) names)).
  { induction names as [|k names IH]; intros g Hg; cbn [imap]; constructor.
    - apply Hg.
    - apply (IH (fun j => g (S j))). intros j k'. apply Hg. }
  apply (H (fun j name => match recs with
                          | [] => empty_column (dtype_of dtype name)
                          | _ => convert_column (dtype_of dtype name) (field j <$> recs)
                          end)).
  intros j k. destruct recs as [|rec recs]; [|apply convert_column_observed].
  destruct (dtype_of dtype k) as [[|]|]; cbn; try exact I. intros s Hs. inversion Hs.
Qed.

(** Every label of a categorical column of a loaded table is the label
    of some row. *)
Lemma load_data_observed fs path nrows date_col dtypes df :
  load_data fs path nrows date_col dtypes = Ok df ->
  Forall (fun kc => observed kc.2) (columns df).
Proof.
  intros H. apply load_data_Ok in H as (data & Hdata & H).
  apply read_csv_Ok in Hdata as (names & recs & _ & ->).
  pose proof (make_columns_observed (column_dtypes names dtypes) (column_names names) recs)
    as Hobs.
  destruct (truthy date_col); [|subst df; exact Hobs].
  destruct H as (col & s & dt & _ & _ & Hdt & ->). cbn [setitem columns].
  apply replace_column_Forall; [exact Hobs|]. intros k. cbn [snd].
  unfold to_datetime in Hdt. apply bind_Ok in Hdt as (l & _ & [= <-]). exact I.
Qed.

(** The group keys of a column whose labels are all in use are cells of
    the column. *)
Lemma group_keys_observed c k :
  observed c -> k ∈ group_keys c -> k ∈ values c.
Proof.
  intros Hobs Hk. destruct (group_keys_elem _ _ Hk) as [Hin|[s ->]]; [exact Hin|].
  destruct c; try (destruct (group_keys_elem _ _ Hk) as [Hin|_]; [exact Hin|]);
    cbn [group_keys] in Hk.
  all: try (rewrite isort_Permutation in Hk;
            apply elem_of_unique, list_elem_of_filter in Hk as [_ Hk]; exact Hk).
  apply list_elem_of_fmap in Hk as (s' & [= ->] & Hs'). apply Hobs. exact Hs'.
Qed.

(** What [author_freq] returns on a loaded table: its rows are the group
    keys in descending order of their sizes, each with its number of
    rows. *)
Lemma author_freq_rows fs path nrows date_col dtypes articles_df authors :
  load_data fs path nrows date_col dtypes = Ok articles_df ->
  getitem articles_df "authorPersonId" = Ok authors ->
  let vals := values (s_values authors) in
  exists r pct sizes,
    author_freq articles_df = Ok r /\
    columns r
    = [ ("num_articles", Int64 (take_at (argsort_descending (VInt <$> sizes)) sizes));
        ("percent", Float64 pct) ]%string /\
    take_at (argsort_descending (VInt <$> sizes)) sizes
    = (fun k => Z.of_nat (count_value k vals)) <$> index r /\
    index r ≡ₚ group_keys (s_values authors) /\
    keys_of (index r) vals /\
    (forall k, k ∈ index r -> k ∈ vals).
Proof.
  intros Hload Hget vals. pose proof (author_freq_Ok _ _ Hget) as Hfreq.
  cbn zeta in Hfreq. fold vals in Hfreq.
  set (keys := group_keys (s_values authors)) in *.
  set (sizes := (fun k => Z.of_nat (count_value k vals)) <$> keys) in *.
  set (idx := argsort_descending (VInt <$> sizes)) in *.
  assert (Hperm : take_at idx keys ≡ₚ keys).
  { apply take_at_argsort. unfold sizes. rewrite !length_fmap. reflexivity. }
  assert (Hcol : exists c, lookup_column "authorPersonId" (columns articles_df) = Some c
                           /\ s_values authors = c).
  { unfold getitem in Hget.
    destruct (lookup_column "authorPersonId" (columns articles_df)) as [c|]; [|discriminate].
    injection Hget as <-. eauto. }
  destruct Hcol as (c & Hc & Hsv).
  destruct (lookup_column_Forall _ _ _ _ (load_data_wf _ _ _ _ _ _ Hload) Hc)
    as [? [_ Hvalid]].
  destruct (lookup_column_Forall _ _ _ _ (load_data_observed _ _ _ _ _ _ Hload) Hc)
    as [? Hobs].
  cbn [snd] in Hvalid, Hobs. rewrite <- Hsv in Hvalid, Hobs.
  eexists _, _, sizes. split; [exact Hfreq|]. cbn [columns index].
  split; [reflexivity|]. split; [apply take_at_fmap|].
  split; [exact Hperm|]. split.
  - apply (keys_of_Permutation keys); [symmetry; exact Hperm|].
    apply group_keys_spec. exact Hvalid.
  - intros k Hk. rewrite Hperm in Hk. exact (group_keys_observed _ _ Hobs Hk).
Qed.

(** X12: each row of the author frequencies of a loaded table pairs an
    author with the number of rows of the table that this author has;
    every author of the table that is not missing has exactly one row,
    and every row is an author of the table that is not missing. *)
Theorem author_freq_counts fs path nrows date_col dtypes articles_df authors :
  load_data fs path nrows date_col dtypes = Ok articles_df ->
  getitem articles_df "authorPersonId" = Ok authors ->
  let vals := values (s_values authors) in
  exists r,
    author_freq articles_df = Ok r /\
    lookup_column "num_articles" (columns r)
    = Some (Int64 ((fun k => Z.of_nat (count_value k vals)) <$> index r)) /\
    (forall v, v ∈ vals -> isna v = false ->
               length (filter (fun k => value_eqb k v) (index r)) = 1%nat) /\
    (forall k, k ∈ index r -> k ∈ vals /\ isna k = false).
Proof.
  intros Hload Hget vals.
  destruct (author_freq_rows _ _ _ _ _ _ _ Hload Hget)
    as (r & pct & sizes & Hr & Hcols & Hnum & _ & Hkeys & Hin).
  exists r. split; [exact Hr|]. split; [rewrite Hcols, Hnum; reflexivity|]. split.
  - intros v Hv Hna. exact (keys_of_once _ _ _ Hkeys Hv Hna).
  - intros k Hk. split; [exact (Hin k Hk)|]. destruct Hkeys as (Hna & _). exact (Hna k Hk).
Qed.

(** *** The order of the rows *)

Lemma insert_sorted_Sorted {A} (leb : A -> A -> bool) x l :
  (forall b, b ∈ l -> leb x b = true \/ leb b x = true) ->
  Sorted (fun a b => leb a b = true) l ->
  Sorted (fun a b => leb a b = true) (insert_sorted leb x l).
Proof.
  intros Htotal Hl. induction Hl as [|y l Hl IH Hhd]; cbn [insert_sorted].
  - repeat constructor.
  - assert (Hyx : leb x y = false -> leb y x = true).
    { intros Hxy. destruct (Htotal y) as [H|H]; [left|congruence|exact H]. }
    destruct (leb x y) eqn:Hxy.
    + constructor; [constructor; assumption|constructor; exact Hxy].
    + constructor; [apply IH; intros b Hb; apply Htotal; right; exact Hb|].
      destruct l as [|z l]; cbn [insert_sorted].
      * constructor. auto.
      * destruct (leb x z); constructor; [auto|]. inversion Hhd; assumption.
Qed.

Lemma isort_Sorted {A} (leb : A -> A -> bool) l :
  (forall a b, a ∈ l -> b ∈ l -> leb a b = true \/ leb b a = true) ->
  Sorted (fun a b => leb a b = true) (isort leb l).
Proof.
  induction l as [|x l IH]; intros Htotal; [constructor|].
  change (isort leb (x :: l)) with (insert_sorted leb x (isort leb l)).
  apply insert_sorted_Sorted.
  - intros b Hb. rewrite isort_Permutation in Hb. apply Htotal; [left|right; exact Hb].
  - apply IH. intros a b Ha Hb. apply Htotal; right; assumption.
Qed.

Lemma take_at_cells_Sorted (sizes : list Z) (cells : list (nat * Value)) :
  Forall (fun iv => exists n, iv.2 = VInt n /\ sizes !! iv.1 = Some n) cells ->
  Sorted (fun a b : nat * Value => value_leb b.2 a.2 = true) cells ->
  Sorted (fun a b => b <= a) (take_at cells.*1 sizes).
Proof.
  intros Hcells Hsorted. induction Hsorted as [|[i v] cells Hs IH Hhd]; [constructor|].
  apply Forall_cons in Hcells as [(n & Hv & Hn) Hcells]. cbn [fst snd] in Hv, Hn. subst v.
  unfold take_at in *. cbn [fmap list_fmap omap list_omap fst]. rewrite Hn. cbn.
  constructor; [exact (IH Hcells)|].
  destruct Hhd as [|[i' v'] cells' Hle]; [constructor|].
  apply Forall_cons in Hcells as [(n' & Hv' & Hn') _]. cbn [fst snd] in Hv', Hn'. subst v'.
  cbn [fmap list_fmap omap list_omap fst]. rewrite Hn'. cbn. constructor.
  cbn in Hle. apply Z.leb_le. exact Hle.
Qed.

(** The sizes taken in descending order do not increase. *)
Lemma take_at_argsort_Sorted (sizes : list Z) :
  Sorted (fun a b => b <= a) (take_at (argsort_descending (VInt <$> sizes)) sizes).
Proof.
  unfold argsort_descending.
  set (cells := imap (fun i v => (i, v)) (VInt <$> sizes)).
  assert (Hcells : forall iv, iv ∈ cells -> exists n', iv.2 = VInt n'
                                               /\ sizes !! iv.1 = Some n').
  { intros [i v]. unfold cells. rewrite elem_of_lookup_imap. cbn [fst snd].
    intros (i' & v' & [= -> ->] & Hv). rewrite list_lookup_fmap in Hv.
    destruct (sizes !! i') as [n'|]; [|discriminate]. injection Hv as <-. eauto. }
  rewrite (filter_all (fun iv => negb (isna iv.2)) cells),
          (filter_none (fun iv => isna iv.2) cells).
  2: { intros iv Hiv. apply Hcells in Hiv as (n' & -> & _). reflexivity. }
  2: { intros iv Hiv. apply Hcells in Hiv as (n' & -> & _). reflexivity. }
  rewrite app_nil_r. apply take_at_cells_Sorted.
  - apply Forall_forall. intros iv Hiv. rewrite isort_Permutation in Hiv.
    exact (Hcells iv Hiv).
  - apply (isort_Sorted (fun x y : nat * Value => value_leb y.2 x.2)).
    intros a b Ha Hb. apply Hcells in Ha as (na & -> & _), Hb as (nb & -> & _).
    cbn. destruct (Z.leb_spec nb na); [left; reflexivity|right; apply Z.leb_le; lia].
Qed.

(** X13: the author frequencies of a loaded table are in descending
    order of the number of articles, and no author is listed with fewer
    than one article. *)
Theorem author_freq_sorted fs path nrows date_col dtypes articles_df authors :
  load_data fs path nrows date_col dtypes = Ok articles_df ->
  getitem articles_df "authorPersonId" = Ok authors ->
  exists r num,
    author_freq articles_df = Ok r /\
    lookup_column "num_articles" (columns r) = Some (Int64 num) /\
    Sorted (fun a b => b <= a) num /\
    Forall (fun n => 1 <= n) num.
Proof.
  intros Hload Hget.
  destruct (author_freq_rows _ _ _ _ _ _ _ Hload Hget)
    as (r & pct & sizes & Hr & Hcols & Hnum & _ & Hkeys & Hin).
  exists r, (take_at (argsort_descending (VInt <$> sizes)) sizes).
  split; [exact Hr|]. split; [rewrite Hcols; reflexivity|].
  split; [apply take_at_argsort_Sorted|].
  rewrite Hnum. apply Forall_fmap, Forall_forall. intros k Hk. cbn.
  destruct Hkeys as (Hna & _).
  pose proof (count_value_pos k k _ (Hin k Hk) (isna_false_refl _ (Hna k Hk))). lia.
Qed.

(** X14: on a loaded table in which no row has an author (in particular
    on a table without rows) the author frequencies are the empty table:
    the division by the total of no articles raises nothing. *)
Theorem author_freq_no_author fs path nrows date_col dtypes articles_df authors :
  load_data fs path nrows date_col dtypes = Ok articles_df ->
  getitem articles_df "authorPersonId" = Ok authors ->
  (forall v, v ∈ values (s_values authors) -> isna v = true) ->
  author_freq articles_df
  = Ok (mkDataFrame [] [ ("num_articles", Int64 []); ("percent", Float64 []) ]%string).
Proof.
  intros Hload Hget Hall.
  destruct (author_freq_rows _ _ _ _ _ _ _ Hload Hget)
    as (r & pct & sizes & Hr & _ & _ & Hperm & Hkeys & Hin).
  assert (Hnil : group_keys (s_values authors) = []).
  { apply Permutation_nil_r. rewrite <- Hperm. destruct (index r) as [|k ks]; [reflexivity|].
    destruct Hkeys as (Hna & _). specialize (Hna k ltac:(left)).
    rewrite (Hall k (Hin k ltac:(left))) in Hna. discriminate. }
  rewrite (author_freq_Ok _ _ Hget). cbn zeta. rewrite Hnil. reflexivity.
Qed.

(** ** The articles of the first authors *)

Lemma filter_or_length {A} (P Q : A -> bool) (l : list A) :
  (forall x, x ∈ l -> P x = true -> Q x = false) ->
  length (filter (fun x => P x || Q x) l)
  = (length (filter (fun x => P x) l) + length (filter (fun x => Q x) l))%nat.
Proof.
  induction l as [|x l IH]; intros H; [reflexivity|].
  assert (Hl : forall y, y ∈ l -> P y = true -> Q y = false).
  { intros y Hy. apply H. right. exact Hy. }
  specialize (IH Hl).
  pose proof (H x ltac:(left)) as Hx.
  destruct (P x) eqn:HP; [specialize (Hx eq_refl)|destruct (Q x) eqn:HQ].
  - rewrite (filter_cons_True (fun x => P x || Q x)) by (rewrite HP; exact I).
    rewrite (filter_cons_True (fun x => P x)) by (rewrite HP; exact I).
    rewrite (filter_cons_False (fun x => Q x)) by (rewrite Hx; exact id).
    cbn [length]. lia.
  - rewrite (filter_cons_True (fun x => P x || Q x)) by (rewrite HP, HQ; exact I).
    rewrite (filter_cons_False (fun x => P x)) by (rewrite HP; exact id).
    rewrite (filter_cons_True (fun x => Q x)) by (rewrite HQ; exact I).
    cbn [length]. lia.
  - rewrite (filter_cons_False (fun x => P x || Q x)) by (rewrite HP, HQ; exact id).
    rewrite (filter_cons_False (fun x => P x)) by (rewrite HP; exact id).
    rewrite (filter_cons_False (fun x => Q x)) by (rewrite HQ; exact id).
    exact IH.
Qed.

(** The rows that [isin] selects for at most two keys that differ are as
    many as the rows of the one key and the rows of the other. *)
Lemma isin_count keys vals top :
  keys_of keys vals -> top = take 2 keys ->
  Z.of_nat (length (filter (fun v => existsb (value_eqb v) top) vals))
  = foldr Z.add 0 ((fun k => Z.of_nat (count_value k vals)) <$> top).
Proof.
  intros (Hna & Hone & _) ->.
  assert (Hcount : forall k, length (filter (fun v => value_eqb v k) vals)
                             = count_value k vals).
  { intros k. unfold count_value. apply filter_length_ext. intros v _.
    apply value_eqb_sym. }
  destruct keys as [|k1 [|k2 keys]]; cbn [take fmap list_fmap foldr existsb].
  - rewrite filter_length_zero by reflexivity. reflexivity.
  - rewrite <- (Hcount k1). rewrite Z.add_0_r. f_equal. apply filter_length_ext.
    intros v _. apply orb_false_r.
  - assert (Hk12 : value_eqb k1 k2 = false).
    { pose proof (Hone k2 ltac:(right; left)) as H.
      pose proof (isna_false_refl k2 (Hna k2 ltac:(right; left))) as H2.
      destruct (value_eqb k1 k2) eqn:H1; [exfalso|reflexivity].
      rewrite (filter_cons_True (fun k' => value_eqb k' k2)) in H by (rewrite H1; exact I).
      rewrite (filter_cons_True (fun k' => value_eqb k' k2)) in H by (rewrite H2; exact I).
      cbn [length] in H. lia. }
    rewrite <- (Hcount k1), <- (Hcount k2), Z.add_0_r, <- Nat2Z.inj_add. f_equal.
    rewrite <- (filter_or_length (fun v => value_eqb v k1) (fun v => value_eqb v k2)).
    + apply filter_length_ext. intros v _. rewrite orb_false_r. reflexivity.
    + intros v _ Hv1. destruct (value_eqb v k2) eqn:Hv2; [|reflexivity].
      rewrite <- Hk12. symmetry. apply (value_eqb_trans _ v); [|exact Hv2].
      rewrite value_eqb_sym. exact Hv1.
Qed.

(** X15: the table beside the author frequencies of a loaded table holds
    exactly the rows of the table whose author is one of the first two
    authors of the frequencies, in the order of the table; it has as
    many rows as these two authors have articles. *)
Theorem top_authors_articles fs path nrows date_col dtypes articles_df authors af :
  load_data fs path nrows date_col dtypes = Ok articles_df ->
  getitem articles_df "authorPersonId" = Ok authors ->
  author_freq articles_df = Ok af ->
  let vals := values (s_values authors) in
  let top := take 2 (index af) in
  exists shown num,
    top_authors articles_df af = Ok shown /\
    lookup_column "num_articles" (columns af) = Some (Int64 num) /\
    rows shown = select ((fun v => existsb (value_eqb v) top) <$> vals) (rows articles_df) /\
    (forall r,
        r ∈ rows shown <->
        exists i v k, rows articles_df !! i = Some r /\ vals !! i = Some v /\
                      k ∈ top /\ value_eqb v k = true) /\
    Z.of_nat (length (index shown)) = foldr Z.add 0 (take 2 num).
Proof.
  intros Hload Hget Haf vals top.
  destruct (author_freq_rows _ _ _ _ _ _ _ Hload Hget)
    as (r & pct & sizes & Hr & Hcols & Hnum & _ & Hkeys & _).
  rewrite Haf in Hr. injection Hr as <-. fold vals in Hnum, Hkeys.
  exists (getitem_mask articles_df (isin authors top)),
         (take_at (argsort_descending (VInt <$> sizes)) sizes).
  split; [unfold top_authors; rewrite Hget; reflexivity|].
  split; [rewrite Hcols; reflexivity|].
  rewrite rows_getitem_mask. unfold isin. fold vals. split; [reflexivity|]. split.
  - intros row. rewrite elem_of_select. split.
    + intros (i & Hm & Hrow). rewrite list_lookup_fmap in Hm.
      destruct (vals !! i) as [v|] eqn:Hv; [|discriminate]. cbn in Hm.
      injection Hm as Hm. apply existsb_exists in Hm as (k & Hk & Hvk).
      exists i, v, k. rewrite <- list_elem_of_In in Hk. auto.
    + intros (i & v & k & Hrow & Hv & Hk & Hvk). exists i. split; [|exact Hrow].
      rewrite list_lookup_fmap, Hv. cbn. f_equal. apply existsb_exists.
      exists k. rewrite <- list_elem_of_In. auto.
  - cbn [getitem_mask index].
    assert (Hlen : length (index articles_df) = length vals).
    { unfold getitem in Hget.
      destruct (lookup_column "authorPersonId" (columns articles_df)) as [c|] eqn:Hc;
        [|discriminate].
      injection Hget as <-. unfold vals. cbn [s_values].
      destruct (lookup_column_Forall _ _ _ _ (load_data_wf _ _ _ _ _ _ Hload) Hc)
        as [? [Hk _]].
      rewrite values_length. symmetry. exact Hk. }
    rewrite (select_length _ _ vals Hlen), select_fmap_filter.
    rewrite Hnum, <- fmap_take. apply (isin_count (index af)); [exact Hkeys|reflexivity].
Qed.

(** * Properties of the date-time frequencies *)

(** ** Checks over ranges of integers *)

Lemma check_range_sound (P : Z -> bool) depth : forall lo,
  check_range P depth lo = true ->
  forall z, lo <= z < lo + 2 ^ Z.of_nat depth -> P z = true.
Proof.
  induction depth as [|d IH]; intros lo Hcheck z Hz; cbn [check_range] in Hcheck.
  - change (2 ^ Z.of_nat 0) with 1 in Hz. replace z with lo by lia. exact Hcheck.
  - apply andb_true_iff in Hcheck as [H1 H2].
    rewrite Nat2Z.inj_succ, Z.pow_succ_r in Hz by lia.
    destruct (Z.lt_ge_cases z (lo + 2 ^ Z.of_nat d)).
    + apply (IH lo H1). lia.
    + apply (IH _ H2). lia.
Qed.

Lemma check_triples_sound (P : Z -> Z -> Z -> bool) lo hi :
  check_triples P lo hi = true ->
  forall first last x, lo <= first -> first <= x -> x <= last -> last <= hi ->
                       P first last x = true.
Proof.
  unfold check_triples. intros Hcheck first last x H1 H2 H3 H4.
  rewrite forallb_forall in Hcheck.
  specialize (Hcheck first). rewrite <- list_elem_of_In, elem_of_seqZ in Hcheck.
  specialize (Hcheck ltac:(lia)). rewrite forallb_forall in Hcheck.
  specialize (Hcheck last). rewrite <- list_elem_of_In, elem_of_seqZ in Hcheck.
  specialize (Hcheck ltac:(lia)). rewrite forallb_forall in Hcheck.
  apply Hcheck. rewrite <- list_elem_of_In, elem_of_seqZ. lia.
Qed.

(** ** The fields of a time *)

(** On every day that a time can fall on, the month is one of the twelve
    and the day of the week is the one that the count of the days since
    the epoch, a Thursday, gives. *)
Lemma days_checked :
  check_range (fun days =>
                 let '(year, month, day) := set_datetimestruct_days days in
                 (1 <=? month) && (month <=? 12)
                 && (dayofweek year month day =? (days + 3) mod 7))
              18 (-131072) = true.
Proof. vm_compute. reflexivity. Qed.

Lemma timestamp_days ns :
  in_timestamp_range ns -> -131072 <= ns / NS_PER_DAY < -131072 + 2 ^ Z.of_nat 18.
Proof.
  unfold in_timestamp_range, Timestamp_min, Timestamp_max, INT64_MIN, INT64_MAX.
  intros [Hmin Hmax].
  assert (Hlo : (- 2 ^ 63 + 1) / NS_PER_DAY <= ns / NS_PER_DAY)
    by (apply Z.div_le_mono; [reflexivity|exact Hmin]).
  assert (Hhi : ns / NS_PER_DAY <= (2 ^ 63 - 1) / NS_PER_DAY)
    by (apply Z.div_le_mono; [reflexivity|exact Hmax]).
  change ((- 2 ^ 63 + 1) / NS_PER_DAY) with (-106752) in Hlo.
  change ((2 ^ 63 - 1) / NS_PER_DAY) with 106751 in Hhi.
  change (2 ^ Z.of_nat 18) with 262144. lia.
Qed.

Lemma date_field_range field ns :
  in_timestamp_range ns ->
  field_min field <= get_date_field field ns <= field_max field.
Proof.
  intros Hns.
  pose proof (check_range_sound _ _ _ days_checked _ (timestamp_days ns Hns)) as Hday.
  unfold get_date_field. cbv beta in Hday.
  destruct (set_datetimestruct_days (ns / NS_PER_DAY)) as [[year month] day].
  apply andb_true_iff in Hday as [Hday Hdow]. apply andb_true_iff in Hday as [H1 H12].
  apply Z.leb_le in H1, H12. apply Z.eqb_eq in Hdow.
  destruct field; cbn [field_min field_max].
  - lia.
  - assert (0 <= ns mod NS_PER_DAY < NS_PER_DAY) as Hmod
      by (apply Z.mod_pos_bound; reflexivity).
    assert (Hday' : NS_PER_DAY = NS_PER_HOUR * 24) by reflexivity.
    assert (Hhour : 0 < NS_PER_HOUR) by reflexivity.
    split.
    + apply Z.div_pos; [lia|exact Hhour].
    + assert (ns mod NS_PER_DAY / NS_PER_HOUR < 24); [|lia].
      apply Z.div_lt_upper_bound; [exact Hhour|]. lia.
  - rewrite Hdow. pose proof (Z.mod_pos_bound (ns / NS_PER_DAY + 3) 7 ltac:(lia)). lia.
Qed.

(** ** Counting into bins *)

Lemma forallb_false_elem {A} (P : A -> bool) (l : list A) (x : A) :
  x ∈ l -> P x = false -> forallb P l = false.
Proof.
  intros Hin Hx. destruct (forallb P l) eqn:Hall; [|reflexivity].
  rewrite forallb_forall in Hall. rewrite <- (Hall x), Hx; [reflexivity|].
  apply list_elem_of_In. exact Hin.
Qed.

Lemma sum_indicator (i : Z) (n : nat) :
  0 <= i ->
  foldr Z.add 0 ((fun b => if decide (i = Z.of_nat b) then 1 else 0) <$> seq 0 n)
  = if i <? Z.of_nat n then 1 else 0.
Proof.
  intros Hi. induction n as [|n IH]; [destruct (Z.ltb_spec i (Z.of_nat 0)); [lia|reflexivity]|].
  rewrite seq_S, fmap_app, foldr_app. cbn [fmap list_fmap foldr Nat.add].
  assert (Hshift : forall a l, foldr Z.add a l = a + foldr Z.add 0 l).
  { intros a l. induction l as [|x l IHl]; cbn [foldr]; lia. }
  rewrite Hshift, IH.
  destruct (decide (i = Z.of_nat n)) as [Heq|Hne];
    destruct (Z.ltb_spec i (Z.of_nat n)), (Z.ltb_spec i (Z.of_nat (S n))); lia.
Qed.

(** The counts of [bincount] add up to the number of indices. *)
Lemma bincount_sum (indices : list Z) (n : nat) :
  Forall (fun i => 0 <= i < Z.of_nat n) indices ->
  foldr Z.add 0 ((fun b => Z.of_nat (length (filter (fun i => i = Z.of_nat b) indices)))
                   <$> seq 0 n)
  = Z.of_nat (length indices).
Proof.
  induction 1 as [|i indices Hi _ IH].
  - induction (seq 0 n) as [|b l IHl]; [reflexivity|]. cbn. exact IHl.
  - assert (Hsplit : forall l : list nat,
               foldr Z.add 0
                 ((fun b => Z.of_nat (length (filter (fun j => j = Z.of_nat b)
                                                (i :: indices)))) <$> l)
               = foldr Z.add 0 ((fun b => if decide (i = Z.of_nat b) then 1 else 0) <$> l)
                 + foldr Z.add 0
                     ((fun b => Z.of_nat (length (filter (fun j => j = Z.of_nat b)
                                                    indices))) <$> l)).
    { induction l as [|b l IHl]; [reflexivity|]. cbn [fmap list_fmap foldr].
      rewrite IHl, filter_cons. destruct (decide (i = Z.of_nat b)); cbn [length]; lia. }
    rewrite Hsplit, IH, sum_indicator by lia.
    destruct (Z.ltb_spec i (Z.of_nat n)); cbn [length]; lia.
Qed.

Lemma bincount_Ok (indices : list Z) (n : nat) :
  Forall (fun i => 0 <= i < Z.of_nat n) indices ->
  bincount indices n
  = Ok ((fun b => Z.of_nat (length (filter (fun i => i = Z.of_nat b) indices))) <$> seq 0 n).
Proof.
  intros H. unfold bincount.
  assert (forallb (fun i => (0 <=? i) && (i <? Z.of_nat n)) indices = true) as ->;
    [|reflexivity].
  apply forallb_forall. intros i Hi. rewrite Forall_forall in H.
  apply list_elem_of_In, H in Hi. apply andb_true_iff.
  split; [apply Z.leb_le|apply Z.ltb_lt]; lia.
Qed.

Lemma filter_eq_fmap_length {A} (f : A -> Z) (z : Z) (l : list A) :
  length (filter (fun i => i = z) (f <$> l)) = length (filter (fun x => f x = z) l).
Proof.
  induction l as [|x l IH]; [reflexivity|]. cbn [fmap list_fmap].
  rewrite !filter_cons. destruct (decide (f x = z)); cbn [length]; rewrite IH; reflexivity.
Qed.

(** The least and the greatest of a list of integers. *)
Lemma foldl_min_spec (l : list Z) : forall x,
  foldl Z.min x l ∈ x :: l /\ forall y, y ∈ x :: l -> foldl Z.min x l <= y.
Proof.
  induction l as [|z l IH]; intros x; cbn [foldl].
  - split; [left|]. intros y Hy. apply list_elem_of_singleton in Hy. lia.
  - destruct (IH (Z.min x z)) as [Hin Hle]. split.
    + apply elem_of_cons in Hin as [Hin|Hin]; [|right; right; exact Hin].
      rewrite Hin. destruct (Z.min_spec x z) as [[_ ->]|[_ ->]]; [left|right; left].
    + intros y Hy. apply elem_of_cons in Hy as [->|Hy].
      * specialize (Hle (Z.min x z) ltac:(left)). lia.
      * apply elem_of_cons in Hy as [->|Hy].
        -- specialize (Hle (Z.min x z) ltac:(left)). lia.
        -- apply Hle. right. exact Hy.
Qed.

Lemma foldl_max_spec (l : list Z) : forall x,
  foldl Z.max x l ∈ x :: l /\ forall y, y ∈ x :: l -> y <= foldl Z.max x l.
Proof.
  induction l as [|z l IH]; intros x; cbn [foldl].
  - split; [left|]. intros y Hy. apply list_elem_of_singleton in Hy. lia.
  - destruct (IH (Z.max x z)) as [Hin Hle]. split.
    + apply elem_of_cons in Hin as [Hin|Hin]; [|right; right; exact Hin].
      rewrite Hin. destruct (Z.max_spec x z) as [[_ ->]|[_ ->]]; [right; left|left].
    + intros y Hy. apply elem_of_cons in Hy as [->|Hy].
      * specialize (Hle (Z.max x z) ltac:(left)). lia.
      * apply elem_of_cons in Hy as [->|Hy].
        -- specialize (Hle (Z.max x z) ltac:(left)). lia.
        -- apply Hle. right. exact Hy.
Qed.

(** [histogram_int] counts every number in its bin. *)
Lemma histogram_int_bins (a : list Z) (bins : nat) :
  exists first last,
    (a <> [] -> first ∈ a /\ last ∈ a /\ forall y, y ∈ a -> first <= y <= last) /\
    histogram_int a bins = bincount (bin_of_int bins first last <$> a) bins.
Proof.
  destruct a as [|x a'].
  - exists 0, 1. split; [congruence|]. unfold histogram_int.
    destruct (uniform_bins_int 0 1 bins) as [[fe le] norm]. reflexivity.
  - exists (foldl Z.min x a'), (foldl Z.max x a'). split.
    + intros _. destruct (foldl_min_spec a' x) as [H1 H2], (foldl_max_spec a' x) as [H3 H4].
      split; [exact H1|]. split; [exact H3|]. intros y Hy. split; auto.
    + unfold histogram_int, bin_of_int.
      destruct (uniform_bins_int (foldl Z.min x a') (foldl Z.max x a') bins)
        as [[fe le] norm].
      rewrite <- list_fmap_compose. reflexivity.
Qed.

(** ** The bins of the fields *)

(** Whatever the least and the greatest value of a field in the table,
    the arithmetic of [histogram_int] finds for every value of the field
    one of the bins asked for. *)
Lemma bins_checked field :
  check_triples (fun first last x =>
                   let i := bin_of_int (bins_of field) first last x in
                   (0 <=? i) && (i <? Z.of_nat (bins_of field)))
                (field_min field) (field_max field) = true.
Proof. destruct field; vm_compute; reflexivity. Qed.

(** When the least and the greatest value of the field both occur, every
    value has a bin of its own. *)
Lemma bins_exact_checked field :
  forallb (fun x => bin_of_int (bins_of field) (field_min field) (field_max field) x
                    =? x - field_min field)
          (seqZ (field_min field) (field_max field - field_min field + 1)) = true.
Proof. destruct field; vm_compute; reflexivity. Qed.

(** When a single value occurs, its bin is the one in the middle. *)
Lemma bins_single_checked field :
  forallb (fun x => bin_of_int (bins_of field) x x x =? Z.of_nat (bins_of field / 2))
          (seqZ (field_min field) (field_max field - field_min field + 1)) = true.
Proof. destruct field; vm_compute; reflexivity. Qed.

Lemma timestamp_not_NaT times :
  Forall in_timestamp_range times -> NPY_NAT ∉ times.
Proof.
  intros H Hin. rewrite Forall_forall in H. specialize (H _ Hin).
  unfold in_timestamp_range, Timestamp_min, NPY_NAT in H. lia.
Qed.

(** What an entry of [date_select_map] holds for times none of which is
    missing: for each bin, the number of times whose field falls into
    it, the bins being laid between the least and the greatest value of
    the field. *)
Lemma date_hist_Ok field times :
  Forall in_timestamp_range times ->
  let fields := get_date_field field <$> times in
  exists first last,
    (times <> [] ->
     first ∈ fields /\ last ∈ fields /\ forall y, y ∈ fields -> first <= y <= last) /\
    Forall (fun ns => 0 <= bin_of_int (bins_of field) first last (get_date_field field ns)
                      < Z.of_nat (bins_of field)) times /\
    date_hist field times
    = Ok ((fun b => Z.of_nat (length (filter
                      (fun ns => bin_of_int (bins_of field) first last
                                   (get_date_field field ns) = Z.of_nat b) times)))
            <$> seq 0 (bins_of field)).
Proof.
  intros Hrange fields. unfold date_hist, dt_field.
  rewrite bool_decide_eq_false_2 by exact (timestamp_not_NaT _ Hrange).
  cbn [histogram]. fold fields.
  destruct (histogram_int_bins fields (bins_of field)) as (first & last & Hfl & ->).
  assert (Hfields : Forall (fun v => field_min field <= v <= field_max field) fields).
  { unfold fields. apply Forall_fmap. eapply Forall_impl; [exact Hrange|].
    intros ns Hns. exact (date_field_range field ns Hns). }
  destruct times as [|ns0 times'].
  - exists first, last. split; [congruence|]. split; [constructor|]. reflexivity.
  - assert (Hne : fields <> []) by discriminate.
    destruct (Hfl Hne) as (Hfirst & Hlast & Hbetween).
    exists first, last. split; [intros _; auto|].
    rewrite Forall_forall in Hfields.
    assert (Hbins : Forall (fun ns => 0 <= bin_of_int (bins_of field) first last
                                             (get_date_field field ns)
                                      < Z.of_nat (bins_of field)) (ns0 :: times')).
    { apply Forall_forall. intros ns Hns.
      assert (Hv : get_date_field field ns ∈ fields)
        by (apply list_elem_of_fmap; eauto).
      pose proof (check_triples_sound _ _ _ (bins_checked field) first last
                    (get_date_field field ns)) as Hc.
      cbv beta zeta in Hc.
      destruct (Hbetween _ Hv), (Hfields _ Hfirst), (Hfields _ Hlast).
      specialize (Hc ltac:(lia) ltac:(lia) ltac:(lia) ltac:(lia)).
      apply andb_true_iff in Hc as [Hc0 Hcn]. apply Z.leb_le in Hc0.
      apply Z.ltb_lt in Hcn. lia. }
    split; [exact Hbins|].
    rewrite bincount_Ok
      by (unfold fields; rewrite <- list_fmap_compose; apply Forall_fmap; exact Hbins).
    f_equal. apply list_fmap_ext. intros _ b _. f_equal.
    unfold fields. rewrite <- list_fmap_compose.
    apply (filter_eq_fmap_length (bin_of_int (bins_of field) first last
                                    ∘ get_date_field field)).
Qed.

(** X16: on a table none of whose times is missing, the three charts of
    the date-time frequencies are computed; each has the number of bins
    asked for (12, 24 and 7), and the bins of each chart add up to the
    number of rows. *)
Theorem date_select_map_total times :
  Forall in_timestamp_range times ->
  exists month hour weekday,
    date_select_map times
    = Ok [ ("Month", month); ("Hour", hour); ("Day of Week", weekday) ]%string /\
    length month = 12%nat /\ length hour = 24%nat /\ length weekday = 7%nat /\
    foldr Z.add 0 month = Z.of_nat (length times) /\
    foldr Z.add 0 hour = Z.of_nat (length times) /\
    foldr Z.add 0 weekday = Z.of_nat (length times).
Proof.
  intros Hrange.
  assert (Hone : forall field, exists counts,
             date_hist field times = Ok counts /\
             length counts = bins_of field /\
             foldr Z.add 0 counts = Z.of_nat (length times)).
  { intros field.
    destruct (date_hist_Ok field times Hrange) as (first & last & _ & Hbins & Hhist).
    eexists. split; [exact Hhist|]. split; [rewrite length_fmap, length_seq; reflexivity|].
    pose proof (bincount_sum
                  (bin_of_int (bins_of field) first last
                     <$> (get_date_field field <$> times)) (bins_of field)) as Hsum.
    rewrite !length_fmap in Hsum. rewrite <- Hsum.
    - f_equal. apply list_fmap_ext. intros _ b _. f_equal.
      rewrite <- list_fmap_compose. symmetry.
      apply (filter_eq_fmap_length (bin_of_int (bins_of field) first last
                                      ∘ get_date_field field)).
    - rewrite <- list_fmap_compose. apply Forall_fmap. exact Hbins. }
  destruct (Hone Month) as (month & Hm & Hlm & Hsm), (Hone Hour) as (hour & Hh & Hlh & Hsh),
    (Hone Weekday) as (weekday & Hw & Hlw & Hsw).
  exists month, hour, weekday. unfold date_select_map. rewrite Hm, Hh, Hw.
  repeat split; assumption.
Qed.

Lemma filter_length_iff {A} (P Q : A -> Prop) `{!forall x, Decision (P x)}
  `{!forall x, Decision (Q x)} (l : list A) :
  (forall x, x ∈ l -> P x <-> Q x) ->
  length (filter P l) = length (filter Q l).
Proof.
  induction l as [|x l IH]; intros Hiff; [reflexivity|].
  assert (IH' : length (filter P l) = length (filter Q l)).
  { apply IH. intros y Hy. apply Hiff. right. exact Hy. }
  pose proof (Hiff x ltac:(left)) as Hx. rewrite !filter_cons.
  destruct (decide (P x)) as [HP|HP], (decide (Q x)) as [HQ|HQ]; cbn [length];
    tauto || lia.
Qed.

Lemma filter_length_all {A} (P : A -> Prop) `{!forall x, Decision (P x)} (l : list A) :
  (forall x, x ∈ l -> P x) -> length (filter P l) = length l.
Proof.
  induction l as [|x l IH]; intros Hall; [reflexivity|].
  rewrite filter_cons_True by (apply Hall; left). cbn [length]. f_equal.
  apply IH. intros y Hy. apply Hall. right. exact Hy.
Qed.

Lemma filter_length_none {A} (P : A -> Prop) `{!forall x, Decision (P x)} (l : list A) :
  (forall x, x ∈ l -> ~ P x) -> length (filter P l) = 0%nat.
Proof.
  induction l as [|x l IH]; intros Hall; [reflexivity|].
  rewrite filter_cons_False by (apply Hall; left).
  apply IH. intros y Hy. apply Hall. right. exact Hy.
Qed.

(** X17: when the table holds a time with the least value of a field
    and a time with the greatest one (January and December, hour 0 and
    hour 23, Monday and Sunday), and no missing time, each bin of the
    chart of that field counts the times with one value of the field, in
    order: the rows of one month, of one hour, of one day of the week. *)
Theorem date_hist_exact field times :
  Forall in_timestamp_range times ->
  field_min field ∈ get_date_field field <$> times ->
  field_max field ∈ get_date_field field <$> times ->
  date_hist field times
  = Ok ((fun b => Z.of_nat (length (filter
                    (fun ns => get_date_field field ns = field_min field + Z.of_nat b)
                    times)))
          <$> seq 0 (bins_of field)).
Proof.
  intros Hrange Hmin Hmax.
  destruct (date_hist_Ok field times Hrange) as (first & last & Hfl & _ & ->).
  assert (Hne : times <> []) by (intros ->; inversion Hmin).
  destruct (Hfl Hne) as (Hfirst & Hlast & Hbetween).
  assert (Hfields : forall v, v ∈ get_date_field field <$> times ->
                              field_min field <= v <= field_max field).
  { intros v Hv. apply list_elem_of_fmap in Hv as (ns & -> & Hns).
    rewrite Forall_forall in Hrange. exact (date_field_range field ns (Hrange ns Hns)). }
  assert (first = field_min field) as ->.
  { pose proof (Hbetween _ Hmin). pose proof (Hfields _ Hfirst). lia. }
  assert (last = field_max field) as ->.
  { pose proof (Hbetween _ Hmax). pose proof (Hfields _ Hlast). lia. }
  f_equal. apply list_fmap_ext. intros _ b _. f_equal.
  apply filter_length_iff. intros ns Hns.
  assert (Hv : field_min field <= get_date_field field ns <= field_max field)
    by (apply Hfields, list_elem_of_fmap; eauto).
  pose proof (bins_exact_checked field) as Hc. rewrite forallb_forall in Hc.
  specialize (Hc (get_date_field field ns)).
  rewrite <- list_elem_of_In, elem_of_seqZ in Hc. specialize (Hc ltac:(lia)).
  apply Z.eqb_eq in Hc. rewrite Hc. lia.
Qed.

Lemma is_finite_nan : is_finite nan = false.
Proof. reflexivity. Qed.

(** X18: a missing time in the table makes the date-time frequencies
    fail with [ValueError]: the fields of the times are then binary64
    numbers with NaN, for which the histogram has no finite range. *)
Theorem date_select_map_missing_time times :
  NPY_NAT ∈ times -> date_select_map times = Raise ValueError.
Proof.
  intros Hin. unfold date_select_map, date_hist, dt_field.
  rewrite bool_decide_eq_true_2 by exact Hin. cbn [histogram]. unfold histogram_float.
  rewrite (forallb_false_elem is_finite _ nan); [reflexivity| |exact is_finite_nan].
  apply list_elem_of_fmap. exists NPY_NAT. split; [|exact Hin].
  rewrite Z.eqb_refl. reflexivity.
Qed.

(** X19: when the field has the same value at all times of the table
    (all rows in one month, say), the chart shows all rows in the bin in
    the middle (bin 6 of 12, 12 of 24, 3 of 7), whatever the value. *)
Theorem date_hist_single_value field times v :
  times <> [] ->
  Forall in_timestamp_range times ->
  Forall (fun ns => get_date_field field ns = v) times ->
  date_hist field times
  = Ok (<[(bins_of field / 2)%nat := Z.of_nat (length times)]> (replicate (bins_of field) 0)).
Proof.
  intros Hne Hrange Hsame.
  destruct (date_hist_Ok field times Hrange) as (first & last & Hfl & _ & ->).
  destruct (Hfl Hne) as (Hfirst & Hlast & _).
  rewrite Forall_forall in Hsame, Hrange.
  apply list_elem_of_fmap in Hfirst as (ns1 & -> & Hns1).
  apply list_elem_of_fmap in Hlast as (ns2 & -> & Hns2).
  rewrite (Hsame _ Hns1), (Hsame _ Hns2).
  assert (Hv : field_min field <= v <= field_max field).
  { rewrite <- (Hsame _ Hns1). exact (date_field_range field ns1 (Hrange _ Hns1)). }
  pose proof (bins_single_checked field) as Hc. rewrite forallb_forall in Hc.
  specialize (Hc v). rewrite <- list_elem_of_In, elem_of_seqZ in Hc.
  specialize (Hc ltac:(lia)). apply Z.eqb_eq in Hc.
  f_equal. apply list_eq. intros b.
  rewrite list_lookup_fmap.
  destruct (decide (b < bins_of field)%nat) as [Hb|Hb].
  - rewrite lookup_seq_lt by exact Hb. cbn [fmap option_fmap option_map Nat.add].
    destruct (decide (b = bins_of field / 2)%nat) as [->|Hmid].
    + rewrite list_lookup_insert_eq by (rewrite length_replicate; destruct field; cbn; lia).
      do 2 f_equal. apply filter_length_all. intros ns Hns.
      rewrite (Hsame _ Hns). exact Hc.
    + rewrite list_lookup_insert_ne by congruence.
      rewrite lookup_replicate_2 by exact Hb. f_equal.
      rewrite filter_length_none; [reflexivity|].
      intros ns Hns. rewrite (Hsame _ Hns), Hc. lia.
  - rewrite lookup_seq_ge by lia. cbn. symmetry. apply lookup_ge_None.
    rewrite length_insert, length_replicate. lia.
Qed.

(** X20: for every time that is not missing, the hour and the day of the
    week are those of the count of hours and of days since the epoch, a
    Thursday at midnight: the hour is the number of whole hours modulo 24,
    the day of the week (Monday being 0) the number of whole days plus 3
    modulo 7; the month is one of the twelve. *)
Theorem date_fields_of_epoch ns :
  in_timestamp_range ns ->
  get_date_field Hour ns = (ns / NS_PER_HOUR) mod 24 /\
  get_date_field Weekday ns = (ns / NS_PER_DAY + 3) mod 7 /\
  1 <= get_date_field Month ns <= 12.
Proof.
  intros Hns.
  pose proof (check_range_sound _ _ _ days_checked _ (timestamp_days ns Hns)) as Hday.
  unfold get_date_field. cbv beta in Hday.
  destruct (set_datetimestruct_days (ns / NS_PER_DAY)) as [[year month] day].
  apply andb_true_iff in Hday as [Hday Hdow]. apply andb_true_iff in Hday as [H1 H12].
  apply Z.leb_le in H1, H12. apply Z.eqb_eq in Hdow.
  split; [|split; [exact Hdow|lia]].
  change NS_PER_DAY with (NS_PER_HOUR * 24).
  rewrite Z.rem_mul_r by (unfold NS_PER_HOUR, SECOND_NS; lia).
  rewrite Z.mul_comm, Z.div_add by (unfold NS_PER_HOUR, SECOND_NS; lia).
  rewrite Z.mod_div by (unfold NS_PER_HOUR, SECOND_NS; lia). lia.
Qed.

End Loader.

(** * The properties on the examples *)

Lemma example_well_formed : well_formed example_header example_rows.
Proof.
  split; [simpl; lia|].
  unfold example_rows, example_header.
  repeat (apply Forall_cons; split;
          [split; [reflexivity|split;
             [repeat (apply Forall_cons; split; [intros Hq; first [reflexivity|discriminate Hq]|]);
              exact (List.Forall_nil _)
             |intros s; discriminate]]|]).
  exact (List.Forall_nil _).
Defined.

Lemma example_load :
  load_data strtod_none python_float_none float_epoch_none uint64_epoch_none true
      example_fs example_path None (Some "timestamp"%string) (Some ARTICLES_DTYPES)
  = Ok example_articles_df.
Proof. vm_compute. reflexivity. Defined.



(** C3 on the example: the six timestamps. *)
Lemma load_data_timestamp_round_trip_witness :
  let secs := [1459193988; 1459194146; 1459194474; 1459194497; 1459194522; 1459194557] in
  ("timestamp"%string <> EmptyString)
  /\ read_records example_fs example_path None = Ok (example_header.*2, texts example_rows)
  /\ index_of "timestamp" (column_names example_header.*2) = Some 0%nat
  /\ dtype_of (column_dtypes example_header.*2 (Some ARTICLES_DTYPES)) "timestamp" = None
  /\ Forall2 (fun cell s => str_to_int cell = Some s) (field 0 <$> texts example_rows) secs
  /\ Forall (fun s => INT64_MIN < s <= INT64_MAX) secs
  /\ (forall df,
         load_data strtod_none python_float_none float_epoch_none uint64_epoch_none true
             example_fs example_path None (Some "timestamp"%string) (Some ARTICLES_DTYPES)
         = Ok df ->
         exists times,
           lookup_column "timestamp" (columns df) = Some (Datetime64 times) /\
           round_trips secs (Datetime64 times))
  /\ (Forall in_datetime_range secs ->
      exists df,
        load_data strtod_none python_float_none float_epoch_none uint64_epoch_none true
            example_fs example_path None (Some "timestamp"%string) (Some ARTICLES_DTYPES)
        = Ok df).
Proof.
  intros secs.
  assert (H1 : "timestamp"%string <> EmptyString) by discriminate.
  assert (H2 : read_records example_fs example_path None
               = Ok (example_header.*2, texts example_rows)).
  { vm_compute. reflexivity. }
  assert (H3 : index_of "timestamp" (column_names example_header.*2) = Some 0%nat).
  { vm_compute. reflexivity. }
  assert (H4 : dtype_of (column_dtypes example_header.*2 (Some ARTICLES_DTYPES)) "timestamp"
               = None).
  { vm_compute. reflexivity. }
  assert (H5 : Forall2 (fun cell s => str_to_int cell = Some s)
                 (field 0 <$> texts example_rows) secs).
  { repeat constructor. }
  assert (H6 : Forall (fun s => INT64_MIN < s <= INT64_MAX) secs).
  { repeat constructor; vm_compute; congruence. }
  split; [exact H1|]. split; [exact H2|]. split; [exact H3|]. split; [exact H4|].
  split; [exact H5|]. split; [exact H6|].
  exact (load_data_timestamp_round_trip strtod_none python_float_none float_epoch_none
           uint64_epoch_none true
           example_fs example_path None "timestamp"%string (Some ARTICLES_DTYPES)
           example_header.*2 (texts example_rows) 0%nat secs H1 H2 H3 H4 H5 H6).
Defined.

(** C4 on the example: the author of three of the six events comes
    first, with a percent of 50.0. *)
Lemma author_freq_three_two_one_witness :
  let authors :=
    mkSeries (index example_articles_df)
      (Int64 [ 4340306774493623681; 4340306774493623681; 4340306774493623681;
               3609194402293569455; 3609194402293569455; -1443636648652872475 ]) in
  let a := VInt 4340306774493623681 in
  let b := VInt 3609194402293569455 in
  let c := VInt (-1443636648652872475) in
  load_data strtod_none python_float_none float_epoch_none uint64_epoch_none true
      example_fs example_path None (Some "timestamp"%string) (Some ARTICLES_DTYPES)
  = Ok example_articles_df
  /\ getitem example_articles_df "authorPersonId" = Ok authors
  /\ values (s_values authors) ≡ₚ [a; a; a; b; b; c]
  /\ isna a = false /\ isna b = false /\ isna c = false
  /\ value_eqb a b = false /\ value_eqb a c = false /\ value_eqb b c = false
  /\ exists r num pct,
       author_freq example_articles_df = Ok r /\
       columns r = [ ("num_articles", Int64 num); ("percent", Float64 pct) ]%string /\
       head (index r) = Some a /\
       head num = Some 3 /\
       head pct = Some 50%float.
Proof.
  intros authors a b c.
  assert (H2 : getitem example_articles_df "authorPersonId" = Ok authors).
  { vm_compute. reflexivity. }
  assert (H3 : values (s_values authors) ≡ₚ [a; a; a; b; b; c]).
  { apply Permutation_refl. }
  repeat (split; [first [exact example_load | exact H2 | exact H3 | reflexivity]|]).
  exact (author_freq_three_two_one strtod_none python_float_none float_epoch_none uint64_epoch_none true
           example_fs example_path None (Some "timestamp"%string) (Some ARTICLES_DTYPES)
           example_articles_df authors a b c example_load H2 H3
           eq_refl eq_refl eq_refl eq_refl eq_refl eq_refl).
Defined.


(** C6 on the example: the column [lang] has the two labels en and pt. *)
Lemma load_data_categorical_witness :
  let c := Category ["en"; "pt"]%string [0; 0; 1; 0; 1; 0] in
  dtype_of (Some ARTICLES_DTYPES) "lang" = Some DtCategory
  /\ Some "timestamp"%string <> Some "lang"%string
  /\ read_records example_fs example_path None = Ok (example_header.*2, texts example_rows)
  /\ index_of "lang" (column_names example_header.*2) = Some 7%nat
  /\ load_data strtod_none python_float_none float_epoch_none uint64_epoch_none true
      example_fs example_path None (Some "timestamp"%string) (Some ARTICLES_DTYPES)
     = Ok example_articles_df
  /\ lookup_column "lang" (columns example_articles_df) = Some c
  /\ exists cats codes,
       c = Category cats codes /\
       NoDup cats /\
       (forall s, s ∈ cats <-> s ∈ field 7 <$> texts example_rows /\ is_na s = false) /\
       (length cats <= size (list_to_set (C := gset string) (field 7 <$> texts example_rows)))%nat.
Proof.
  intros c.
  assert (H1 : dtype_of (Some ARTICLES_DTYPES) "lang" = Some DtCategory).
  { vm_compute. reflexivity. }
  assert (H2 : Some "timestamp"%string <> Some "lang"%string) by discriminate.
  assert (H3 : read_records example_fs example_path None
               = Ok (example_header.*2, texts example_rows)).
  { vm_compute. reflexivity. }
  assert (H4 : index_of "lang" (column_names example_header.*2) = Some 7%nat).
  { vm_compute. reflexivity. }
  assert (H6 : lookup_column "lang" (columns example_articles_df) = Some c).
  { vm_compute. reflexivity. }
  repeat (split; [first [exact H1 | exact H2 | exact H3 | exact H4 | exact example_load
                        | exact H6]|]).
  exact (load_data_categorical strtod_none python_float_none float_epoch_none
           uint64_epoch_none true
           example_fs example_path None (Some "timestamp"%string) (Some ARTICLES_DTYPES)
           example_header.*2 (texts example_rows) example_articles_df "lang"%string 7%nat c
           H1 H2 H3 H4 example_load H6).
Defined.

(** C7 on the example: naming [title] as the date column fails. *)
Lemma load_data_non_numeric_date_witness :
  ("title"%string <> EmptyString)
  /\ read_records example_fs example_path None = Ok (example_header.*2, texts example_rows)
  /\ index_of "title" (column_names example_header.*2) = Some 6%nat
  /\ ("Ethereum"%string ∈ field 6 <$> texts example_rows)
  /\ numeric_cell strtod_none python_float_none "Ethereum" = false
  /\ missing_cell "Ethereum" = false
  /\ (exists e, load_data strtod_none python_float_none float_epoch_none uint64_epoch_none
                  true example_fs example_path None (Some "title"%string)
                  (Some ARTICLES_DTYPES) = Raise e)
  /\ (forall fs' path' nrows' date_col' dtypes' e,
         read_csv strtod_none fs' path' nrows' dtypes' = Raise e ->
         load_data strtod_none python_float_none float_epoch_none uint64_epoch_none true
           fs' path' nrows' date_col' dtypes' = Raise e)
  /\ (forall fs' path' nrows' col' dtypes' data e,
         col' <> EmptyString ->
         read_csv strtod_none fs' path' nrows' dtypes' = Ok data ->
         getitem data col' = Raise e ->
         load_data strtod_none python_float_none float_epoch_none uint64_epoch_none true
           fs' path' nrows' (Some col') dtypes' = Raise e)
  /\ (forall fs' path' nrows' col' dtypes' data s e,
         col' <> EmptyString ->
         read_csv strtod_none fs' path' nrows' dtypes' = Ok data ->
         getitem data col' = Ok s ->
         to_datetime python_float_none float_epoch_none uint64_epoch_none true s = Raise e ->
         load_data strtod_none python_float_none float_epoch_none uint64_epoch_none true
           fs' path' nrows' (Some col') dtypes' = Raise e).
Proof.
  assert (H1 : "title"%string <> EmptyString) by discriminate.
  assert (H2 : read_records example_fs example_path None
               = Ok (example_header.*2, texts example_rows)).
  { vm_compute. reflexivity. }
  assert (H3 : index_of "title" (column_names example_header.*2) = Some 6%nat).
  { vm_compute. reflexivity. }
  assert (H4 : "Ethereum"%string ∈ field 6 <$> texts example_rows).
  { vm_compute. left. }
  assert (H5 : numeric_cell strtod_none python_float_none "Ethereum" = false).
  { vm_compute. reflexivity. }
  assert (H6 : missing_cell "Ethereum" = false).
  { vm_compute. reflexivity. }
  repeat (split; [first [exact H1 | exact H2 | exact H3 | exact H4 | exact H5 | exact H6]|]).
  exact (load_data_non_numeric_date strtod_none python_float_none float_epoch_none
           uint64_epoch_none true
           example_fs example_path None "title"%string (Some ARTICLES_DTYPES)
           example_header.*2 (texts example_rows) 6%nat "Ethereum"%string
           H1 H2 H3 H4 H5 H6).
Defined.

(** C8 on the example. *)
Lemma load_data_frame_witness :
  load_data strtod_none python_float_none float_epoch_none uint64_epoch_none true
      example_fs example_path None (Some "timestamp"%string) (Some ARTICLES_DTYPES)
  = Ok example_articles_df
  /\ exists header recs parsed,
       read_records example_fs example_path None = Ok (header, recs) /\
       read_csv strtod_none example_fs example_path None None = Ok parsed /\
       index example_articles_df = index parsed /\
       length (index example_articles_df) = length recs /\
       (columns example_articles_df).*1 = (columns parsed).*1 /\
       (forall name,
           Some "timestamp"%string <> Some name ->
           dtype_of (column_dtypes header (Some ARTICLES_DTYPES)) name = None ->
           lookup_column name (columns example_articles_df)
           = lookup_column name (columns parsed)) /\
       (forall name dt,
           dtype_of (Some ARTICLES_DTYPES) name = Some dt ->
           dtype_of (column_dtypes header (Some ARTICLES_DTYPES)) name = Some dt) /\
       (NoDup header -> EmptyString ∉ header ->
        column_names header = header /\
        column_dtypes header (Some ARTICLES_DTYPES) = Some ARTICLES_DTYPES).
Proof.
  exact (conj example_load
           (load_data_frame strtod_none python_float_none float_epoch_none
              uint64_epoch_none true
              example_fs example_path None (Some "timestamp"%string) (Some ARTICLES_DTYPES)
              example_articles_df example_load)).
Defined.

(** C10 on the example. *)
Lemma author_freq_percent_witness :
  let authors :=
    mkSeries (index example_articles_df)
      (Int64 [ 4340306774493623681; 4340306774493623681; 4340306774493623681;
               3609194402293569455; 3609194402293569455; -1443636648652872475 ]) in
  let present := filter (fun v => negb (isna v)) (values (s_values authors)) in
  let total := Z.of_nat (length present) in
  load_data strtod_none python_float_none float_epoch_none uint64_epoch_none true
      example_fs example_path None (Some "timestamp"%string) (Some ARTICLES_DTYPES)
  = Ok example_articles_df
  /\ getitem example_articles_df "authorPersonId" = Ok authors
  /\ Z.of_nat (length (index example_articles_df)) <= INT64_MAX
  /\ exists r num,
       author_freq example_articles_df = Ok r /\
       columns r
       = [ ("num_articles", Int64 num);
           ("percent",
            Float64 ((fun n => (float_of_Z n / float_of_Z total * 100)%float) <$> num))
         ]%string /\
       length (index r) = length num /\
       (forall k, k ∈ index r -> isna k = false) /\
       foldr Z.add 0 num = total /\
       (present <> [] ->
        (foldr Qplus 0%Q ((fun n => exact_percent n total) <$> num) == 100)%Q).
Proof.
  intros authors present total.
  assert (H2 : getitem example_articles_df "authorPersonId" = Ok authors).
  { vm_compute. reflexivity. }
  assert (H3 : Z.of_nat (length (index example_articles_df)) <= INT64_MAX).
  { vm_compute. discriminate. }
  split; [exact example_load|]. split; [exact H2|]. split; [exact H3|].
  exact (author_freq_percent strtod_none python_float_none float_epoch_none uint64_epoch_none true
           example_fs example_path None (Some "timestamp"%string) (Some ARTICLES_DTYPES)
           example_articles_df authors example_load H2 H3).
Defined.

(** * Where the specification says more than the program does *)

(** C3 as stated fails on a timestamp that is the smallest 64-bit integer:
    the raw value is an integer, the load succeeds, and the loaded value
    is the missing time, which is no valid time and gives back no
    seconds. *)
Lemma timestamp_round_trip_counterexample :
  read_csv strtod_none marker_fs "events.csv" None None
  = Ok (mkDataFrame [VInt 0] [("timestamp"%string, Int64 [-9223372036854775808])])
  /\ load_data strtod_none python_float_none float_epoch_none uint64_epoch_none true
       marker_fs "events.csv" None (Some "timestamp"%string) None
     = Ok (mkDataFrame [VInt 0] [("timestamp"%string, Datetime64 [-9223372036854775808])])
  /\ values (Datetime64 [-9223372036854775808]) = [VNaT]
  /\ ~ round_trips [-9223372036854775808] (Datetime64 [-9223372036854775808]).
Proof.
  split; [vm_compute; reflexivity|]. split; [vm_compute; reflexivity|].
  split; [reflexivity|].
  intros H. unfold round_trips in H. inversion H as [|? ? ? ? [Hvalid _] _]; subst.
  exact Hvalid.
Qed.


(** C6 as stated fails for a column that is named in the type mapping and
    is also the date column: where the library converts a categorical
    column, it is loaded as a column of times, not as a categorical
    column. *)
Lemma categorical_date_column_counterexample :
  let dtypes : gmap string Dtype :=
    {[ "timestamp" := DtCategory; "lang" := DtCategory ]}%string in
  dtypes !! "timestamp"%string = Some DtCategory
  /\ read_csv strtod_none undated_fs "events.csv" None (Some dtypes)
     = Ok (mkDataFrame [VInt 0; VInt 1]
             [ ("timestamp", Category [] [-1; -1]);
               ("lang", Category ["en"; "pt"] [0; 1]) ]%string)
  /\ load_data strtod_none python_float_none float_epoch_none uint64_epoch_none true
       undated_fs "events.csv" None (Some "timestamp"%string) (Some dtypes)
     = Ok (mkDataFrame [VInt 0; VInt 1]
             [ ("timestamp", Datetime64 [NPY_NAT; NPY_NAT]);
               ("lang", Category ["en"; "pt"] [0; 1]) ]%string)
  /\ ~ exists cats codes, Datetime64 [NPY_NAT; NPY_NAT] = Category cats codes.
Proof.
  intros dtypes. split; [vm_compute; reflexivity|]. split; [vm_compute; reflexivity|].
  split; [vm_compute; reflexivity|]. intros (cats & codes & H). discriminate H.
Qed.

(** C7 as stated fails for a date column whose cells are all missing: no
    cell is a number, and the column loads as a column of missing times. *)
Lemma missing_date_column_counterexample :
  read_records undated_fs "events.csv" None
  = Ok (["timestamp"; "lang"], [[""; "en"]; [""; "pt"]])%string
  /\ field 0 <$> [[""; "en"]; [""; "pt"]]%string = [""; ""]%string
  /\ numeric_cell strtod_none python_float_none "" = false
  /\ forall converts,
       load_data strtod_none python_float_none float_epoch_none uint64_epoch_none converts
         undated_fs "events.csv" None (Some "timestamp"%string) None
       = Ok (mkDataFrame [VInt 0; VInt 1]
               [ ("timestamp", Datetime64 [NPY_NAT; NPY_NAT]);
                 ("lang", Object [VStr "en"; VStr "pt"]) ]%string).
Proof.
  split; [vm_compute; reflexivity|]. split; [reflexivity|].
  split; [vm_compute; reflexivity|]. intros converts. vm_compute. reflexivity.
Qed.

(** C8 as stated fails for a column that the reader has renamed from a
    repeated field of the header: the second column [lang] of the file is
    the column [lang.1] of the table, a name that the type mapping does
    not have, and it is coerced as [lang] is; parsed with no options it
    holds the integers 7 and 8, loaded it holds the labels 7 and 8. *)
Lemma renamed_column_counterexample :
  ARTICLES_DTYPES !! "lang.1"%string = None
  /\ read_csv strtod_none repeated_fs "events.csv" None None
     = Ok (mkDataFrame [VInt 0; VInt 1]
             [ ("lang", Object [VStr "en"; VStr "pt"]);
               ("lang.1", Int64 [7; 8]) ]%string)
  /\ load_data strtod_none python_float_none float_epoch_none uint64_epoch_none true
       repeated_fs "events.csv" None None (Some ARTICLES_DTYPES)
     = Ok (mkDataFrame [VInt 0; VInt 1]
             [ ("lang", Category ["en"; "pt"] [0; 1]);
               ("lang.1", Category ["7"; "8"] [0; 1]) ]%string)
  /\ values (Int64 [7; 8]) = [VInt 7; VInt 8]
  /\ values (Category ["7"; "8"]%string [0; 1]) = [VStr "7"; VStr "8"]
  /\ values (Category ["7"; "8"]%string [0; 1]) <> values (Int64 [7; 8]).
Proof.
  split; [vm_compute; reflexivity|]. split; [vm_compute; reflexivity|].
  split; [vm_compute; reflexivity|]. split; [reflexivity|]. split; [reflexivity|].
  discriminate.
Qed.

(** C10 as stated fails for three authors with one event each: each
    percent is the binary64 number nearest to a third of 100 times 100,
    and the three add up to less than 100. *)
Lemma percent_sum_counterexample :
  exists articles_df r percent total,
    load_data strtod_none python_float_none float_epoch_none uint64_epoch_none true
      thirds_fs "events.csv" None None None = Ok articles_df /\
    values (Int64 [1; 2; 3]) = [VInt 1; VInt 2; VInt 3] /\
    getitem articles_df "authorPersonId" = Ok (mkSeries (index articles_df) (Int64 [1; 2; 3])) /\
    author_freq articles_df = Ok r /\
    getitem r "percent" = Ok percent /\
    sum percent = Ok (VFloat total) /\
    PrimFloat.eqb total 100 = false /\
    PrimFloat.ltb total 100 = true.
Proof.
  eexists _, _, _, _.
  split; [vm_compute; reflexivity|]. split; [reflexivity|].
  split; [vm_compute; reflexivity|]. split; [vm_compute; reflexivity|].
  split; [vm_compute; reflexivity|]. split; [vm_compute; reflexivity|].
  split; vm_compute; reflexivity.
Qed.

(** * The further properties on the examples *)


(** X2 on the example. *)
Lemma load_data_date_column_witness :
  ("timestamp"%string <> EmptyString)
  /\ load_data strtod_none python_float_none float_epoch_none uint64_epoch_none true
       example_fs example_path None (Some "timestamp"%string) (Some ARTICLES_DTYPES)
     = Ok example_articles_df
  /\ exists data times,
       read_csv strtod_none example_fs example_path None (Some ARTICLES_DTYPES) = Ok data /\
       lookup_column "timestamp" (columns example_articles_df) = Some (Datetime64 times) /\
       length times = length (index example_articles_df) /\
       index example_articles_df = index data /\
       (columns example_articles_df).*1 = (columns data).*1 /\
       forall name, name <> "timestamp"%string ->
         lookup_column name (columns example_articles_df)
         = lookup_column name (columns data).
Proof.
  assert (H1 : "timestamp"%string <> EmptyString) by discriminate.
  split; [exact H1|]. split; [exact example_load|].
  exact (load_data_date_column strtod_none python_float_none float_epoch_none uint64_epoch_none true
           example_fs example_path None "timestamp"%string (Some ARTICLES_DTYPES)
           example_articles_df H1 example_load).
Defined.

(** X3 on a file whose timestamps are all missing. *)
Lemma load_data_missing_cell_witness :
  let recs := [ [""; "en"]; [""; "pt"] ]%string in
  let df := mkDataFrame [VInt 0; VInt 1]
              [ ("timestamp", Datetime64 [NPY_NAT; NPY_NAT]);
                ("lang", Object [VStr "en"; VStr "pt"]) ]%string in
  read_records undated_fs "events.csv" None = Ok (["timestamp"; "lang"]%string, recs)
  /\ load_data strtod_none python_float_none float_epoch_none uint64_epoch_none true
       undated_fs "events.csv" None (Some "timestamp"%string) None = Ok df
  /\ index_of "timestamp" (column_names ["timestamp"; "lang"]%string) = Some 0%nat
  /\ (dtype_of (column_dtypes ["timestamp"; "lang"]%string None) "timestamp" = None ->
      forall cell z, cell ∈ field 0 <$> recs -> str_to_int cell = Some z ->
                     INT64_MIN <= z <= INT64_MAX)
  /\ recs !! 0%nat = Some [""; "en"]%string
  /\ is_na (field 0 [""; "en"]%string) = true
  /\ exists c v,
       lookup_column "timestamp" (columns df) = Some c /\
       values c !! 0%nat = Some v /\
       isna v = true /\
       (Some "timestamp"%string = Some "timestamp"%string ->
        "timestamp"%string <> EmptyString -> v = VNaT).
Proof.
  intros recs df.
  assert (H1 : read_records undated_fs "events.csv" None
               = Ok (["timestamp"; "lang"]%string, recs)).
  { vm_compute. reflexivity. }
  assert (H2 : load_data strtod_none python_float_none float_epoch_none uint64_epoch_none true
                 undated_fs "events.csv" None (Some "timestamp"%string) None = Ok df).
  { vm_compute. reflexivity. }
  assert (H3 : index_of "timestamp" (column_names ["timestamp"; "lang"]%string) = Some 0%nat).
  { reflexivity. }
  assert (H4 : dtype_of (column_dtypes ["timestamp"; "lang"]%string None) "timestamp" = None ->
               forall cell z, cell ∈ field 0 <$> recs -> str_to_int cell = Some z ->
                              INT64_MIN <= z <= INT64_MAX).
  { intros _ cell z Hin Hz. change (field 0 <$> recs) with [""; ""]%string in Hin.
    apply elem_of_cons in Hin as [->|Hin]; [discriminate Hz|].
    apply elem_of_cons in Hin as [->|Hin]; [discriminate Hz|]. inversion Hin. }
  assert (H5 : recs !! 0%nat = Some [""; "en"]%string) by reflexivity.
  assert (H6 : is_na (field 0 [""; "en"]%string) = true).
  { vm_compute. reflexivity. }
  split; [exact H1|]. split; [exact H2|]. split; [exact H3|]. split; [exact H4|].
  split; [exact H5|]. split; [exact H6|].
  exact (load_data_missing_cell strtod_none python_float_none float_epoch_none uint64_epoch_none true
           undated_fs "events.csv"%string None (Some "timestamp"%string) None
           ["timestamp"; "lang"]%string recs df "timestamp"%string 0%nat 0%nat
           [""; "en"]%string H1 H2 H3 H4 H5 H6).
Defined.

(** X4 on a file whose timestamp is one second beyond the range. *)
Lemma load_data_out_of_bounds_witness :
  let data := mkDataFrame [VInt 0] [("timestamp"%string, Int64 [9223372037])] in
  ("timestamp"%string <> EmptyString)
  /\ read_csv strtod_none far_fs "events.csv" None None = Ok data
  /\ getitem data "timestamp" = Ok (mkSeries [VInt 0] (Int64 [9223372037]))
  /\ (9223372037 ∈ [9223372037])
  /\ 9223372037 <> NPY_NAT
  /\ ~ in_datetime_range 9223372037
  /\ load_data strtod_none python_float_none float_epoch_none uint64_epoch_none true
       far_fs "events.csv" None (Some "timestamp"%string) None
     = Raise OutOfBoundsDatetime.
Proof.
  intros data.
  assert (H1 : "timestamp"%string <> EmptyString) by discriminate.
  assert (H2 : read_csv strtod_none far_fs "events.csv" None None = Ok data).
  { vm_compute. reflexivity. }
  assert (H3 : getitem data "timestamp" = Ok (mkSeries [VInt 0] (Int64 [9223372037]))).
  { reflexivity. }
  assert (H4 : 9223372037 ∈ [9223372037]) by left.
  assert (H5 : 9223372037 <> NPY_NAT) by discriminate.
  assert (H6 : ~ in_datetime_range 9223372037).
  { unfold in_datetime_range. lia. }
  split; [exact H1|]. split; [exact H2|]. split; [exact H3|]. split; [exact H4|].
  split; [exact H5|]. split; [exact H6|].
  exact (load_data_out_of_bounds strtod_none python_float_none float_epoch_none uint64_epoch_none true
           far_fs "events.csv"%string None "timestamp"%string None data [VInt 0]
           [9223372037] 9223372037 H1 H2 H3 H4 H5 H6).
Defined.

(** X5 on the example, with a row limit of -1. *)
Lemma load_data_negative_nrows_witness :
  well_formed example_header example_rows
  /\ open example_fs example_path
     = Ok (write_csv LineFeed (example_header :: example_rows) true)
  /\ -1 < 0
  /\ load_data strtod_none python_float_none float_epoch_none uint64_epoch_none true
       example_fs example_path (Some (-1)) (Some "timestamp"%string) (Some ARTICLES_DTYPES)
     = Raise ValueError.
Proof.
  assert (H2 : open example_fs example_path
               = Ok (write_csv LineFeed (example_header :: example_rows) true)).
  { vm_compute. reflexivity. }
  assert (H3 : -1 < 0) by reflexivity.
  split; [exact example_well_formed|]. split; [exact H2|]. split; [exact H3|].
  exact (load_data_negative_nrows strtod_none python_float_none float_epoch_none uint64_epoch_none true
           example_fs example_path (-1) (Some "timestamp"%string) (Some ARTICLES_DTYPES)
           LineFeed example_header example_rows true example_well_formed H2 H3).
Defined.

(** X6 on a file of blank lines. *)
Lemma load_data_blank_file_witness :
  open blank_fs "events.csv" = Ok (unlines [""; "  "; ""]%string)
  /\ forallb (fun c => Tokenizer.is_whitespace c || Ascii.eqb c Tokenizer.LF
                       || Ascii.eqb c Tokenizer.CR)
             (list_ascii_of_string (unlines [""; "  "; ""]%string)) = true
  /\ load_data strtod_none python_float_none float_epoch_none uint64_epoch_none true
       blank_fs "events.csv" None None None
     = Raise EmptyDataError.
Proof.
  assert (H1 : open blank_fs "events.csv" = Ok (unlines [""; "  "; ""]%string)).
  { vm_compute. reflexivity. }
  assert (H2 : forallb (fun c => Tokenizer.is_whitespace c || Ascii.eqb c Tokenizer.LF
                                 || Ascii.eqb c Tokenizer.CR)
                       (list_ascii_of_string (unlines [""; "  "; ""]%string)) = true).
  { vm_compute. reflexivity. }
  split; [exact H1|]. split; [exact H2|].
  exact (load_data_blank_file strtod_none python_float_none float_epoch_none uint64_epoch_none true
           blank_fs "events.csv"%string None None None _ H1 H2).
Defined.

(** X7 on the example: the column [lang]. *)
Lemma load_data_typed_values_witness :
  dtype_of (Some ARTICLES_DTYPES) "lang" = Some DtCategory
  /\ Some "timestamp"%string <> Some "lang"%string
  /\ read_records example_fs example_path None = Ok (example_header.*2, texts example_rows)
  /\ index_of "lang" (column_names example_header.*2) = Some 7%nat
  /\ load_data strtod_none python_float_none float_epoch_none uint64_epoch_none true
       example_fs example_path None (Some "timestamp"%string) (Some ARTICLES_DTYPES)
     = Ok example_articles_df
  /\ exists c,
       lookup_column "lang" (columns example_articles_df) = Some c /\
       values c = string_cell <$> (field 7 <$> texts example_rows).
Proof.
  assert (H1 : dtype_of (Some ARTICLES_DTYPES) "lang" = Some DtCategory).
  { vm_compute. reflexivity. }
  assert (H2 : Some "timestamp"%string <> Some "lang"%string) by discriminate.
  assert (H3 : read_records example_fs example_path None
               = Ok (example_header.*2, texts example_rows)).
  { vm_compute. reflexivity. }
  assert (H4 : index_of "lang" (column_names example_header.*2) = Some 7%nat).
  { vm_compute. reflexivity. }
  split; [exact H1|]. split; [exact H2|]. split; [exact H3|]. split; [exact H4|].
  split; [exact example_load|].
  exact (load_data_typed_values strtod_none python_float_none float_epoch_none uint64_epoch_none true
           example_fs example_path None (Some "timestamp"%string) (Some ARTICLES_DTYPES)
           example_header.*2 (texts example_rows) example_articles_df "lang"%string 7%nat
           DtCategory H1 H2 H3 H4 example_load).
Defined.

(** X8 on the example: the identifiers of [contentId]. *)
Lemma load_data_integer_column_witness :
  let zs := [ -4110354420726924665; -7292285110016212249; -6151852268067518688;
              2448026894306402386; -2826566343807132236; -2148899391355011268 ] in
  read_records example_fs example_path None = Ok (example_header.*2, texts example_rows)
  /\ load_data strtod_none python_float_none float_epoch_none uint64_epoch_none true
       example_fs example_path None (Some "timestamp"%string) (Some ARTICLES_DTYPES)
     = Ok example_articles_df
  /\ index_of "contentId" (column_names example_header.*2) = Some 2%nat
  /\ dtype_of (column_dtypes example_header.*2 (Some ARTICLES_DTYPES)) "contentId" = None
  /\ Some "timestamp"%string <> Some "contentId"%string
  /\ texts example_rows <> []
  /\ Forall2 (fun cell z => str_to_int cell = Some z) (field 2 <$> texts example_rows) zs
  /\ Forall (fun z => INT64_MIN <= z <= INT64_MAX) zs
  /\ lookup_column "contentId" (columns example_articles_df) = Some (Int64 zs).
Proof.
  intros zs.
  assert (H1 : read_records example_fs example_path None
               = Ok (example_header.*2, texts example_rows)).
  { vm_compute. reflexivity. }
  assert (H3 : index_of "contentId" (column_names example_header.*2) = Some 2%nat).
  { vm_compute. reflexivity. }
  assert (H4 : dtype_of (column_dtypes example_header.*2 (Some ARTICLES_DTYPES)) "contentId" = None).
  { vm_compute. reflexivity. }
  assert (H5 : Some "timestamp"%string <> Some "contentId"%string) by discriminate.
  assert (H6 : texts example_rows <> []) by discriminate.
  assert (H7 : Forall2 (fun cell z => str_to_int cell = Some z)
                       (field 2 <$> texts example_rows) zs).
  { repeat constructor. }
  assert (H8 : Forall (fun z => INT64_MIN <= z <= INT64_MAX) zs).
  { unfold INT64_MIN, INT64_MAX. repeat constructor; lia. }
  split; [exact H1|]. split; [exact example_load|]. split; [exact H3|].
  split; [exact H4|]. split; [exact H5|]. split; [exact H6|]. split; [exact H7|].
  split; [exact H8|].
  exact (load_data_integer_column strtod_none python_float_none float_epoch_none uint64_epoch_none true
           example_fs example_path None (Some "timestamp"%string) (Some ARTICLES_DTYPES)
           example_header.*2 (texts example_rows) example_articles_df "contentId"%string
           2%nat zs H1 example_load H3 H4 H5 H6 H7 H8).
Defined.

(** X9 on the example, which has no column [text]. *)
Lemma views_missing_column_witness :
  lookup_column "text" (columns example_articles_df) = None
  /\ (("text"%string ∈ [ "timestamp"; "eventType"; "contentId"; "contentType";
                         "authorPersonId"; "url"; "title" ]%string ->
       duplicates example_articles_df = Raise KeyError) /\
      ("text"%string ∈ [ "authorCountry"; "lang"; "url"; "title"; "text" ]%string ->
       text_columns example_articles_df = Raise KeyError) /\
      ("text"%string = "authorPersonId"%string ->
       author_freq example_articles_df = Raise KeyError /\
       top_authors example_articles_df example_author_freq = Raise KeyError)).
Proof.
  assert (H1 : lookup_column "text" (columns example_articles_df) = None) by reflexivity.
  split; [exact H1|].
  exact (views_missing_column example_articles_df example_author_freq "text"%string H1).
Defined.

(** X10 on the example. *)
Lemma duplicates_paired_witness :
  load_data strtod_none python_float_none float_epoch_none uint64_epoch_none true
    example_fs example_path None (Some "timestamp"%string) (Some ARTICLES_DTYPES)
  = Ok example_articles_df
  /\ duplicates example_articles_df = Ok example_duplicates
  /\ exists title,
       getitem example_duplicates "title" = Ok title /\
       (forall v, v ∈ values (s_values title) ->
                  (2 <= count_value v (values (s_values title)))%nat) /\
       length (index example_duplicates) = length (values (s_values title)) /\
       length (index example_duplicates) <> 1%nat.
Proof.
  assert (H2 : duplicates example_articles_df = Ok example_duplicates).
  { vm_compute. reflexivity. }
  split; [exact example_load|]. split; [exact H2|].
  exact (duplicates_paired strtod_none python_float_none float_epoch_none uint64_epoch_none true
           example_fs example_path None (Some "timestamp"%string) (Some ARTICLES_DTYPES)
           example_articles_df example_duplicates example_load H2).
Defined.

(** X11 on the example. *)
Lemma duplicates_idempotent_witness :
  load_data strtod_none python_float_none float_epoch_none uint64_epoch_none true
    example_fs example_path None (Some "timestamp"%string) (Some ARTICLES_DTYPES)
  = Ok example_articles_df
  /\ duplicates example_articles_df = Ok example_duplicates
  /\ duplicates example_duplicates = Ok example_duplicates.
Proof.
  assert (H2 : duplicates example_articles_df = Ok example_duplicates).
  { vm_compute. reflexivity. }
  split; [exact example_load|]. split; [exact H2|].
  exact (duplicates_idempotent strtod_none python_float_none float_epoch_none uint64_epoch_none true
           example_fs example_path None (Some "timestamp"%string) (Some ARTICLES_DTYPES)
           example_articles_df example_duplicates example_load H2).
Defined.

(** X12 on the example. *)
Lemma author_freq_counts_witness :
  let authors :=
    mkSeries (index example_articles_df)
      (Int64 [ 4340306774493623681; 4340306774493623681; 4340306774493623681;
               3609194402293569455; 3609194402293569455; -1443636648652872475 ]) in
  let vals := values (s_values authors) in
  load_data strtod_none python_float_none float_epoch_none uint64_epoch_none true
    example_fs example_path None (Some "timestamp"%string) (Some ARTICLES_DTYPES)
  = Ok example_articles_df
  /\ getitem example_articles_df "authorPersonId" = Ok authors
  /\ exists r,
       author_freq example_articles_df = Ok r /\
       lookup_column "num_articles" (columns r)
       = Some (Int64 ((fun k => Z.of_nat (count_value k vals)) <$> index r)) /\
       (forall v, v ∈ vals -> isna v = false ->
                  length (filter (fun k => value_eqb k v) (index r)) = 1%nat) /\
       (forall k, k ∈ index r -> k ∈ vals /\ isna k = false).
Proof.
  intros authors vals.
  assert (H2 : getitem example_articles_df "authorPersonId" = Ok authors).
  { vm_compute. reflexivity. }
  split; [exact example_load|]. split; [exact H2|].
  exact (author_freq_counts strtod_none python_float_none float_epoch_none uint64_epoch_none true
           example_fs example_path None (Some "timestamp"%string) (Some ARTICLES_DTYPES)
           example_articles_df authors example_load H2).
Defined.

(** X13 on the example. *)
Lemma author_freq_sorted_witness :
  let authors :=
    mkSeries (index example_articles_df)
      (Int64 [ 4340306774493623681; 4340306774493623681; 4340306774493623681;
               3609194402293569455; 3609194402293569455; -1443636648652872475 ]) in
  load_data strtod_none python_float_none float_epoch_none uint64_epoch_none true
    example_fs example_path None (Some "timestamp"%string) (Some ARTICLES_DTYPES)
  = Ok example_articles_df
  /\ getitem example_articles_df "authorPersonId" = Ok authors
  /\ exists r num,
       author_freq example_articles_df = Ok r /\
       lookup_column "num_articles" (columns r) = Some (Int64 num) /\
       Sorted (fun a b => b <= a) num /\
       Forall (fun n => 1 <= n) num.
Proof.
  intros authors.
  assert (H2 : getitem example_articles_df "authorPersonId" = Ok authors).
  { vm_compute. reflexivity. }
  split; [exact example_load|]. split; [exact H2|].
  exact (author_freq_sorted strtod_none python_float_none float_epoch_none uint64_epoch_none true
           example_fs example_path None (Some "timestamp"%string) (Some ARTICLES_DTYPES)
           example_articles_df authors example_load H2).
Defined.

(** X14 on a file none of whose events has an author. *)
Lemma author_freq_no_author_witness :
  let df := mkDataFrame [VInt 0; VInt 1]
              [ ("authorPersonId", Float64 [nan; nan]);
                ("title", Object [VStr "a"; VStr "b"]) ]%string in
  let authors := mkSeries [VInt 0; VInt 1] (Float64 [nan; nan]) in
  load_data strtod_none python_float_none float_epoch_none uint64_epoch_none true
    anonymous_fs "events.csv" None None None = Ok df
  /\ getitem df "authorPersonId" = Ok authors
  /\ (forall v, v ∈ values (s_values authors) -> isna v = true)
  /\ author_freq df
     = Ok (mkDataFrame [] [ ("num_articles", Int64 []); ("percent", Float64 []) ]%string).
Proof.
  intros df authors.
  assert (H1 : load_data strtod_none python_float_none float_epoch_none uint64_epoch_none true
                 anonymous_fs "events.csv" None None None = Ok df).
  { vm_compute. reflexivity. }
  assert (H2 : getitem df "authorPersonId" = Ok authors) by reflexivity.
  assert (H3 : forall v, v ∈ values (s_values authors) -> isna v = true).
  { intros v Hv. change (values (s_values authors)) with [VNaN; VNaN] in Hv.
    apply elem_of_cons in Hv as [->|Hv]; [reflexivity|].
    apply elem_of_cons in Hv as [->|Hv]; [reflexivity|]. inversion Hv. }
  split; [exact H1|]. split; [exact H2|]. split; [exact H3|].
  exact (author_freq_no_author strtod_none python_float_none float_epoch_none uint64_epoch_none true
           anonymous_fs "events.csv"%string None None None df authors H1 H2 H3).
Defined.

(** X15 on the example: the first two authors have three and two
    articles, and five rows are shown. *)
Lemma top_authors_articles_witness :
  let authors :=
    mkSeries (index example_articles_df)
      (Int64 [ 4340306774493623681; 4340306774493623681; 4340306774493623681;
               3609194402293569455; 3609194402293569455; -1443636648652872475 ]) in
  let vals := values (s_values authors) in
  let top := take 2 (index example_author_freq) in
  load_data strtod_none python_float_none float_epoch_none uint64_epoch_none true
    example_fs example_path None (Some "timestamp"%string) (Some ARTICLES_DTYPES)
  = Ok example_articles_df
  /\ getitem example_articles_df "authorPersonId" = Ok authors
  /\ author_freq example_articles_df = Ok example_author_freq
  /\ exists shown num,
       top_authors example_articles_df example_author_freq = Ok shown /\
       lookup_column "num_articles" (columns example_author_freq) = Some (Int64 num) /\
       rows shown
       = select ((fun v => existsb (value_eqb v) top) <$> vals) (rows example_articles_df) /\
       (forall r,
           r ∈ rows shown <->
           exists i v k, rows example_articles_df !! i = Some r /\ vals !! i = Some v /\
                         k ∈ top /\ value_eqb v k = true) /\
       Z.of_nat (length (index shown)) = foldr Z.add 0 (take 2 num).
Proof.
  intros authors vals top.
  assert (H2 : getitem example_articles_df "authorPersonId" = Ok authors).
  { vm_compute. reflexivity. }
  assert (H3 : author_freq example_articles_df = Ok example_author_freq).
  { vm_compute. reflexivity. }
  split; [exact example_load|]. split; [exact H2|]. split; [exact H3|].
  exact (top_authors_articles strtod_none python_float_none float_epoch_none uint64_epoch_none true
           example_fs example_path None (Some "timestamp"%string) (Some ARTICLES_DTYPES)
           example_articles_df authors example_author_freq example_load H2 H3).
Defined.

Lemma example_times_in_range : Forall in_timestamp_range example_times.
Proof.
  unfold example_times, in_timestamp_range, Timestamp_min, Timestamp_max, INT64_MIN,
    INT64_MAX.
  repeat constructor; lia.
Defined.

(** X16 on the times of the example. *)
Lemma date_select_map_total_witness :
  Forall in_timestamp_range example_times
  /\ exists month hour weekday,
       date_select_map example_times
       = Ok [ ("Month", month); ("Hour", hour); ("Day of Week", weekday) ]%string /\
       length month = 12%nat /\ length hour = 24%nat /\ length weekday = 7%nat /\
       foldr Z.add 0 month = Z.of_nat (length example_times) /\
       foldr Z.add 0 hour = Z.of_nat (length example_times) /\
       foldr Z.add 0 weekday = Z.of_nat (length example_times).
Proof.
  split; [exact example_times_in_range|].
  exact (date_select_map_total example_times example_times_in_range).
Defined.

(** X17 on a Monday and two Sundays: one row in the first bin, two in the
    last. *)
Lemma date_hist_exact_witness :
  Forall in_timestamp_range week_times
  /\ (field_min Weekday ∈ get_date_field Weekday <$> week_times)
  /\ (field_max Weekday ∈ get_date_field Weekday <$> week_times)
  /\ date_hist Weekday week_times
     = Ok ((fun b => Z.of_nat (length (filter
                       (fun ns => get_date_field Weekday ns = field_min Weekday + Z.of_nat b)
                       week_times)))
             <$> seq 0 (bins_of Weekday)).
Proof.
  assert (H1 : Forall in_timestamp_range week_times).
  { unfold week_times, in_timestamp_range, Timestamp_min, Timestamp_max, INT64_MIN,
      INT64_MAX, NS_PER_DAY, NS_PER_HOUR, SECOND_NS.
    repeat constructor; lia. }
  assert (H2 : field_min Weekday ∈ get_date_field Weekday <$> week_times).
  { change (get_date_field Weekday <$> week_times) with [0; 6; 6]. left. }
  assert (H3 : field_max Weekday ∈ get_date_field Weekday <$> week_times).
  { change (get_date_field Weekday <$> week_times) with [0; 6; 6]. right. left. }
  split; [exact H1|]. split; [exact H2|]. split; [exact H3|].
  exact (date_hist_exact Weekday week_times H1 H2 H3).
Defined.

(** X18 on a table with a missing time. *)
Lemma date_select_map_missing_time_witness :
  (NPY_NAT ∈ [1459193988000000000; NPY_NAT])
  /\ date_select_map [1459193988000000000; NPY_NAT] = Raise ValueError.
Proof.
  assert (H1 : NPY_NAT ∈ [1459193988000000000; NPY_NAT]) by (right; left).
  split; [exact H1|].
  exact (date_select_map_missing_time [1459193988000000000; NPY_NAT] H1).
Defined.

(** X19 on the times of the example, all of them in March: the six rows
    are in bin 6, which a reader takes for July. *)
Lemma date_hist_single_value_witness :
  example_times <> []
  /\ Forall in_timestamp_range example_times
  /\ Forall (fun ns => get_date_field Month ns = 3) example_times
  /\ date_hist Month example_times
     = Ok (<[(bins_of Month / 2)%nat := Z.of_nat (length example_times)]>
             (replicate (bins_of Month) 0)).
Proof.
  assert (H1 : example_times <> []) by discriminate.
  assert (H3 : Forall (fun ns => get_date_field Month ns = 3) example_times).
  { repeat constructor. }
  split; [exact H1|]. split; [exact example_times_in_range|]. split; [exact H3|].
  exact (date_hist_single_value Month example_times 3 H1 example_times_in_range H3).
Defined.

(** X20 on the first time of the example: Monday 28 March 2016, 19
    hours. *)
Lemma date_fields_of_epoch_witness :
  in_timestamp_range 1459193988000000000
  /\ get_date_field Hour 1459193988000000000 = (1459193988000000000 / NS_PER_HOUR) mod 24
  /\ get_date_field Weekday 1459193988000000000
     = (1459193988000000000 / NS_PER_DAY + 3) mod 7
  /\ 1 <= get_date_field Month 1459193988000000000 <= 12.
Proof.
  assert (H1 : in_timestamp_range 1459193988000000000).
  { unfold in_timestamp_range, Timestamp_min, Timestamp_max, INT64_MIN, INT64_MAX. lia. }
  split; [exact H1|].
  exact (date_fields_of_epoch 1459193988000000000 H1).
Defined.

(** X21 on the example with a row limit of 4: the column [contentType]
    has one label less, and the same first four cells. *)
Lemma load_data_nrows_prefix_witness :
  let c_limited := Category ["HTML"]%string [0; 0; 0; 0] in
  let c_whole := Category ["HTML"; "VIDEO"]%string [0; 0; 0; 0; 0; 1] in
  well_formed example_header example_rows
  /\ open example_fs example_path
     = Ok (write_csv LineFeed (example_header :: example_rows) true)
  /\ 0 <= 4
  /\ dtype_of (Some ARTICLES_DTYPES) "contentType" = Some DtCategory
  /\ Some "timestamp"%string <> Some "contentType"%string
  /\ load_data strtod_none python_float_none float_epoch_none uint64_epoch_none true
       example_fs example_path (Some 4) (Some "timestamp"%string) (Some ARTICLES_DTYPES)
     = Ok example_head_df
  /\ load_data strtod_none python_float_none float_epoch_none uint64_epoch_none true
       example_fs example_path None (Some "timestamp"%string) (Some ARTICLES_DTYPES)
     = Ok example_articles_df
  /\ lookup_column "contentType" (columns example_head_df) = Some c_limited
  /\ lookup_column "contentType" (columns example_articles_df) = Some c_whole
  /\ index example_head_df = take (Z.to_nat 4) (index example_articles_df)
  /\ values c_limited = take (Z.to_nat 4) (values c_whole).
Proof.
  intros c_limited c_whole.
  assert (H2 : open example_fs example_path
               = Ok (write_csv LineFeed (example_header :: example_rows) true)).
  { vm_compute. reflexivity. }
  assert (H3 : 0 <= 4) by discriminate.
  assert (H4 : dtype_of (Some ARTICLES_DTYPES) "contentType" = Some DtCategory).
  { vm_compute. reflexivity. }
  assert (H5 : Some "timestamp"%string <> Some "contentType"%string) by discriminate.
  assert (H6 : load_data strtod_none python_float_none float_epoch_none uint64_epoch_none true
                 example_fs example_path (Some 4) (Some "timestamp"%string)
                 (Some ARTICLES_DTYPES) = Ok example_head_df).
  { vm_compute. reflexivity. }
  assert (H8 : lookup_column "contentType" (columns example_head_df) = Some c_limited).
  { reflexivity. }
  assert (H9 : lookup_column "contentType" (columns example_articles_df) = Some c_whole).
  { reflexivity. }
  split; [exact example_well_formed|]. split; [exact H2|]. split; [exact H3|].
  split; [exact H4|]. split; [exact H5|]. split; [exact H6|]. split; [exact example_load|].
  split; [exact H8|]. split; [exact H9|].
  exact (load_data_nrows_prefix strtod_none python_float_none float_epoch_none uint64_epoch_none true
           example_fs example_path 4 (Some "timestamp"%string) (Some ARTICLES_DTYPES)
           LineFeed example_header example_rows true "contentType"%string DtCategory
           example_head_df example_articles_df c_limited c_whole
           example_well_formed H2 H3 H4 H5 H6 example_load H8 H9).
Defined.

